(** * AgentSecrets: the key hierarchy and the session bootstrap

    A shallow embedding of the Go packages [crypto], [config], [keyring],
    [api], [auth] and [workspaces] of AgentSecrets, with the parts of the Go
    standard library they call, the properties of the key-hierarchy
    specification stated and settled over it, and further properties of the
    code.

    Layout of the development:
    - Part I    the Go values the program handles (bytes, strings, errors)
    - Part II   encoding/hex and encoding/base64
    - Part III  the entropy source and the cryptographic libraries
    - Part IV   package crypto
    - Part V    packages config, keyring, api
    - Part VI   package auth
    - Part VII  the vocabulary of the statements
    - Part VIII a reference implementation of the libraries, and scenarios
    - Part IX   the rest of the packages: the files of a first run, the URL
                parameters, package workspaces and the keyring file
    - Part X    lemmas on results and on the encodings
    - Part XI   the properties of the specification
    - Part XII  further properties of the code *)

From Stdlib Require Import NArith Ascii String List DecimalString Lia.
From stdpp Require Import base option list gmap strings.

Set Default Proof Using "Type".

(* ================================================================== *)
(** * Part I. Go values *)
(* ================================================================== *)

(** A Go [byte] is an octet, and a Go [string] is a sequence of octets: these
    are [ascii] and [string].  A byte slice [[]byte] is a [list byte]; the
    conversions [[]byte(s)] and [string(b)] copy the octets. *)
Abbreviation byte := ascii.

Definition bytes_of_string (s : string) : list byte := list_ascii_of_string s.
Definition string_of_bytes (b : list byte) : string := string_of_list_ascii b.

(** strconv.Itoa on a non-negative number. *)
Definition itoa (n : N) : string := NilZero.string_of_uint (N.to_uint n).

(** The digit of a value below 16, in the given table of sixteen. *)
Definition digit16 (table : string) (n : N) : byte :=
  match String.get (N.to_nat n) table with
  | Some c => c
  | None => "?"%char
  end.

(** strconv.IsPrint on a rune below 256. *)
Definition IsPrint (r : N) : bool :=
  ((32 <=? r) && (r <=? 126) || (161 <=? r) && (r <=? 255) && negb (r =? 173))%N.

(** utf8.EncodeRune on a rune below 256: one octet below 128, two above. *)
Definition EncodeRune (r : N) : string :=
  if (r <? 128)%N then String (ascii_of_N r) EmptyString
  else String (ascii_of_N (N.lor 192 (N.shiftr r 6)))
         (String (ascii_of_N (N.lor 128 (N.land r 63))) EmptyString).

(** fmt's verb [%#U] on a rune below 256: [U+0067 'g']. *)
Definition fmt_sharpU (r : N) : string :=
  "U+00" +:+ String (digit16 "0123456789ABCDEF" (N.shiftr r 4))
               (String (digit16 "0123456789ABCDEF" (N.land r 15)) EmptyString)
    +:+ (if IsPrint r then " '" +:+ EncodeRune r +:+ "'" else "").

(** Go's [error] values: the two kinds package [fmt] and [errors] build, the
    library errors the program can meet, and the errors of the operating
    system, the keychain and the network, which carry their own text. *)
Inductive error : Type :=
| errorString (s : string)
| wrapError (msg : string) (err : error)
| CorruptInputError (n : N)
| InvalidByteError (b : byte)
| ErrLength
| KeySizeError (n : N)
| errOpen
| EOF
| ErrUnexpectedEOF
| ErrNotFound
| SyscallError (s : string).

(** The method [Error()] of each. *)
Definition Error (e : error) : string :=
  match e with
  | errorString s => s
  | wrapError msg _ => msg
  | CorruptInputError n => "illegal base64 data at input byte " +:+ itoa n
  | InvalidByteError b => "encoding/hex: invalid byte: " +:+ fmt_sharpU (N_of_ascii b)
  | ErrLength => "encoding/hex: odd length hex string"
  | KeySizeError n => "crypto/aes: invalid key size " +:+ itoa n
  | errOpen => "cipher: message authentication failed"
  | EOF => "EOF"
  | ErrUnexpectedEOF => "unexpected EOF"
  | ErrNotFound => "secret not found in keyring"
  | SyscallError s => s
  end.

(** [fmt.Errorf("<prefix>: %w", err)]. *)
Definition Errorf_w (prefix : string) (err : error) : error :=
  wrapError (prefix +:+ ": " +:+ Error err) err.

(** [fmt.Errorf] with no verb. *)
Definition Errorf (msg : string) : error := errorString msg.

(** What a call comes to: a value, an error, or a run-time panic. *)
Inductive result (A : Type) : Type :=
| Ok (a : A)
| Err (e : error)
| Panic (msg : string).
Arguments Ok {A} a.
Arguments Err {A} e.
Arguments Panic {A} msg.

Definition bind {A B : Type} (r : result A) (k : A -> result B) : result B :=
  match r with
  | Ok a => k a
  | Err e => Err e
  | Panic msg => Panic msg
  end.

(** [if err != nil { return fmt.Errorf("<prefix>: %w", err) }]. *)
Definition wrapping {A : Type} (prefix : string) (r : result A) : result A :=
  match r with
  | Err e => Err (Errorf_w prefix e)
  | _ => r
  end.

Declare Scope go_scope.
Delimit Scope go_scope with go.
Notation "x <- r ;; k" := (bind r (fun x => k))
  (at level 100, r at next level, right associativity) : go_scope.

(** What the environment answers a call with: a value or an error. *)
Definition answer {A : Type} (x : A + error) : result A :=
  match x with
  | inl a => Ok a
  | inr e => Err e
  end.

Definition is_Ok {A : Type} (r : result A) : bool :=
  match r with Ok _ => true | _ => false end.
Definition is_Err {A : Type} (r : result A) : bool :=
  match r with Err _ => true | _ => false end.

(** ** unicode/utf8 *)

Module utf8.

(** A continuation byte, 0x80 to 0xBF. *)
Definition continuation (b : byte) : bool :=
  let x := N_of_ascii b in ((128 <=? x) && (x <=? 191))%N.

Definition between (lo hi : N) (b : byte) : bool :=
  let x := N_of_ascii b in ((lo <=? x) && (x <=? hi))%N.

(** utf8.Valid: the bytes are a sequence of encoded runes, with no overlong
    form, no surrogate half and nothing above U+10FFFF. *)
Fixpoint Valid (p : list byte) : bool :=
  match p with
  | [] => true
  | b0 :: rest =>
      let x := N_of_ascii b0 in
      if (x <? 128)%N then Valid rest
      else if ((194 <=? x) && (x <=? 223))%N then
        match rest with
        | b1 :: rest' => continuation b1 && Valid rest'
        | _ => false
        end
      else if ((224 <=? x) && (x <=? 239))%N then
        match rest with
        | b1 :: b2 :: rest' =>
            (if (x =? 224)%N then between 160 191 b1
             else if (x =? 237)%N then between 128 159 b1
             else continuation b1)
            && continuation b2 && Valid rest'
        | _ => false
        end
      else if ((240 <=? x) && (x <=? 244))%N then
        match rest with
        | b1 :: b2 :: b3 :: rest' =>
            (if (x =? 240)%N then between 144 191 b1
             else if (x =? 244)%N then between 128 143 b1
             else continuation b1)
            && continuation b2 && continuation b3 && Valid rest'
        | _ => false
        end
      else false
  end.

(** utf8.ValidString. *)
Definition ValidString (s : string) : bool := Valid (bytes_of_string s).

End utf8.

(* ================================================================== *)
(** * Part II. encoding/hex and encoding/base64 *)
(* ================================================================== *)

Module hex.

Definition hextable : string := "0123456789abcdef".

(** EncodeToString: two digits per byte, [hextable[v>>4]] then
    [hextable[v&0x0f]]. *)
Definition Encode (src : list byte) : list byte :=
  flat_map (fun v => [digit16 hextable (N.shiftr (N_of_ascii v) 4);
                      digit16 hextable (N.land (N_of_ascii v) 15)]) src.

Definition EncodeToString (src : list byte) : string :=
  string_of_bytes (Encode src).

(** reverseHexTable: the value of a digit in either case, [None] for 0xff. *)
Definition fromHexChar (c : byte) : option N :=
  let n := N_of_ascii c in
  if ((48 <=? n) && (n <=? 57))%N then Some (n - 48)%N
  else if ((97 <=? n) && (n <=? 102))%N then Some (n - 97 + 10)%N
  else if ((65 <=? n) && (n <=? 70))%N then Some (n - 65 + 10)%N
  else None.

(** Decode: pairs from the left; an invalid byte is reported before an odd
    length. *)
Fixpoint Decode (src : list byte) : result (list byte) :=
  match src with
  | [] => Ok []
  | [p] =>
      match fromHexChar p with
      | None => Err (InvalidByteError p)
      | Some _ => Err ErrLength
      end
  | p :: q :: rest =>
      match fromHexChar p, fromHexChar q with
      | None, _ => Err (InvalidByteError p)
      | Some _, None => Err (InvalidByteError q)
      | Some a, Some b =>
          bind (Decode rest)
               (fun tl => Ok (ascii_of_N (N.lor (N.shiftl a 4) b) :: tl))
      end
  end.

Definition DecodeString (s : string) : result (list byte) :=
  Decode (bytes_of_string s).

End hex.

Module base64.

(** StdEncoding: the standard alphabet, padded with [=], not strict. *)
Definition encodeStd : string :=
  "ABCDEFGHIJKLMNOPQRSTUVWXYZabcdefghijklmnopqrstuvwxyz0123456789+/".

Definition padChar : byte := "="%char.

(** The character of a six-bit value. *)
Definition encode (v : N) : byte :=
  match String.get (N.to_nat v) encodeStd with
  | Some c => c
  | None => "?"%char
  end.

(** decodeMap: the six-bit value of a character of the alphabet, [None] for
    0xff. *)
Definition decodeMap (c : byte) : option N :=
  let n := N_of_ascii c in
  if ((65 <=? n) && (n <=? 90))%N then Some (n - 65)%N
  else if ((97 <=? n) && (n <=? 122))%N then Some (n - 97 + 26)%N
  else if ((48 <=? n) && (n <=? 57))%N then Some (n - 48 + 52)%N
  else if (n =? 43)%N then Some 62%N
  else if (n =? 47)%N then Some 63%N
  else None.

(** The four six-bit values of three bytes, [val>>18&0x3F] to [val&0x3F] for
    [val = a<<16 | b<<8 | c], read off the bits. *)
Definition sextets (a b c : byte) : N * N * N * N :=
  let '(Ascii a0 a1 a2 a3 a4 a5 a6 a7) := a in
  let '(Ascii b0 b1 b2 b3 b4 b5 b6 b7) := b in
  let '(Ascii c0 c1 c2 c3 c4 c5 c6 c7) := c in
  (N_of_digits [a2; a3; a4; a5; a6; a7],
   N_of_digits [b4; b5; b6; b7; a0; a1],
   N_of_digits [c6; c7; b0; b1; b2; b3],
   N_of_digits [c0; c1; c2; c3; c4; c5]).

Fixpoint Encode (src : list byte) : list byte :=
  match src with
  | [] => []
  | [a] =>
      let '(s0, s1, _, _) := sextets a zero zero in
      [encode s0; encode s1; padChar; padChar]
  | [a; b] =>
      let '(s0, s1, s2, _) := sextets a b zero in
      [encode s0; encode s1; encode s2; padChar]
  | a :: b :: c :: rest =>
      let '(s0, s1, s2, s3) := sextets a b c in
      encode s0 :: encode s1 :: encode s2 :: encode s3 :: Encode rest
  end.

Definition EncodeToString (src : list byte) : string :=
  string_of_bytes (Encode src).

(** The three bytes of four six-bit values:
    [val = s0<<18 | s1<<12 | s2<<6 | s3], then [val>>16], [val>>8], [val]. *)
Definition octet1 (s0 s1 : N) : byte :=
  Ascii (N.testbit s1 4) (N.testbit s1 5) (N.testbit s0 0) (N.testbit s0 1)
        (N.testbit s0 2) (N.testbit s0 3) (N.testbit s0 4) (N.testbit s0 5).
Definition octet2 (s1 s2 : N) : byte :=
  Ascii (N.testbit s2 2) (N.testbit s2 3) (N.testbit s2 4) (N.testbit s2 5)
        (N.testbit s1 0) (N.testbit s1 1) (N.testbit s1 2) (N.testbit s1 3).
Definition octet3 (s2 s3 : N) : byte :=
  Ascii (N.testbit s3 0) (N.testbit s3 1) (N.testbit s3 2) (N.testbit s3 3)
        (N.testbit s3 4) (N.testbit s3 5) (N.testbit s2 0) (N.testbit s2 1).

Definition is_newline (c : byte) : bool :=
  let n := N_of_ascii c in ((n =? 10) || (n =? 13))%N.

Definition is_pad (c : byte) : bool := (N_of_ascii c =? 61)%N.

(** [for si < len(src) && (src[si] == '\n' || src[si] == '\r') { si++ }] *)
Fixpoint skip_newlines (src : list byte) (si : N) : list byte * N :=
  match src with
  | c :: rest => if is_newline c then skip_newlines rest (si + 1)%N else (src, si)
  | [] => ([], si)
  end.

(** Decode, one character at a time: [si] is the index of the next character,
    [total] is [len(src)], [dbuf] holds the six-bit values of the quantum
    read so far.  Line breaks are skipped; padding is accepted only where it
    completes the last quantum, and nothing but line breaks may follow it.
    The error is the one decodeQuantum returns. *)
Fixpoint decode (src : list byte) (si total : N) (dbuf : list N) : result (list byte) :=
  match src with
  | [] =>
      match dbuf with
      | [] => Ok []
      | _ => Err (CorruptInputError (si - N.of_nat (length dbuf)))
      end
  | c :: rest =>
      match decodeMap c with
      | Some out =>
          match dbuf with
          | [s0; s1; s2] =>
              bind (decode rest (si + 1)%N total [])
                   (fun tl => Ok (octet1 s0 s1 :: octet2 s1 s2 :: octet3 s2 out :: tl))
          | _ => decode rest (si + 1)%N total (dbuf ++ [out])
          end
      | None =>
          if is_newline c then decode rest (si + 1)%N total dbuf
          else if negb (is_pad c) then Err (CorruptInputError si)
          else
            match dbuf with
            | [s0; s1] =>
                let '(rest1, si1) := skip_newlines rest (si + 1)%N in
                match rest1 with
                | [] => Err (CorruptInputError total)
                | c2 :: rest2 =>
                    if negb (is_pad c2) then Err (CorruptInputError (si1 - 1))
                    else
                      let '(rest3, si3) := skip_newlines rest2 (si1 + 1)%N in
                      match rest3 with
                      | [] => Ok [octet1 s0 s1]
                      | _ => Err (CorruptInputError si3)
                      end
                end
            | [s0; s1; s2] =>
                let '(rest1, si1) := skip_newlines rest (si + 1)%N in
                match rest1 with
                | [] => Ok [octet1 s0 s1; octet2 s1 s2]
                | _ => Err (CorruptInputError si1)
                end
            | _ => Err (CorruptInputError si)
            end
      end
  end.

Definition DecodeString (s : string) : result (list byte) :=
  decode (bytes_of_string s) 0 (N.of_nat (String.length s)) [].

End base64.

(* ================================================================== *)
(** * Part III. The entropy source and the cryptographic libraries *)
(* ================================================================== *)

(** Code that reads or writes a state [S] as it goes: the state is threaded
    through, and it is returned with an error too, since what was written
    before a failure stays written. *)
Definition M (S A : Type) : Type := S -> result A * S.

Definition ret {S A : Type} (a : A) : M S A := fun s => (Ok a, s).

Definition lift {S A : Type} (r : result A) : M S A := fun s => (r, s).

Definition bindM {S A B : Type} (m : M S A) (k : A -> M S B) : M S B :=
  fun s =>
    match m s with
    | (Ok a, s') => k a s'
    | (Err e, s') => (Err e, s')
    | (Panic msg, s') => (Panic msg, s')
    end.

Definition wrappingM {S A : Type} (prefix : string) (m : M S A) : M S A :=
  fun s => let '(r, s') := m s in (wrapping prefix r, s').

Notation "x <~ m ;; k" := (bindM m (fun x => k))
  (at level 100, m at next level, right associativity) : go_scope.

Module io.

(** An entropy source, as the bytes it still yields: crypto/rand's Reader
    behind io.Reader. *)
Definition Reader : Type := list byte.

(** io.ReadFull(r, buf) for a buffer of [n] bytes: all of them, or EOF when
    none could be read, or ErrUnexpectedEOF when only some could. *)
Definition ReadFull (n : nat) : M Reader (list byte) :=
  fun r =>
    if decide (n <= length r) then (Ok (take n r), drop n r)
    else match r with
         | [] => (Err EOF, [])
         | _ => (Err ErrUnexpectedEOF, [])
         end.

End io.

(** The cryptographic libraries the program calls, golang.org/x/crypto's
    argon2 and nacl/box and the standard library's AES-GCM, are taken by
    their contracts: the functions they compute, the sizes of what they
    return, and that opening what was sealed gives the message back.  The
    program is verified for every implementation of this interface. *)
Class CryptoLib : Type := {
  (** Argon2id: password, salt, time, memory, threads, key length. *)
  argon2id : list byte -> list byte -> N -> N -> N -> N -> list byte;
  argon2id_length : forall password salt time memory threads keyLen,
    (1 <= time)%N -> (1 <= threads)%N ->
    length (argon2id password salt time memory threads keyLen) = N.to_nat keyLen;
  (** AES-GCM with a 12-byte nonce and a 16-byte tag: key, nonce, plaintext,
      additional data; the ciphertext carries the tag at its end. *)
  gcm_seal : list byte -> list byte -> list byte -> list byte -> list byte;
  gcm_open : list byte -> list byte -> list byte -> list byte -> option (list byte);
  gcm_open_seal : forall key nonce plaintext data,
    length key = 16 \/ length key = 24 \/ length key = 32 ->
    length nonce = 12 ->
    (N.of_nat (length plaintext) <= 68719476704)%N ->
    gcm_open key nonce (gcm_seal key nonce plaintext data) data = Some plaintext;
  (** X25519: the public key of a private key. *)
  scalar_base_mult : list byte -> list byte;
  scalar_base_mult_length : forall sk, length (scalar_base_mult sk) = 32;
  (** NaCl's anonymous sealed box: message, recipient's public key and the
      ephemeral private key drawn for this box; and its opening with the
      recipient's key pair. *)
  sealed_box : list byte -> list byte -> list byte -> list byte;
  sealed_open : list byte -> list byte -> list byte -> option (list byte);
  sealed_open_box : forall message sk esk,
    length sk = 32 -> length esk = 32 ->
    sealed_open (sealed_box message (scalar_base_mult sk) esk)
                (scalar_base_mult sk) sk = Some message
}.

Module argon2.
(** argon2.IDKey, called with [time] and [threads] at least 1. *)
Definition IDKey {L : CryptoLib} (password salt : list byte) (time memory threads keyLen : N)
  : list byte :=
  argon2id password salt time memory threads keyLen.
End argon2.

Module aes.
(** aes.NewCipher: the key must have 16, 24 or 32 bytes. *)
Definition NewCipher (key : list byte) : result (list byte) :=
  if decide (length key = 16 \/ length key = 24 \/ length key = 32) then Ok key
  else Err (KeySizeError (N.of_nat (length key))).
End aes.

Module cipher.

(** cipher.NewGCM over an AES block: the block size is 16, so it succeeds. *)
Definition NewGCM (block : list byte) : result (list byte) := Ok block.

Definition NonceSize (aesGCM : list byte) : nat := 12.

(** The longest plaintext of one call, ((1<<32)-2)*16 bytes. *)
Definition maxPlaintext : N := 68719476704.

(** Seal appends the ciphertext and its tag to [dst]. *)
Definition Seal {L : CryptoLib} (aesGCM dst nonce plaintext data : list byte)
  : result (list byte) :=
  if decide (length nonce = 12) then
    if (N.of_nat (length plaintext) <=? maxPlaintext)%N then
      Ok (dst ++ gcm_seal aesGCM nonce plaintext data)
    else Panic "crypto/cipher: message too large for GCM"
  else Panic "crypto/cipher: incorrect nonce length given to GCM".

(** Open appends the plaintext to [dst], or fails with the one error
    [errOpen] whatever made the authentication fail. *)
Definition Open {L : CryptoLib} (aesGCM dst nonce ciphertext data : list byte)
  : result (list byte) :=
  if decide (length nonce = 12) then
    match gcm_open aesGCM nonce ciphertext data with
    | Some plaintext => Ok (dst ++ plaintext)
    | None => Err errOpen
    end
  else Panic "crypto/cipher: incorrect nonce length given to GCM".

End cipher.

Module box.

(** box.GenerateKey: (publicKey, privateKey). *)
Definition GenerateKey {L : CryptoLib} : M io.Reader (list byte * list byte) :=
  (priv <~ io.ReadFull 32 ;;
   ret (scalar_base_mult priv, priv))%go.

(** box.SealAnonymous appends the sealed box to [out]; it draws the ephemeral
    key pair from [rand]. *)
Definition SealAnonymous {L : CryptoLib} (out message recipient : list byte)
  : M io.Reader (list byte) :=
  (eph <~ GenerateKey ;;
   ret (out ++ sealed_box message recipient (snd eph)))%go.

(** box.OpenAnonymous: the message and [true], or [false]. *)
Definition OpenAnonymous {L : CryptoLib} (out box publicKey privateKey : list byte)
  : option (list byte) :=
  match sealed_open box publicKey privateKey with
  | Some message => Some (out ++ message)
  | None => None
  end.

End box.

(* ================================================================== *)
(** * Part IV. Package crypto *)
(* ================================================================== *)

Module crypto.
Section with_libraries.
Context {L : CryptoLib}.
Local Open Scope go_scope.

Definition NonceSize : nat := 12.
Definition KeySize : nat := 32.
Definition SaltSize : nat := 32.

Definition argonTime : N := 3.
Definition argonMemory : N := 64 * 1024.
Definition argonThreads : N := 4.
Definition argonKeyLen : N := 32.

Record UserKeys : Type := {
  PrivateKey : list byte;
  PublicKey : list byte;
  EncryptedPrivateKey : string;
  Salt : string
}.

Definition DeriveKeyFromPassword (password saltHex : string) : result (list byte) :=
  salt <- wrapping "invalid salt hex" (hex.DecodeString saltHex) ;;
  Ok (argon2.IDKey (bytes_of_string password) salt
        argonTime argonMemory argonThreads argonKeyLen).

Definition EncryptPrivateKey (privateKey : list byte) (password : string)
  : M io.Reader (string * string) :=
  salt <~ wrappingM "failed to generate salt" (io.ReadFull SaltSize) ;;
  let saltHex := hex.EncodeToString salt in
  derivedKey <~ lift (DeriveKeyFromPassword password saltHex) ;;
  block <~ lift (wrapping "failed to create cipher" (aes.NewCipher derivedKey)) ;;
  aesGCM <~ lift (wrapping "failed to create GCM" (cipher.NewGCM block)) ;;
  nonce <~ wrappingM "failed to generate nonce" (io.ReadFull (cipher.NonceSize aesGCM)) ;;
  ciphertext <~ lift (cipher.Seal aesGCM nonce nonce privateKey []) ;;
  ret (base64.EncodeToString ciphertext, saltHex).

Definition DecryptPrivateKey (encryptedB64 password saltHex : string)
  : result (list byte) :=
  ciphertext <- wrapping "failed to decode encrypted private key"
                  (base64.DecodeString encryptedB64) ;;
  derivedKey <- DeriveKeyFromPassword password saltHex ;;
  block <- wrapping "failed to create cipher" (aes.NewCipher derivedKey) ;;
  aesGCM <- wrapping "failed to create GCM" (cipher.NewGCM block) ;;
  let nonceSize := cipher.NonceSize aesGCM in
  if decide (length ciphertext < nonceSize) then Err (Errorf "ciphertext too short")
  else
    let nonce := take nonceSize ciphertext in
    let ciphertextBody := drop nonceSize ciphertext in
    privateKey <- wrapping "failed to decrypt private key (wrong password?)"
                    (cipher.Open aesGCM [] nonce ciphertextBody []) ;;
    Ok privateKey.

(** (privateKey, publicKey) *)
Definition GenerateKeypair : M io.Reader (list byte * list byte) :=
  keys <~ wrappingM "failed to generate keypair" box.GenerateKey ;;
  ret (snd keys, fst keys).

Definition GenerateWorkspaceKey : M io.Reader (list byte) :=
  key <~ wrappingM "failed to generate workspace key" (io.ReadFull KeySize) ;;
  ret key.

(** (ciphertext, nonce), each in base64 *)
Definition EncryptSecret (plaintext : string) (workspaceKey : list byte)
  : M io.Reader (string * string) :=
  block <~ lift (wrapping "failed to create cipher" (aes.NewCipher workspaceKey)) ;;
  aesGCM <~ lift (wrapping "failed to create GCM" (cipher.NewGCM block)) ;;
  nonce <~ wrappingM "failed to generate nonce" (io.ReadFull (cipher.NonceSize aesGCM)) ;;
  ciphertext <~ lift (cipher.Seal aesGCM [] nonce (bytes_of_string plaintext) []) ;;
  ret (base64.EncodeToString ciphertext, base64.EncodeToString nonce).

Definition DecryptSecret (ciphertextB64 nonceB64 : string) (workspaceKey : list byte)
  : result string :=
  ciphertext <- wrapping "failed to decode ciphertext" (base64.DecodeString ciphertextB64) ;;
  nonce <- wrapping "failed to decode nonce" (base64.DecodeString nonceB64) ;;
  block <- wrapping "failed to create cipher" (aes.NewCipher workspaceKey) ;;
  aesGCM <- wrapping "failed to create GCM" (cipher.NewGCM block) ;;
  plaintext <- wrapping "failed to decrypt" (cipher.Open aesGCM [] nonce ciphertext []) ;;
  Ok (string_of_bytes plaintext).

Definition EncryptForUser (recipientPublicKey data : list byte)
  : M io.Reader (list byte) :=
  if decide (length recipientPublicKey <> KeySize) then
    lift (Err (Errorf ("invalid public key size: got "
                       +:+ itoa (N.of_nat (length recipientPublicKey))
                       +:+ ", want " +:+ itoa (N.of_nat KeySize))))
  else
    let pubKey := recipientPublicKey in
    encrypted <~ wrappingM "failed to encrypt for user" (box.SealAnonymous [] data pubKey) ;;
    ret encrypted.

Definition DecryptFromUser (privateKey publicKey encrypted : list byte)
  : result (list byte) :=
  if decide (length privateKey <> KeySize \/ length publicKey <> KeySize) then
    Err (Errorf "invalid key size")
  else
    let privKey := privateKey in
    let pubKey := publicKey in
    match box.OpenAnonymous [] encrypted pubKey privKey with
    | None => Err (Errorf "failed to decrypt: authentication failed")
    | Some decrypted => Ok decrypted
    end.

Definition SetupUser (password : string) : M io.Reader UserKeys :=
  keys <~ wrappingM "setup_user" GenerateKeypair ;;
  let '(privateKey, publicKey) := keys in
  enc <~ wrappingM "setup_user" (EncryptPrivateKey privateKey password) ;;
  let '(encryptedPrivateKey, salt) := enc in
  ret {| PrivateKey := privateKey;
         PublicKey := publicKey;
         EncryptedPrivateKey := encryptedPrivateKey;
         Salt := salt |}.

End with_libraries.
End crypto.

(* ================================================================== *)
(** * Part V. Packages config, keyring and api *)
(* ================================================================== *)

(** [_ = f()]: the error of a call is dropped. *)
Definition discard {S A : Type} (m : M S A) : M S unit :=
  fun s =>
    match m s with
    | (Panic msg, s') => (Panic msg, s')
    | (_, s') => (Ok tt, s')
    end.

(** path/filepath, on a system whose separator is the slash. *)
Module filepath.

(** strings.Split(s, "/") on bytes. *)
Fixpoint Split (s : list byte) : list (list byte) :=
  match s with
  | [] => [[]]
  | c :: rest =>
      if Ascii.eqb c "/"%char then [] :: Split rest
      else match Split rest with
           | element :: elements => (c :: element) :: elements
           | [] => [[c]]
           end
  end.

(** strings.Join(elements, "/") on bytes. *)
Fixpoint Join_slash (elements : list (list byte)) : list byte :=
  match elements with
  | [] => []
  | [element] => element
  | element :: rest => element ++ "/"%char :: Join_slash rest
  end.

(** One element of a path met by Clean, the elements kept so far last
    first: an empty element and [.] are dropped, [..] takes back the
    element before it, is dropped at the root, and is kept at the start of
    a path that is not rooted. *)
Definition Clean_step (rooted : bool) (kept : list (list byte)) (element : list byte)
  : list (list byte) :=
  if decide (element = [] \/ element = ["."%char]) then kept
  else if decide (element = ["."%char; "."%char]) then
    match kept with
    | top :: below =>
        if decide (top = ["."%char; "."%char]) then element :: kept else below
    | [] => if rooted then [] else [element]
    end
  else element :: kept.

(** filepath.Clean: the shortest path equivalent to [path] by lexical
    processing; the empty path becomes [.]. *)
Definition Clean (path : string) : string :=
  let p := bytes_of_string path in
  let rooted := match p with c :: _ => Ascii.eqb c "/"%char | [] => false end in
  let kept := rev (foldl (Clean_step rooted) [] (Split p)) in
  let out := (if rooted then ["/"%char] else []) ++ Join_slash kept in
  match out with
  | [] => "."
  | _ => string_of_bytes out
  end.

(** filepath.Join: the elements from the first that is not empty, joined
    by slashes and cleaned; the empty string when all are empty. *)
Fixpoint Join (elem : list string) : string :=
  match elem with
  | [] => ""
  | e :: rest =>
      if decide (e = "") then Join rest
      else Clean (string_of_bytes (Join_slash (map bytes_of_string elem)))
  end.

End filepath.

Module config.
Local Open Scope go_scope.

Record WorkspaceCacheEntry : Type := {
  Name : string;
  Key : string;
  Role : string;
  Type_ : string
}.

Record GlobalConfig : Type := {
  Email : string;
  SelectedWorkspaceID : string;
  Workspaces : gmap string WorkspaceCacheEntry
}.

Record TokenConfig : Type := {
  AccessToken : string;
  RefreshToken : string;
  ExpiresAt : string
}.

(** The zero values [GlobalConfig{}] and [TokenConfig{}]. *)
Definition GlobalConfig_zero : GlobalConfig :=
  {| Email := ""; SelectedWorkspaceID := ""; Workspaces := ∅ |}.
Definition TokenConfig_zero : TokenConfig :=
  {| AccessToken := ""; RefreshToken := ""; ExpiresAt := "" |}.

Record Paths : Type := {
  GlobalDir : string;
  ConfigFile : string;
  TokenFile : string
}.

(** A JSON file, by what reading it gives: no such file, a read error, no
    bytes, bytes json.Unmarshal refuses, or the document of a value.  The
    JSON text is not modelled: a file written from a value holds that value,
    as encoding/json has it for strings of valid UTF-8 ([utf8.ValidString]).
    A byte that is not valid UTF-8 is written as U+FFFD, which the model
    does not follow: what is read from a file or decoded from a response is
    valid, and the properties that read back a string of the caller assume
    it valid. *)
Inductive file (A : Type) : Type :=
| NotExist
| Unreadable (e : error)
| Empty
| Malformed (e : error)
| Holds (a : A).
Arguments NotExist {A}.
Arguments Unreadable {A} e.
Arguments Empty {A}.
Arguments Malformed {A} e.
Arguments Holds {A} a.

(** The files of [~/.agentsecrets]: what HomeDirHook answers, the two files,
    and for each path the error os.WriteFile fails with there, if it does. *)
Record Disk : Type := {
  HomeDirHook : string + error;
  config_json : file GlobalConfig;
  token_json : file TokenConfig;
  WriteFile_error : string -> option error
}.

(** filepath.Join of a directory and a name. *)
Definition Join (dir name : string) : string := filepath.Join [dir; name].

Definition GetPaths : M Disk Paths :=
  home <~ wrappingM "could not determine home directory"
            (fun d => (answer (HomeDirHook d), d)) ;;
  let globalDir := Join home ".agentsecrets" in
  ret {| GlobalDir := globalDir;
         ConfigFile := Join globalDir "config.json";
         TokenFile := Join globalDir "token.json" |}.

(** writeJSON: the file as it is after the write.  Marshalling a
    configuration value does not fail. *)
Definition writeJSON {A : Type} (path : string) (data : A) (d : Disk) : result (file A) :=
  match WriteFile_error d path with
  | Some e => Err (Errorf_w ("failed to write " +:+ path) e)
  | None => Ok (Holds data)
  end.

(** readJSON into [target], a zero value: a missing or empty file leaves it
    as it is. *)
Definition readJSON {A : Type} (path : string) (f : file A) (target : A) : result A :=
  match f with
  | NotExist => Ok target
  | Unreadable e => Err (Errorf_w ("failed to read " +:+ path) e)
  | Empty => Ok target
  | Malformed e => Err (Errorf_w ("failed to parse " +:+ path) e)
  | Holds a => Ok a
  end.

Definition LoadGlobalConfig : M Disk GlobalConfig :=
  paths <~ GetPaths ;;
  fun d => (readJSON (ConfigFile paths) (config_json d) GlobalConfig_zero, d).

Definition SaveGlobalConfig (config : GlobalConfig) : M Disk unit :=
  paths <~ GetPaths ;;
  fun d =>
    match writeJSON (ConfigFile paths) config d with
    | Ok f => (Ok tt, {| HomeDirHook := HomeDirHook d; config_json := f;
                         token_json := token_json d;
                         WriteFile_error := WriteFile_error d |})
    | Err e => (Err e, d)
    | Panic msg => (Panic msg, d)
    end.

Definition LoadTokens : M Disk TokenConfig :=
  paths <~ GetPaths ;;
  fun d => (readJSON (TokenFile paths) (token_json d) TokenConfig_zero, d).

Definition SaveTokens (tokens : TokenConfig) : M Disk unit :=
  paths <~ GetPaths ;;
  fun d =>
    match writeJSON (TokenFile paths) tokens d with
    | Ok f => (Ok tt, {| HomeDirHook := HomeDirHook d; config_json := config_json d;
                         token_json := f;
                         WriteFile_error := WriteFile_error d |})
    | Err e => (Err e, d)
    | Panic msg => (Panic msg, d)
    end.

(** [config, err := LoadGlobalConfig(); if err != nil { config = &GlobalConfig{} }] *)
Definition LoadGlobalConfig_or_zero (d : Disk) : GlobalConfig :=
  match LoadGlobalConfig d with
  | (Ok config, _) => config
  | _ => GlobalConfig_zero
  end.

Definition GetEmail (d : Disk) : string :=
  match LoadGlobalConfig d with
  | (Ok config, _) => Email config
  | _ => ""
  end.

Definition SetEmail (email : string) : M Disk unit :=
  fun d =>
    let config := LoadGlobalConfig_or_zero d in
    SaveGlobalConfig {| Email := email;
                        SelectedWorkspaceID := SelectedWorkspaceID config;
                        Workspaces := Workspaces config |} d.

Definition GetAccessToken (d : Disk) : string :=
  match LoadTokens d with
  | (Ok tokens, _) => AccessToken tokens
  | _ => ""
  end.

Definition StoreTokens (accessToken refreshToken expiresAt : string) : M Disk unit :=
  SaveTokens {| AccessToken := accessToken;
                RefreshToken := refreshToken;
                ExpiresAt := expiresAt |}.

Definition GetSelectedWorkspaceID (d : Disk) : string :=
  match LoadGlobalConfig d with
  | (Ok config, _) => SelectedWorkspaceID config
  | _ => ""
  end.

Definition SetSelectedWorkspaceID (id : string) : M Disk unit :=
  fun d =>
    let config := LoadGlobalConfig_or_zero d in
    SaveGlobalConfig {| Email := Email config;
                        SelectedWorkspaceID := id;
                        Workspaces := Workspaces config |} d.

Definition StoreWorkspaceCache (workspaces : gmap string WorkspaceCacheEntry)
  : M Disk unit :=
  fun d =>
    let config := LoadGlobalConfig_or_zero d in
    SaveGlobalConfig {| Email := Email config;
                        SelectedWorkspaceID := SelectedWorkspaceID config;
                        Workspaces := workspaces |} d.

Definition GetWorkspaceKey (workspaceID : string) : M Disk (list byte) :=
  config <~ LoadGlobalConfig ;;
  match Workspaces config !! workspaceID with
  | Some ws =>
      if decide (Key ws = "") then
        lift (Err (Errorf ("workspace key not found for " +:+ workspaceID)))
      else lift (base64.DecodeString (Key ws))
  | None => lift (Err (Errorf ("workspace key not found for " +:+ workspaceID)))
  end.

Definition IsAuthenticated (d : Disk) : bool :=
  negb (String.eqb (GetAccessToken d) "") && negb (String.eqb (GetEmail d) "").

Definition ClearSession : M Disk unit :=
  paths <~ GetPaths ;;
  _ <~ (fun d =>
          match writeJSON (ConfigFile paths) GlobalConfig_zero d with
          | Ok f => (Ok tt, {| HomeDirHook := HomeDirHook d; config_json := f;
                               token_json := token_json d;
                               WriteFile_error := WriteFile_error d |})
          | Err e => (Err e, d)
          | Panic msg => (Panic msg, d)
          end) ;;
  _ <~ (fun d =>
          match writeJSON (TokenFile paths) TokenConfig_zero d with
          | Ok f => (Ok tt, {| HomeDirHook := HomeDirHook d; config_json := config_json d;
                               token_json := f;
                               WriteFile_error := WriteFile_error d |})
          | Err e => (Err e, d)
          | Panic msg => (Panic msg, d)
          end) ;;
  ret tt.

End config.

Module gokeyring.

(** The operating system's keychain behind github.com/zalando/go-keyring:
    the secrets by service and user, and the error every call fails with
    when the keychain cannot be reached. *)
Record Keychain : Type := {
  secrets : gmap (string * string) string;
  unavailable : option error
}.

Definition Set_ (service user password : string) : M Keychain unit :=
  fun k =>
    match unavailable k with
    | Some e => (Err e, k)
    | None => (Ok tt, {| secrets := <[(service, user) := password]> (secrets k);
                         unavailable := None |})
    end.

Definition Get (service user : string) : M Keychain string :=
  fun k =>
    match unavailable k with
    | Some e => (Err e, k)
    | None =>
        match secrets k !! (service, user) with
        | Some password => (Ok password, k)
        | None => (Err ErrNotFound, k)
        end
    end.

Definition Delete (service user : string) : M Keychain unit :=
  fun k =>
    match unavailable k with
    | Some e => (Err e, k)
    | None =>
        match secrets k !! (service, user) with
        | Some _ => (Ok tt, {| secrets := delete (service, user) (secrets k);
                               unavailable := None |})
        | None => (Err ErrNotFound, k)
        end
    end.

End gokeyring.

Module keyring.
Local Open Scope go_scope.

Definition serviceName : string := "AgentSecrets".

Definition StoreKeypair (email : string) (privateKey publicKey : list byte)
  : M gokeyring.Keychain unit :=
  let privB64 := base64.EncodeToString privateKey in
  let pubB64 := base64.EncodeToString publicKey in
  _ <~ wrappingM "failed to store private key"
         (gokeyring.Set_ serviceName (email +:+ "_private_key") privB64) ;;
  _ <~ wrappingM "failed to store public key"
         (gokeyring.Set_ serviceName (email +:+ "_public_key") pubB64) ;;
  ret tt.

Definition GetPrivateKey (email : string) : M gokeyring.Keychain (list byte) :=
  encoded <~ wrappingM "private key not found in keychain"
               (gokeyring.Get serviceName (email +:+ "_private_key")) ;;
  lift (base64.DecodeString encoded).

Definition GetPublicKey (email : string) : M gokeyring.Keychain (list byte) :=
  encoded <~ wrappingM "public key not found in keychain"
               (gokeyring.Get serviceName (email +:+ "_public_key")) ;;
  lift (base64.DecodeString encoded).

Definition DeleteKeypair (email : string) : M gokeyring.Keychain unit :=
  _ <~ discard (gokeyring.Delete serviceName (email +:+ "_private_key")) ;;
  _ <~ discard (gokeyring.Delete serviceName (email +:+ "_public_key")) ;;
  ret tt.

End keyring.

Module http.

Definition StatusOK : N := 200.
Definition StatusCreated : N := 201.

(** The JSON values the program sends. *)
Inductive value : Type :=
| Str (s : string)
| Bool (b : bool).

Record Request : Type := {
  Method : string;
  URL : string;
  ContentType : string;
  Authorization : option string;
  Data : option (list (string * value))
}.

(** A response: its status, and its body as a [B]. *)
Record Response (B : Type) : Type := {
  StatusCode : N;
  Body : B
}.
Arguments StatusCode {B} _.
Arguments Body {B} _.

End http.

Module api.
Local Open Scope go_scope.

Definition DefaultBaseURL : string := "https://secrets-api-orpin.vercel.app/api".

Definition endpointMap : list (string * list (string * string)) :=
  [ ("auth", [ ("signup", "auth/register/"); ("login", "auth/login/");
               ("logout", "auth/logout/"); ("refresh", "auth/refresh/") ]);
    ("secrets", [ ("list", "secrets/{project_id}/"); ("create", "secrets/");
                  ("get", "secrets/{project_id}/{key}/");
                  ("update", "secrets/{project_id}/{key}/");
                  ("delete", "secrets/{project_id}/{key}/") ]);
    ("projects", [ ("list", "projects/"); ("create", "projects/");
                   ("get", "projects/{workspace_id}/{project_name}/");
                   ("update", "projects/{workspace_id}/{project_name}/");
                   ("delete", "projects/{workspace_id}/{project_name}/");
                   ("invite", "projects/{workspace_id}/{project_name}/invite/") ]);
    ("workspaces", [ ("list", "workspaces/"); ("create", "workspaces/");
                     ("get", "workspaces/{workspace_id}/");
                     ("update", "workspaces/{workspace_id}/");
                     ("delete", "workspaces/{workspace_id}/");
                     ("members", "workspaces/{workspace_id}/members/");
                     ("invite", "workspaces/{workspace_id}/members/");
                     ("remove_member", "workspaces/{workspace_id}/members/{email}/") ]);
    ("users", [ ("public_key", "users/{email}/public-key/") ]) ].

Definition publicEndpoints : list string := ["auth.signup"; "auth.login"; "auth.refresh"].

(** The network and the server behind [HTTPClient.Do], by their answer to
    each request; [getToken] reads the access token of the session. *)
Record Client (B : Type) : Type := {
  BaseURL : string;
  HTTPClient_Do : http.Request -> http.Response B + error;
  getToken : option (config.Disk -> string)
}.
Arguments BaseURL {B} _.
Arguments HTTPClient_Do {B} _ _.
Arguments getToken {B} _.

(** strings.SplitN(key, ".", 2): the parts before and after the first dot. *)
Fixpoint SplitN2 (key : string) : option (string * string) :=
  match key with
  | EmptyString => None
  | String c rest =>
      if Ascii.eqb c "."%char then Some (EmptyString, rest)
      else match SplitN2 rest with
           | Some (category, action) => Some (String c category, action)
           | None => None
           end
  end.

Fixpoint lookup_assoc {V : Type} (k : string) (l : list (string * V)) : option V :=
  match l with
  | [] => None
  | (k', v) :: rest => if String.eqb k k' then Some v else lookup_assoc k rest
  end.

(** [%q] of a string with nothing to escape. *)
Definition Quote (s : string) : string :=
  String (ascii_of_nat 34) s +:+ String (ascii_of_nat 34) EmptyString.

(** resolveEndpoint with no URL parameters to substitute. *)
Definition resolveEndpoint (key : string) : result string :=
  match SplitN2 key with
  | None => Err (Errorf ("invalid endpoint key " +:+ Quote key
                         +:+ ": must be 'category.action'"))
  | Some (category, action) =>
      match lookup_assoc category endpointMap with
      | None => Err (Errorf ("unknown endpoint category: " +:+ Quote category))
      | Some categoryMap =>
          match lookup_assoc action categoryMap with
          | None => Err (Errorf ("unknown endpoint action: " +:+ Quote action
                                 +:+ " in category " +:+ Quote category))
          | Some path => Ok path
          end
      end
  end.

Definition ToUpper (s : string) : string :=
  string_of_bytes
    (map (fun c => let n := N_of_ascii c in
                   if ((97 <=? n) && (n <=? 122))%N then ascii_of_N (n - 32) else c)
         (bytes_of_string s)).

(** Call with [urlParams] nil.  The request body of a Go map or nil always
    marshals, and http.NewRequest accepts the methods the program uses and
    the URL: the base URL of NewClient, or of a test server, followed by a
    path of the endpoint map. *)
Definition Call {B : Type} (c : Client B) (endpointKey method : string)
    (data : option (list (string * http.value))) : M config.Disk (http.Response B) :=
  path <~ lift (resolveEndpoint endpointKey) ;;
  let url := BaseURL c +:+ "/" +:+ path in
  fun d =>
    let authorization :=
      if bool_decide (endpointKey ∈ publicEndpoints) then None
      else match getToken c with
           | None => None
           | Some tokenFunc =>
               let token := tokenFunc d in
               if decide (token = "") then None else Some ("Bearer " +:+ token)
           end in
    (answer (HTTPClient_Do c {| http.Method := ToUpper method;
                                http.URL := url;
                                http.ContentType := "application/json";
                                http.Authorization := authorization;
                                http.Data := data |}), d).

(** The same Call, over the files and the trace of the transport: the
    requests handed to HTTPClient.Do so far, the latest last. *)
Definition Call_traced {B : Type} (c : Client B) (endpointKey method : string)
    (data : option (list (string * http.value)))
  : M (config.Disk * list http.Request) (http.Response B) :=
  path <~ lift (resolveEndpoint endpointKey) ;;
  let url := BaseURL c +:+ "/" +:+ path in
  fun '(d, sent) =>
    let authorization :=
      if bool_decide (endpointKey ∈ publicEndpoints) then None
      else match getToken c with
           | None => None
           | Some tokenFunc =>
               let token := tokenFunc d in
               if decide (token = "") then None else Some ("Bearer " +:+ token)
           end in
    let req := {| http.Method := ToUpper method;
                  http.URL := url;
                  http.ContentType := "application/json";
                  http.Authorization := authorization;
                  http.Data := data |} in
    (answer (HTTPClient_Do c req), (d, sent ++ [req])).

End api.

(* ================================================================== *)
(** * Part VI. Package auth *)
(* ================================================================== *)

Module auth.
Section with_libraries.
Context {L : CryptoLib}.
Local Open Scope go_scope.

Record loginUser : Type := {
  user_PublicKey : string;
  user_Email : string
}.

Record loginWorkspace : Type := {
  ID : string;
  Name : string;
  EncryptedWorkspaceKey : string;
  Role : string;
  Type_ : string
}.

Record loginData : Type := {
  Access : string;
  Refresh : string;
  data_ExpiresAt : string;
  EncryptedPrivateKey : string;
  KeySalt : string;
  User : loginUser;
  Workspaces : list loginWorkspace
}.

Record loginResponse : Type := {
  AccessToken : string;
  RefreshToken : string;
  ExpiresAt : string;
  Data : loginData
}.

(** The body of a response, by what the program reads from it: what
    json.Decode makes of it as a [loginResponse] (or its error), and the
    [message] field
    json.Unmarshal finds in it (empty when it finds none). *)
Record body : Type := {
  json_loginResponse : loginResponse + error;
  json_message : string
}.

Record Service : Type := {
  API : api.Client body
}.

Record SignupRequest : Type := {
  FirstName : string;
  LastName : string;
  req_Email : string;
  Password : string
}.

(** What the program runs in: the configuration files, the keychain and the
    entropy source. *)
Record World : Type := {
  disk : config.Disk;
  keychain : gokeyring.Keychain;
  rand : io.Reader
}.

Definition on_disk {A : Type} (m : M config.Disk A) : M World A :=
  fun w => let '(r, d) := m (disk w) in
           (r, {| disk := d; keychain := keychain w; rand := rand w |}).

Definition on_keychain {A : Type} (m : M gokeyring.Keychain A) : M World A :=
  fun w => let '(r, k) := m (keychain w) in
           (r, {| disk := disk w; keychain := k; rand := rand w |}).

Definition on_rand {A : Type} (m : M io.Reader A) : M World A :=
  fun w => let '(r, g) := m (rand w) in
           (r, {| disk := disk w; keychain := keychain w; rand := g |}).

(** The order in which a [range] over the workspace cache yields its entries:
    Go leaves it unspecified, and the runtime varies it from one loop to the
    next.  An order is any listing of the entries of the map. *)
Definition MapOrder : Type :=
  gmap string config.WorkspaceCacheEntry -> list (string * config.WorkspaceCacheEntry).

Definition valid_order (range : MapOrder) : Prop :=
  forall m, range m ≡ₚ map_to_list m.

Definition parseAPIError (resp : http.Response body) (context : string) : error :=
  let message := json_message (http.Body resp) in
  if decide (message <> "") then Errorf (context +:+ " failed: " +:+ message)
  else Errorf (context +:+ " failed: HTTP " +:+ itoa (http.StatusCode resp)).

Fixpoint coalesce (values : list string) : string :=
  match values with
  | [] => ""
  | v :: rest => if decide (v <> "") then v else coalesce rest
  end.

(** Step 2 of PerformLogin: the key pair handed in (the signup flow), or
    the one of the response, its private half decrypted with the password
    ([privateKey] is [None] for a nil slice). *)
Definition resolveKeypair (loginResp : loginResponse) (password : string)
    (privateKey : option (list byte)) (publicKey : list byte)
  : result (list byte * list byte) :=
  match privateKey with
  | None =>
      let encPrivKey := EncryptedPrivateKey (Data loginResp) in
      let salt := KeySalt (Data loginResp) in
      let pubKeyB64 := user_PublicKey (User (Data loginResp)) in
      if decide (encPrivKey = "" \/ salt = "" \/ pubKeyB64 = "") then
        Err (Errorf "login: encryption keys missing from server response")
      else
        privateKey <- wrapping "login" (crypto.DecryptPrivateKey encPrivKey password salt) ;;
        publicKey <- wrapping "login: invalid public key in response"
                       (base64.DecodeString pubKeyB64) ;;
        Ok (privateKey, publicKey)
  | Some privateKey => Ok (privateKey, publicKey)
  end.

(** Step 4 of PerformLogin: the cache of the workspaces whose key decodes and
    opens, built from the empty map in the order of the response. *)
Definition cacheWorkspaces (privateKey publicKey : list byte)
    (workspaces : list loginWorkspace) : gmap string config.WorkspaceCacheEntry :=
  foldl (fun workspaceCache ws =>
           match base64.DecodeString (EncryptedWorkspaceKey ws) with
           | Ok encryptedWsKey =>
               match crypto.DecryptFromUser privateKey publicKey encryptedWsKey with
               | Ok wsKey =>
                   <[ID ws := {| config.Name := Name ws;
                                 config.Key := base64.EncodeToString wsKey;
                                 config.Role := Role ws;
                                 config.Type_ := Type_ ws |}]> workspaceCache
               | _ => workspaceCache
               end
           | _ => workspaceCache
           end) ∅ workspaces.

(** Step 5 of PerformLogin, the two loops over the cache: [range1] and
    [range2] are the orders the runtime gives them. *)
Definition selectDefaultWorkspace (range1 range2 : MapOrder)
    (workspaceCache : gmap string config.WorkspaceCacheEntry) : M config.Disk unit :=
  fun d =>
    if decide (config.GetSelectedWorkspaceID d = "") then
      (_ <~ match List.find (fun e => String.eqb (config.Type_ (snd e)) "personal")
                            (range1 workspaceCache) with
            | Some (id, _) => discard (config.SetSelectedWorkspaceID id)
            | None => ret tt
            end ;;
       fun d' =>
         if decide (config.GetSelectedWorkspaceID d' = "") then
           match range2 workspaceCache with
           | (id, _) :: _ => discard (config.SetSelectedWorkspaceID id) d'
           | [] => (Ok tt, d')
           end
         else (Ok tt, d')) d
    else (Ok tt, d).

(** PerformLogin.  [privateKey] is [None] for a nil slice (the login flow);
    a nil [publicKey] is the empty slice.  [range1] and [range2] are the
    orders of the two loops over the cache. *)
Definition PerformLogin (range1 range2 : MapOrder) (s : Service)
    (email password : string) (privateKey : option (list byte)) (publicKey : list byte)
  : M World unit :=
  (* 1. Authenticate with API *)
  resp <~ wrappingM "login: API call failed"
            (on_disk (api.Call (API s) "auth.login" "POST"
                        (Some [("email", http.Str email);
                               ("password", http.Str password)]))) ;;
  if decide (http.StatusCode resp <> http.StatusOK) then
    lift (Err (parseAPIError resp "login"))
  else
  loginResp <~ lift (wrapping "login: failed to parse response"
                       (answer (json_loginResponse (http.Body resp)))) ;;
  (* 2. If no keypair provided (login flow), decrypt from server response *)
  keys <~ lift (resolveKeypair loginResp password privateKey publicKey) ;;
  let '(privateKey, publicKey) := keys in
  (* 3. Store credentials *)
  _ <~ wrappingM "login: failed to save email" (on_disk (config.SetEmail email)) ;;
  let accessToken := coalesce [AccessToken loginResp; Access (Data loginResp)] in
  let refreshToken := coalesce [RefreshToken loginResp; Refresh (Data loginResp)] in
  let expiresAt := coalesce [ExpiresAt loginResp; data_ExpiresAt (Data loginResp)] in
  _ <~ wrappingM "login: failed to save tokens"
         (on_disk (config.StoreTokens accessToken refreshToken expiresAt)) ;;
  _ <~ wrappingM "login: failed to save keypair"
         (on_keychain (keyring.StoreKeypair email privateKey publicKey)) ;;
  (* 4. Decrypt and cache all workspace keys *)
  let workspaceCache := cacheWorkspaces privateKey publicKey (Workspaces (Data loginResp)) in
  if decide (0 < size workspaceCache) then
    _ <~ wrappingM "login: failed to cache workspace keys"
           (on_disk (config.StoreWorkspaceCache workspaceCache)) ;;
    (* 5. Set personal workspace as default (if no workspace already selected) *)
    on_disk (selectDefaultWorkspace range1 range2 workspaceCache)
  else ret tt.

Definition Logout (s : Service) : M World unit :=
  fun w =>
    let email := config.GetEmail (disk w) in
    (_ <~ discard (on_disk (api.Call (API s) "auth.logout" "POST" None)) ;;
     _ <~ (if decide (email <> "") then
             discard (on_keychain (keyring.DeleteKeypair email))
           else ret tt) ;;
     on_disk config.ClearSession) w.

(** The same Logout, over the world and the trace of the transport. *)
Definition on_world {A : Type} (m : M World A) : M (World * list http.Request) A :=
  fun '(w, sent) => let '(r, w') := m w in (r, (w', sent)).

Definition on_transport {A : Type} (m : M (config.Disk * list http.Request) A)
  : M (World * list http.Request) A :=
  fun '(w, sent) =>
    let '(r, (d, sent')) := m (disk w, sent) in
    (r, ({| disk := d; keychain := keychain w; rand := rand w |}, sent')).

Definition Logout_traced (s : Service) : M (World * list http.Request) unit :=
  fun '(w, sent) =>
    let email := config.GetEmail (disk w) in
    (_ <~ discard (on_transport (api.Call_traced (API s) "auth.logout" "POST" None)) ;;
     _ <~ (if decide (email <> "") then
             discard (on_world (on_keychain (keyring.DeleteKeypair email)))
           else ret tt) ;;
     on_world (on_disk config.ClearSession)) (w, sent).

Definition Signup (range1 range2 : MapOrder) (s : Service) (req : SignupRequest)
  : M World unit :=
  keys <~ wrappingM "signup" (on_rand (crypto.SetupUser (Password req))) ;;
  let data :=
    [ ("first_name", http.Str (FirstName req));
      ("last_name", http.Str (LastName req));
      ("email", http.Str (req_Email req));
      ("password", http.Str (Password req));
      ("public_key", http.Str (base64.EncodeToString (crypto.PublicKey keys)));
      ("encrypted_private_key", http.Str (crypto.EncryptedPrivateKey keys));
      ("key_salt", http.Str (crypto.Salt keys));
      ("terms_agreement", http.Bool true) ] in
  resp <~ wrappingM "signup: API call failed"
            (on_disk (api.Call (API s) "auth.signup" "POST" (Some data))) ;;
  if decide (http.StatusCode resp <> http.StatusCreated) then
    lift (Err (parseAPIError resp "signup"))
  else
    PerformLogin range1 range2 s (req_Email req) (Password req)
      (Some (crypto.PrivateKey keys)) (crypto.PublicKey keys).

End with_libraries.
End auth.
(* ================================================================== *)
(** * Part VII. The vocabulary of the statements *)
(* ================================================================== *)

(** ** Keys and encodings *)

(** A hexadecimal digit, of either case. *)
Definition is_hex_digit (c : byte) : bool :=
  let n := N_of_ascii c in
  ((48 <=? n) && (n <=? 57) || (97 <=? n) && (n <=? 102)
   || (65 <=? n) && (n <=? 70))%N.

(** A hexadecimal string: digits, two for each byte. *)
Definition is_hex_string (s : string) : bool :=
  forallb is_hex_digit (bytes_of_string s) && Nat.even (String.length s).

Section Keys.
Context {L : CryptoLib}.

(** The key DeriveKeyFromPassword derives from a password and a salt. *)
Definition derivedKey (password : string) (salt : list byte) : list byte :=
  argon2.IDKey (bytes_of_string password) salt
    crypto.argonTime crypto.argonMemory crypto.argonThreads crypto.argonKeyLen.

End Keys.

(** ** The session files *)

Section Files.
Import config.

(** A disk on which the home directory is known and writes succeed. *)
Definition writable (d : Disk) : Prop :=
  (exists home, HomeDirHook d = inl home)
  /\ forall path, WriteFile_error d path = None.

(** The configuration a later call will load. *)
Definition stored_config (d : Disk) : GlobalConfig := LoadGlobalConfig_or_zero d.

(** The tokens a later call will load. *)
Definition stored_tokens (d : Disk) : TokenConfig :=
  match LoadTokens d with
  | (Ok tokens, _) => tokens
  | _ => TokenConfig_zero
  end.

(** The disk after config.json, or token.json, was written from a value. *)
Definition write_config (d : Disk) (c : GlobalConfig) : Disk :=
  {| HomeDirHook := HomeDirHook d; config_json := Holds c;
     token_json := token_json d; WriteFile_error := WriteFile_error d |}.

Definition write_tokens (d : Disk) (t : TokenConfig) : Disk :=
  {| HomeDirHook := HomeDirHook d; config_json := config_json d;
     token_json := Holds t; WriteFile_error := WriteFile_error d |}.

(** The paths under a home directory. *)
Definition paths_of (home : string) : Paths :=
  {| GlobalDir := Join home ".agentsecrets";
     ConfigFile := Join (Join home ".agentsecrets") "config.json";
     TokenFile := Join (Join home ".agentsecrets") "token.json" |}.

End Files.


(** ** A login *)

Section Sessions.
Context {L : CryptoLib}.
Import auth.

(** The request of [Call] to an endpoint of path [path]. *)
Definition request (s : Service) (path : string) (authorization : option string)
    (data : option (list (string * http.value))) : http.Request :=
  {| http.Method := "POST";
     http.URL := api.BaseURL (API s) +:+ "/" +:+ path;
     http.ContentType := "application/json";
     http.Authorization := authorization;
     http.Data := data |}.

(** The request of PerformLogin. *)
Definition loginRequest (s : Service) (email password : string) : http.Request :=
  request s "auth/login/" None
    (Some [("email", http.Str email); ("password", http.Str password)]).

(** The request of Logout: the access token of the session, when there is
    one, goes as a bearer token. *)
Definition logoutRequest (s : Service) (d : config.Disk) : http.Request :=
  request s "auth/logout/"
    match api.getToken (API s) with
    | None => None
    | Some tokenFunc =>
        if decide (tokenFunc d = "") then None else Some ("Bearer " +:+ tokenFunc d)
    end
    None.

(** The transport answers the login request with status 200 and a body that
    parses. *)
Definition login_answered (s : Service) (email password : string)
    (loginResp : loginResponse) : Prop :=
  exists resp,
    api.HTTPClient_Do (API s) (loginRequest s email password) = inl resp
    /\ http.StatusCode resp = http.StatusOK
    /\ json_loginResponse (http.Body resp) = inl loginResp.

(** The entry PerformLogin caches for a workspace, if its key decodes and
    opens. *)
Definition cacheEntry (sk pk : list byte) (ws : loginWorkspace)
  : option (string * config.WorkspaceCacheEntry) :=
  match base64.DecodeString (EncryptedWorkspaceKey ws) with
  | Ok encryptedWsKey =>
      match crypto.DecryptFromUser sk pk encryptedWsKey with
      | Ok wsKey =>
          Some (ID ws, {| config.Name := Name ws;
                          config.Key := base64.EncodeToString wsKey;
                          config.Role := Role ws;
                          config.Type_ := Type_ ws |})
      | _ => None
      end
  | _ => None
  end.

(** A workspace of the response is valid when its sealed blob decodes and
    opens under the key pair. *)
Definition valid_workspace (sk pk : list byte) (ws : loginWorkspace) : bool :=
  match cacheEntry sk pk ws with Some _ => true | None => false end.

(** One turn of the loop of step 4. *)
Definition cacheStep (sk pk : list byte)
    (workspaceCache : gmap string config.WorkspaceCacheEntry) (ws : loginWorkspace)
  : gmap string config.WorkspaceCacheEntry :=
  match cacheEntry sk pk ws with
  | Some (id, entry) => <[id := entry]> workspaceCache
  | None => workspaceCache
  end.

(** The first entry of a range. *)
Definition first_id (entries : list (string * config.WorkspaceCacheEntry)) : string :=
  match entries with
  | (id, _) :: _ => id
  | [] => ""
  end.

(** The first entry of a range whose type is "personal". *)
Definition first_personal (entries : list (string * config.WorkspaceCacheEntry))
  : string :=
  match List.find (fun e => String.eqb (config.Type_ (snd e)) "personal") entries with
  | Some (id, _) => id
  | None => ""
  end.

(** The selected workspace after step 5, from the one selected before. *)
Definition selected (range1 range2 : MapOrder)
    (workspaceCache : gmap string config.WorkspaceCacheEntry) (before : string) : string :=
  if decide (before = "") then
    if decide (first_personal (range1 workspaceCache) = "")
    then first_id (range2 workspaceCache)
    else first_personal (range1 workspaceCache)
  else before.

(** The configuration after a login. *)
Definition config_after (range1 range2 : MapOrder) (email : string)
    (workspaceCache : gmap string config.WorkspaceCacheEntry)
    (before : config.GlobalConfig) : config.GlobalConfig :=
  if decide (0 < size workspaceCache) then
    {| config.Email := email;
       config.SelectedWorkspaceID :=
         selected range1 range2 workspaceCache (config.SelectedWorkspaceID before);
       config.Workspaces := workspaceCache |}
  else
    {| config.Email := email;
       config.SelectedWorkspaceID := config.SelectedWorkspaceID before;
       config.Workspaces := config.Workspaces before |}.

(** The tokens, the keychain and the world after a login that completes. *)
Definition tokens_after (loginResp : loginResponse) : config.TokenConfig :=
  {| config.AccessToken := coalesce [AccessToken loginResp; Access (Data loginResp)];
     config.RefreshToken := coalesce [RefreshToken loginResp; Refresh (Data loginResp)];
     config.ExpiresAt := coalesce [ExpiresAt loginResp; data_ExpiresAt (Data loginResp)] |}.

Definition keychain_after (email : string) (sk pk : list byte)
    (k : gokeyring.Keychain) : gokeyring.Keychain :=
  {| gokeyring.secrets :=
       <[(keyring.serviceName, email +:+ "_public_key") := base64.EncodeToString pk]>
         (<[(keyring.serviceName, email +:+ "_private_key") := base64.EncodeToString sk]>
            (gokeyring.secrets k));
     gokeyring.unavailable := None |}.

Definition world_after (range1 range2 : MapOrder) (email : string)
    (loginResp : loginResponse) (sk pk : list byte) (w : World) : World :=
  {| disk :=
       write_tokens
         (write_config (disk w)
            (config_after range1 range2 email
               (cacheWorkspaces sk pk (Workspaces (Data loginResp)))
               (stored_config (disk w))))
         (tokens_after loginResp);
     keychain := keychain_after email sk pk (keychain w);
     rand := rand w |}.

End Sessions.


(* ================================================================== *)
(** * Part VIII. A reference implementation and the scenarios *)
(* ================================================================== *)

(** The contracts of [CryptoLib] can be met: the functions below meet them.
    They are no ciphers and stand for no library; they are what the examples
    of Part XI run on. *)
Module Reference.

Definition ref_argon2id (password salt : list byte) (time memory threads keyLen : N)
  : list byte :=
  resize (N.to_nat keyLen) zero (password ++ salt).

(** A 16-byte tag of the key, the nonce and the additional data. *)
Definition ref_tag (key nonce data : list byte) : list byte :=
  resize 16 zero (key ++ nonce ++ data).

Definition ref_gcm_seal (key nonce plaintext data : list byte) : list byte :=
  plaintext ++ ref_tag key nonce data.

Definition ref_gcm_open (key nonce ciphertext data : list byte) : option (list byte) :=
  let n := length ciphertext - 16 in
  if decide (16 <= length ciphertext /\ drop n ciphertext = ref_tag key nonce data)
  then Some (take n ciphertext) else None.

Definition ref_scalar_base_mult (sk : list byte) : list byte := resize 32 zero sk.

Definition ref_sealed_box (message pk esk : list byte) : list byte :=
  resize 32 zero esk ++ message ++ resize 16 zero pk.

Definition ref_sealed_open (box pk sk : list byte) : option (list byte) :=
  let n := length box - 16 in
  if decide (48 <= length box /\ pk = ref_scalar_base_mult sk
             /\ drop n box = resize 16 zero pk)
  then Some (drop 32 (take n box)) else None.

(** The reference implementation, with the proofs of its contracts. *)
Definition lib : CryptoLib.
Proof.
  refine {| argon2id := ref_argon2id;
            gcm_seal := ref_gcm_seal; gcm_open := ref_gcm_open;
            scalar_base_mult := ref_scalar_base_mult;
            sealed_box := ref_sealed_box; sealed_open := ref_sealed_open |}.
  - intros password salt time memory threads keyLen _ _. apply length_resize.
  - intros key nonce plaintext data _ _ _.
    unfold ref_gcm_open, ref_gcm_seal.
    set (t := ref_tag key nonce data).
    assert (length t = 16) as Ht by apply length_resize.
    assert (length (plaintext ++ t) - 16 = length plaintext) as ->
      by (rewrite length_app; lia).
    rewrite drop_app_length, take_app_length.
    rewrite decide_True; [reflexivity | split; [rewrite length_app; lia | reflexivity]].
  - intros sk. apply length_resize.
  - intros message sk esk _ _.
    unfold ref_sealed_open, ref_sealed_box.
    set (pk := ref_scalar_base_mult sk).
    set (e := resize 32 zero esk). set (t := resize 16 zero pk).
    assert (length e = 32) as He by apply length_resize.
    assert (length t = 16) as Hp by apply length_resize.
    assert (length (e ++ message ++ t) - 16 = length (e ++ message)) as ->
      by (rewrite !length_app; lia).
    rewrite (app_assoc e message t).
    rewrite drop_app_length, take_app_length.
    rewrite decide_True.
    + rewrite <- He. now rewrite drop_app_length.
    + rewrite !length_app. repeat split; lia.
Defined.

End Reference.

(** ** Examples on the reference implementation *)

Module Examples.

Definition zeroKey : list byte := replicate 32 zero.

(** 44 bytes of entropy, and more. *)
Definition entropy : io.Reader :=
  bytes_of_string "0123456789abcdefghijklmnopqrstuvwxyzABCDEFGHIJKLMNOPQRSTUVWXYZ".

Definition encryptedZeroKey : result (string * string) * io.Reader :=
  Eval vm_compute in
    crypto.EncryptPrivateKey (L := Reference.lib) zeroKey "correct-horse-battery" entropy.

Definition keypair : result (list byte * list byte) * io.Reader :=
  Eval vm_compute in crypto.GenerateKeypair (L := Reference.lib) entropy.

Definition sealedZeroKey : result (list byte) * io.Reader :=
  Eval vm_compute in
    crypto.EncryptForUser (L := Reference.lib)
      (Reference.ref_scalar_base_mult (take 32 entropy)) zeroKey (rev entropy).

Definition encryptedSecret : result (string * string) * io.Reader :=
  Eval vm_compute in
    crypto.EncryptSecret (L := Reference.lib) "postgres://user:pw@host/db" zeroKey entropy.

(** A secret of 5000 bytes, and what encrypting it and the empty one gives. *)
Definition longSecret : string := string_of_bytes (replicate 5000 "x"%char).

Definition encryptedEmptySecret : result (string * string) * io.Reader :=
  Eval vm_compute in crypto.EncryptSecret (L := Reference.lib) "" zeroKey entropy.

Definition encryptedLongSecret : result (string * string) * io.Reader :=
  crypto.EncryptSecret (L := Reference.lib) longSecret zeroKey entropy.

(** The pair a call returned, the empty strings if it returned none. *)
Definition encrypted (x : result (string * string) * io.Reader) : string * string :=
  match x with
  | (Ok cs, _) => cs
  | _ => ("", "")
  end.

End Examples.

(** ** Scenarios of a login *)

Module Scenario.
Import auth.

(** A login response with the given workspaces, as the server of the tests
    answers. *)
Definition response (workspaces : list loginWorkspace) : loginResponse :=
  {| AccessToken := ""; RefreshToken := ""; ExpiresAt := "";
     Data := {| Access := "access-123"; Refresh := "refresh-456";
                data_ExpiresAt := "2025-01-01T00:00:00Z";
                EncryptedPrivateKey := ""; KeySalt := "";
                User := {| user_PublicKey := ""; user_Email := "" |};
                Workspaces := workspaces |} |}.

(** The response of the login flow: it carries the private key encrypted
    under the password, the salt and the public key. *)
Definition keyed_response (encPrivKey salt pubKeyB64 : string)
    (workspaces : list loginWorkspace) : loginResponse :=
  {| AccessToken := ""; RefreshToken := ""; ExpiresAt := "";
     Data := {| Access := "access-123"; Refresh := "refresh-456";
                data_ExpiresAt := "2025-01-01T00:00:00Z";
                EncryptedPrivateKey := encPrivKey; KeySalt := salt;
                User := {| user_PublicKey := pubKeyB64;
                           user_Email := "dev@example.com" |};
                Workspaces := workspaces |} |}.

(** A transport that accepts every login with that response. *)
Definition server (loginResp : loginResponse) : Service :=
  {| API := {| api.BaseURL := api.DefaultBaseURL;
               api.HTTPClient_Do := fun _ =>
                 inl {| http.StatusCode := 200;
                        http.Body := {| json_loginResponse := inl loginResp;
                                        json_message := "" |} |};
               api.getToken := Some config.GetAccessToken |} |}.

(** The files as InitGlobalConfig leaves them. *)
Definition fresh_disk : config.Disk :=
  {| config.HomeDirHook := inl "/home/dev";
     config.config_json := config.Holds config.GlobalConfig_zero;
     config.token_json := config.Holds config.TokenConfig_zero;
     config.WriteFile_error := fun _ => None |}.

(** The files a session of another account left. *)
Definition old_entry : config.WorkspaceCacheEntry :=
  {| config.Name := "Old"; config.Key := "b2xkLWtleQ=="; config.Role := "owner";
     config.Type_ := "personal" |}.

Definition used_disk : config.Disk :=
  {| config.HomeDirHook := inl "/home/dev";
     config.config_json :=
       config.Holds {| config.Email := "old@example.com";
                       config.SelectedWorkspaceID := "ws-old";
                       config.Workspaces := {[ "ws-old" := old_entry ]} |};
     config.token_json :=
       config.Holds {| config.AccessToken := "old-access";
                       config.RefreshToken := "old-refresh";
                       config.ExpiresAt := "2024-01-01T00:00:00Z" |};
     config.WriteFile_error := fun _ => None |}.

(** Files that cannot be written. *)
Definition read_only_disk : config.Disk :=
  {| config.HomeDirHook := inl "/home/dev";
     config.config_json := config.config_json used_disk;
     config.token_json := config.token_json used_disk;
     config.WriteFile_error := fun _ => Some (SyscallError "permission denied") |}.

(** Files whose configuration no longer parses. *)
Definition damaged_disk : config.Disk :=
  {| config.HomeDirHook := inl "/home/dev";
     config.config_json := config.Malformed (SyscallError "unexpected end of JSON input");
     config.token_json := config.token_json used_disk;
     config.WriteFile_error := fun _ => None |}.

Definition empty_keychain : gokeyring.Keychain :=
  {| gokeyring.secrets := ∅; gokeyring.unavailable := None |}.

(** A keychain with the key pair of old@example.com. *)
Definition used_keychain : gokeyring.Keychain :=
  {| gokeyring.secrets :=
       {[ ("AgentSecrets", "old@example.com_private_key") := "c2s=";
          ("AgentSecrets", "old@example.com_public_key") := "cGs=" ]};
     gokeyring.unavailable := None |}.

Definition world (d : config.Disk) (k : gokeyring.Keychain) : World :=
  {| disk := d; keychain := k; rand := [] |}.

(** A workspace whose sealed blob is not base64. *)
Definition corrupted : loginWorkspace :=
  {| ID := "ws-1"; Name := "Team"; EncryptedWorkspaceKey := "!";
     Role := "member"; Type_ := "shared" |}.

(** A workspace of the given identifier and type whose blob seals the key of
    32 zero bytes for the public key of the private key of 32 zero bytes. *)
Definition sealed {L : CryptoLib} (id type : string) : loginWorkspace :=
  {| ID := id; Name := id;
     EncryptedWorkspaceKey :=
       base64.EncodeToString
         (sealed_box Examples.zeroKey (scalar_base_mult Examples.zeroKey)
            Examples.zeroKey);
     Role := "member"; Type_ := type |}.

(** What PerformLogin caches for it. *)
Definition sealed_entry (id type : string) : config.WorkspaceCacheEntry :=
  {| config.Name := id;
     config.Key := "AAAAAAAAAAAAAAAAAAAAAAAAAAAAAAAAAAAAAAAAAAA=";
     config.Role := "member"; config.Type_ := type |}.

End Scenario.


(* ================================================================== *)
(** * Part IX. The rest of the packages *)
(* ================================================================== *)

(** The functions of the packages that the specification does not speak
    of: InitGlobalConfig, the URL parameters of the API client, package
    workspaces and the keyring with its file fallback; then the vocabulary
    and the scenarios of their properties. *)

(** ** Package config: the first run *)

Module config_init.
Import config.
Local Open Scope go_scope.

(** [os.IsNotExist(err)] for the error of os.Stat on a file: the file that
    reading finds missing is the one Stat finds missing. *)
Definition Stat_IsNotExist {A : Type} (f : file A) : bool :=
  match f with
  | NotExist => true
  | _ => false
  end.

(** InitGlobalConfig.  [MkdirAll] is the error os.MkdirAll fails with on a
    directory, if it does. *)
Definition InitGlobalConfig (MkdirAll : string -> option error) : M Disk unit :=
  paths <~ GetPaths ;;
  (* Create directory *)
  _ <~ lift (match MkdirAll (GlobalDir paths) with
             | Some e => Err (Errorf_w "failed to create config directory" e)
             | None => Ok tt
             end) ;;
  (* Create config.json if it doesn't exist *)
  _ <~ (fun d =>
          if Stat_IsNotExist (config_json d) then
            match writeJSON (ConfigFile paths) GlobalConfig_zero d with
            | Ok f => (Ok tt, {| HomeDirHook := HomeDirHook d; config_json := f;
                                 token_json := token_json d;
                                 WriteFile_error := WriteFile_error d |})
            | Err e => (Err e, d)
            | Panic msg => (Panic msg, d)
            end
          else (Ok tt, d)) ;;
  (* Create token.json with restricted permissions if it doesn't exist *)
  _ <~ (fun d =>
          if Stat_IsNotExist (token_json d) then
            match writeJSON (TokenFile paths) TokenConfig_zero d with
            | Ok f => (Ok tt, {| HomeDirHook := HomeDirHook d;
                                 config_json := config_json d;
                                 token_json := f;
                                 WriteFile_error := WriteFile_error d |})
            | Err e => (Err e, d)
            | Panic msg => (Panic msg, d)
            end
          else (Ok tt, d)) ;;
  ret tt.

End config_init.

(** ** Package api: URL parameters *)

Module api_params.
Local Open Scope go_scope.

(** strings.HasPrefix on bytes. *)
Fixpoint HasPrefix (s prefix : list byte) : bool :=
  match prefix, s with
  | [], _ => true
  | p :: prefix', c :: s' => Ascii.eqb p c && HasPrefix s' prefix'
  | _ :: _, [] => false
  end.

(** strings.ReplaceAll(s, old, new) for a non-empty [old], as the program
    calls it: the occurrences of [old] are found from the left and do not
    overlap, and what was put in is not searched again.  [skip] counts the
    bytes of an occurrence still to pass over. *)
Fixpoint replace (old new s : list byte) (skip : nat) : list byte :=
  match s with
  | [] => []
  | c :: rest =>
      match skip with
      | S n => replace old new rest n
      | O =>
          if HasPrefix s old then new ++ replace old new rest (length old - 1)
          else c :: replace old new rest 0
      end
  end.

Definition ReplaceAll (s old new : string) : string :=
  string_of_bytes (replace (bytes_of_string old) (bytes_of_string new)
                     (bytes_of_string s) 0).

(** The order in which a [range] over the URL parameters yields them. *)
Definition ParamOrder : Type := gmap string string -> list (string * string).

Definition valid_params (range : ParamOrder) : Prop :=
  forall m, range m ≡ₚ map_to_list m.

(** resolveEndpoint: the path of the endpoint, each placeholder [{k}]
    replaced by the value of [k], one parameter after the other in the
    order of the loop.  A nil map is the empty one. *)
Definition resolveEndpoint (range : ParamOrder) (key : string)
    (params : gmap string string) : result string :=
  path <- api.resolveEndpoint key ;;
  Ok (foldl (fun path kv => ReplaceAll path ("{" +:+ fst kv +:+ "}") (snd kv))
            path (range params)).

(** Call with URL parameters.  [NewRequest] is http.NewRequest by the
    error it returns, if any, for a method and a URL: a value put into the
    path can make a URL that does not parse.  The request body of a Go map
    or nil always marshals. *)
Definition Call {B : Type} (range : ParamOrder)
    (NewRequest : string -> string -> option error) (c : api.Client B)
    (endpointKey method : string) (data : option (list (string * http.value)))
    (urlParams : gmap string string) : M config.Disk (http.Response B) :=
  path <~ lift (resolveEndpoint range endpointKey urlParams) ;;
  let url := api.BaseURL c +:+ "/" +:+ path in
  match NewRequest (api.ToUpper method) url with
  | Some err => lift (Err (Errorf_w "failed to create request" err))
  | None =>
  fun d =>
    let authorization :=
      if bool_decide (endpointKey ∈ api.publicEndpoints) then None
      else match api.getToken c with
           | None => None
           | Some tokenFunc =>
               let token := tokenFunc d in
               if decide (token = "") then None else Some ("Bearer " +:+ token)
           end in
    (answer (api.HTTPClient_Do c {| http.Method := api.ToUpper method;
                                    http.URL := url;
                                    http.ContentType := "application/json";
                                    http.Authorization := authorization;
                                    http.Data := data |}), d)
  end.

End api_params.

(** ** Package workspaces *)

Module workspaces.
Section with_libraries.
Context {L : CryptoLib}.
Import auth.
Local Open Scope go_scope.

(** The [data] of the response to a creation. *)
Record created : Type := {
  created_ID : string;
  created_Type : string;
  created_Role : string
}.

Record WorkspaceMember : Type := {
  member_Email : string;
  member_Role : string;
  member_Status : string
}.

(** The body of a response, by what the program reads from it: what
    json.Decode makes of it as the answer to a creation, as a public key,
    as a list of members (or its error), and the [message] field it finds
    in it (empty when it finds none). *)
Record body : Type := {
  json_created : created + error;
  json_publicKey : string + error;
  json_members : list WorkspaceMember + error;
  json_message : string
}.

Record Service : Type := {
  API : api.Client body
}.

Definition parseAPIError (resp : http.Response body) (context : string) : error :=
  let message := json_message (http.Body resp) in
  if decide (message <> "") then Errorf (context +:+ " failed: " +:+ message)
  else Errorf (context +:+ " failed: HTTP " +:+ itoa (http.StatusCode resp)).

Definition b64Enc (b : list byte) : string := base64.EncodeToString b.

Definition b64Dec (s context : string) : result (list byte) :=
  wrapping context (base64.DecodeString s).

(** Create. *)
Definition Create (s : Service) (name : string) : M World unit :=
  fun w =>
    let email := config.GetEmail (disk w) in
    if decide (email = "") then (Err (Errorf "not logged in"), w)
    else
      (wsKey <~ wrappingM "create workspace" (on_rand crypto.GenerateWorkspaceKey) ;;
       pubKey <~ wrappingM "create workspace: public key not found"
                   (on_keychain (keyring.GetPublicKey email)) ;;
       encryptedWsKey <~ wrappingM "create workspace: encryption failed"
                           (on_rand (crypto.EncryptForUser pubKey wsKey)) ;;
       resp <~ wrappingM "create workspace: API call failed"
                 (on_disk (api.Call (API s) "workspaces.create" "POST"
                             (Some [("name", http.Str name);
                                    ("encrypted_workspace_key",
                                     http.Str (b64Enc encryptedWsKey))]))) ;;
       if decide (http.StatusCode resp <> http.StatusCreated) then
         lift (Err (parseAPIError resp "create workspace"))
       else
       res <~ lift (wrapping "create workspace: failed to parse response"
                      (answer (json_created (http.Body resp)))) ;;
       (* Load config, defaulting to empty if it doesn't exist yet. *)
       cfg <~ wrappingM "create workspace: failed to load config"
                (on_disk config.LoadGlobalConfig) ;;
       on_disk (config.SaveGlobalConfig
                  {| config.Email := config.Email cfg;
                     config.SelectedWorkspaceID := created_ID res;
                     config.Workspaces :=
                       <[created_ID res :=
                           {| config.Name := name;
                              config.Key := b64Enc wsKey;
                              config.Role := created_Role res;
                              config.Type_ := created_Type res |}]>
                         (config.Workspaces cfg) |})) w.

Definition StatusNoContent : N := 204.

(** Invite. *)
Definition Invite (range : api_params.ParamOrder)
    (NewRequest : string -> string -> option error) (s : Service)
    (workspaceID email role : string) : M World unit :=
  (* Step 1: fetch the invitee's public key. *)
  pubKeyResp <~ wrappingM "invite: failed to get public key"
                  (on_disk (api_params.Call range NewRequest (API s)
                              "users.public_key" "GET" None
                              {[ "email" := email ]})) ;;
  if decide (http.StatusCode pubKeyResp <> http.StatusOK) then
    lift (Err (parseAPIError pubKeyResp "invite (get public key)"))
  else
  publicKey <~ lift (wrapping "invite: failed to parse public key"
                       (answer (json_publicKey (http.Body pubKeyResp)))) ;;
  recipientPubKey <~ lift (b64Dec publicKey "invite: invalid public key in response") ;;
  (* Step 2: encrypt the workspace key for the invitee. *)
  cfg <~ wrappingM "invite: failed to load config" (on_disk config.LoadGlobalConfig) ;;
  match config.Workspaces cfg !! workspaceID with
  | None =>
      lift (Err (Errorf ("invite: workspace " +:+ workspaceID +:+ " not found in cache")))
  | Some ws =>
      wsKey <~ lift (b64Dec (config.Key ws) "invite: invalid workspace key in cache") ;;
      encryptedForInvitee <~ wrappingM "invite: encryption failed"
                               (on_rand (crypto.EncryptForUser recipientPubKey wsKey)) ;;
      (* Step 3: send the invite. *)
      inviteResp <~ wrappingM "invite: API call failed"
                      (on_disk (api_params.Call range NewRequest (API s)
                                  "workspaces.invite" "POST"
                                  (Some [("email", http.Str email);
                                         ("role", http.Str role);
                                         ("encrypted_workspace_key",
                                          http.Str (b64Enc encryptedForInvitee))])
                                  {[ "workspace_id" := workspaceID ]})) ;;
      if decide (http.StatusCode inviteResp <> http.StatusCreated
                 /\ http.StatusCode inviteResp <> http.StatusOK) then
        lift (Err (parseAPIError inviteResp "invite"))
      else ret tt
  end.

(** Members. *)
Definition Members (range : api_params.ParamOrder)
    (NewRequest : string -> string -> option error) (s : Service) (workspaceID : string)
  : M World (list WorkspaceMember) :=
  resp <~ wrappingM "members: API call failed"
            (on_disk (api_params.Call range NewRequest (API s)
                        "workspaces.members" "GET" None
                        {[ "workspace_id" := workspaceID ]})) ;;
  if decide (http.StatusCode resp <> http.StatusOK) then
    lift (Err (parseAPIError resp "list members"))
  else
    lift (wrapping "members: failed to parse response"
            (answer (json_members (http.Body resp)))).

(** RemoveMember. *)
Definition RemoveMember (range : api_params.ParamOrder)
    (NewRequest : string -> string -> option error) (s : Service)
    (workspaceID email : string) : M World unit :=
  resp <~ wrappingM "remove member: API call failed"
            (on_disk (api_params.Call range NewRequest (API s)
                        "workspaces.remove_member" "DELETE" None
                        (<[ "workspace_id" := workspaceID ]> {[ "email" := email ]}))) ;;
  if decide (http.StatusCode resp <> http.StatusOK
             /\ http.StatusCode resp <> StatusNoContent) then
    lift (Err (parseAPIError resp "remove member"))
  else ret tt.

End with_libraries.
End workspaces.

(** ** Package keyring with the file fallback *)

Module keyring_file.
Local Open Scope go_scope.

Definition serviceName : string := "AgentSecrets".

Record keyEntry : Type := {
  Private : string;
  Public : string
}.

(** [~/.agentsecrets/keyring.json], by what loadKeyringFile makes of it: no
    such file, a read error, bytes json.Unmarshal refuses (no bytes at all
    among them), the document [null], which leaves the map nil, or the
    document of a map.  A file written from a map holds that map, as
    encoding/json has it for keys and strings of valid UTF-8
    ([utf8.ValidString]); a byte that is not is written as U+FFFD, which
    the model does not follow: the property that reads back an email of
    the caller assumes it valid. *)
Inductive KeyringFile : Type :=
| NotExist
| Unreadable (e : error)
| Unparsable
| Null
| Holds (entries : gmap string keyEntry).

(** What os.UserHomeDir answers, the file, and for each path the error
    os.WriteFile fails with there, if it does. *)
Record Home : Type := {
  UserHomeDir : string + error;
  keyring_json : KeyringFile;
  WriteFile_error : string -> option error
}.

(** The operating system's keychain, the files, and the package variable
    useFileBackend. *)
Record Store : Type := {
  useFileBackend : bool;
  keychain : gokeyring.Keychain;
  home : Home
}.

Definition on_keychain {A : Type} (m : M gokeyring.Keychain A) : M Store A :=
  fun s =>
    let '(r, k) := m (keychain s) in
    (r, {| useFileBackend := useFileBackend s; keychain := k; home := home s |}).

Definition on_home {A : Type} (m : M Home A) : M Store A :=
  fun s =>
    let '(r, h) := m (home s) in
    (r, {| useFileBackend := useFileBackend s; keychain := keychain s; home := h |}).

(** init: on Linux the keychain is tried with a test entry; the answer is
    the value of useFileBackend. *)
Definition init (GOOS : string) : M gokeyring.Keychain bool :=
  if decide (GOOS = "linux") then
    let testKey := "__agentsecrets_keyring_test__" in
    fun k =>
      match gokeyring.Set_ serviceName testKey "test" k with
      | (Ok _, k') =>
          (_ <~ discard (gokeyring.Delete serviceName testKey) ;; ret false) k'
      | (Err _, k') => (Ok true, k')
      | (Panic msg, k') => (Panic msg, k')
      end
  else ret false.

(** keyringFilePath; the result of os.MkdirAll is dropped. *)
Definition keyringFilePath : M Home string :=
  home <~ (fun h => (answer (UserHomeDir h), h)) ;;
  let dir := config.Join home ".agentsecrets" in
  ret (config.Join dir "keyring.json").

(** loadKeyringFile: a Go map, nil ([None]) or not. *)
Definition loadKeyringFile : M Home (option (gmap string keyEntry)) :=
  path <~ keyringFilePath ;;
  fun h =>
    match keyring_json h with
    | NotExist => (Ok (Some ∅), h)
    | Unreadable e => (Err e, h)
    | Unparsable => (Ok (Some ∅), h)
    | Null => (Ok None, h)
    | Holds entries => (Ok (Some entries), h)
    end.

(** saveKeyringFile; marshalling the map does not fail, and a nil map is
    written as [null]. *)
Definition saveKeyringFile (entries : option (gmap string keyEntry)) : M Home unit :=
  path <~ keyringFilePath ;;
  fun h =>
    match WriteFile_error h path with
    | Some e => (Err e, h)
    | None => (Ok tt, {| UserHomeDir := UserHomeDir h;
                         keyring_json := match entries with
                                         | None => Null
                                         | Some m => Holds m
                                         end;
                         WriteFile_error := WriteFile_error h |})
    end.

Definition fileSet (email privB64 pubB64 : string) : M Home unit :=
  entries <~ wrappingM "failed to load keyring file" loadKeyringFile ;;
  match entries with
  | None => lift (Panic "assignment to entry in nil map")
  | Some m =>
      _ <~ wrappingM "failed to save keyring file"
             (saveKeyringFile
                (Some (<[email := {| Private := privB64; Public := pubB64 |}]> m))) ;;
      ret tt
  end.

Definition fileGetKey (email keyType : string) : M Home (list byte) :=
  entries <~ loadKeyringFile ;;
  match entries ≫= (fun m => m !! email) with
  | None => lift (Err (Errorf ("no keys found for " +:+ email)))
  | Some entry =>
      let encoded := if decide (keyType = "private") then Private entry
                     else Public entry in
      if decide (encoded = "") then
        lift (Err (Errorf (keyType +:+ " key not found for " +:+ email)))
      else lift (base64.DecodeString encoded)
  end.

Definition fileDelete (email : string) : M Home unit :=
  fun h =>
    match loadKeyringFile h with
    | (Ok entries, h') => saveKeyringFile (delete email <$> entries) h'
    | (Err _, h') => (Ok tt, h')
    | (Panic msg, h') => (Panic msg, h')
    end.

Definition StoreKeypair (email : string) (privateKey publicKey : list byte)
  : M Store unit :=
  let privB64 := base64.EncodeToString privateKey in
  let pubB64 := base64.EncodeToString publicKey in
  fun s =>
    if useFileBackend s then on_home (fileSet email privB64 pubB64) s
    else
      (_ <~ wrappingM "failed to store private key"
              (on_keychain (gokeyring.Set_ serviceName (email +:+ "_private_key")
                              privB64)) ;;
       _ <~ wrappingM "failed to store public key"
              (on_keychain (gokeyring.Set_ serviceName (email +:+ "_public_key")
                              pubB64)) ;;
       ret tt) s.

Definition GetPrivateKey (email : string) : M Store (list byte) :=
  fun s =>
    if useFileBackend s then on_home (fileGetKey email "private") s
    else
      (encoded <~ wrappingM "private key not found in keychain"
                    (on_keychain (gokeyring.Get serviceName
                                    (email +:+ "_private_key"))) ;;
       lift (base64.DecodeString encoded)) s.

Definition GetPublicKey (email : string) : M Store (list byte) :=
  fun s =>
    if useFileBackend s then on_home (fileGetKey email "public") s
    else
      (encoded <~ wrappingM "public key not found in keychain"
                    (on_keychain (gokeyring.Get serviceName
                                    (email +:+ "_public_key"))) ;;
       lift (base64.DecodeString encoded)) s.

Definition DeleteKeypair (email : string) : M Store unit :=
  fun s =>
    if useFileBackend s then on_home (fileDelete email) s
    else
      (_ <~ discard (on_keychain (gokeyring.Delete serviceName
                                    (email +:+ "_private_key"))) ;;
       _ <~ discard (on_keychain (gokeyring.Delete serviceName
                                    (email +:+ "_public_key"))) ;;
       ret tt) s.

(** The program started: init has set useFileBackend. *)
Definition started (GOOS : string) (k : gokeyring.Keychain) (h : Home) : result Store :=
  let '(r, k') := init GOOS k in
  use <- r ;;
  Ok {| useFileBackend := use; keychain := k'; home := h |}.

End keyring_file.

(** ** Signup: what is sent *)

Section SignupVocabulary.
Context {L : CryptoLib}.
Import auth.

(** The request of Signup for the keys SetupUser returned. *)
Definition signupRequest (s : Service) (req : SignupRequest) (keys : crypto.UserKeys)
  : http.Request :=
  request s "auth/register/" None
    (Some [ ("first_name", http.Str (FirstName req));
            ("last_name", http.Str (LastName req));
            ("email", http.Str (req_Email req));
            ("password", http.Str (Password req));
            ("public_key", http.Str (base64.EncodeToString (crypto.PublicKey keys)));
            ("encrypted_private_key", http.Str (crypto.EncryptedPrivateKey keys));
            ("key_salt", http.Str (crypto.Salt keys));
            ("terms_agreement", http.Bool true) ]).

(** A string field of the body of a request, empty when there is none. *)
Definition field (name : string) (req : http.Request) : string :=
  match http.Data req with
  | Some data =>
      match api.lookup_assoc name data with
      | Some (http.Str v) => v
      | _ => ""
      end
  | None => ""
  end.

(** A login response that carries the key material of a signup request. *)
Definition carries (loginResp : loginResponse) (sent : http.Request) : Prop :=
  EncryptedPrivateKey (Data loginResp) = field "encrypted_private_key" sent
  /\ KeySalt (Data loginResp) = field "key_salt" sent
  /\ user_PublicKey (User (Data loginResp)) = field "public_key" sent.

End SignupVocabulary.

(** ** URL parameters *)

(** A string with no opening brace: it holds no placeholder. *)
Definition no_brace (s : string) : Prop :=
  Forall (fun c => c <> "{"%char) (bytes_of_string s).

(** ** Strings that encoding/json writes as they are *)



(** ** The requests of the workspaces package *)

Section WorkspaceVocabulary.
Context {L : CryptoLib}.

(** The Authorization header of a call to an endpoint that is not public:
    the access token of the session, when there is one. *)
Definition bearer {B : Type} (c : api.Client B) (d : config.Disk) : option string :=
  match api.getToken c with
  | None => None
  | Some tokenFunc =>
      if decide (tokenFunc d = "") then None else Some ("Bearer " +:+ tokenFunc d)
  end.

(** The request of Create for a workspace key sealed as [blob]. *)
Definition createRequest (s : workspaces.Service) (name : string) (blob : list byte)
    (d : config.Disk) : http.Request :=
  {| http.Method := "POST";
     http.URL := api.BaseURL (workspaces.API s) +:+ "/" +:+ "workspaces/";
     http.ContentType := "application/json";
     http.Authorization := bearer (workspaces.API s) d;
     http.Data := Some [("name", http.Str name);
                        ("encrypted_workspace_key",
                         http.Str (base64.EncodeToString blob))] |}.

(** The two requests of Invite. *)
Definition publicKeyRequest (s : workspaces.Service) (email : string) (d : config.Disk)
  : http.Request :=
  {| http.Method := "GET";
     http.URL := api.BaseURL (workspaces.API s) +:+ "/"
                 +:+ ("users/" +:+ email +:+ "/public-key/");
     http.ContentType := "application/json";
     http.Authorization := bearer (workspaces.API s) d;
     http.Data := None |}.

Definition inviteRequest (s : workspaces.Service) (workspaceID email role : string)
    (blob : list byte) (d : config.Disk) : http.Request :=
  {| http.Method := "POST";
     http.URL := api.BaseURL (workspaces.API s) +:+ "/"
                 +:+ ("workspaces/" +:+ workspaceID +:+ "/members/");
     http.ContentType := "application/json";
     http.Authorization := bearer (workspaces.API s) d;
     http.Data := Some [("email", http.Str email);
                        ("role", http.Str role);
                        ("encrypted_workspace_key",
                         http.Str (base64.EncodeToString blob))] |}.

(** The cache entry Create writes. *)
Definition createdEntry (name : string) (wsKey : list byte) (res : workspaces.created)
  : config.WorkspaceCacheEntry :=
  {| config.Name := name;
     config.Key := base64.EncodeToString wsKey;
     config.Role := workspaces.created_Role res;
     config.Type_ := workspaces.created_Type res |}.

End WorkspaceVocabulary.

(** ** The keyring file *)

(** The path of the keyring file under the home directory [dir]. *)
Definition keyring_path (dir : string) : string :=
  config.Join (config.Join dir ".agentsecrets") "keyring.json".

(** The entries loadKeyringFile finds in a file it does not fail on. *)
Definition entries_of (f : keyring_file.KeyringFile) : gmap string keyring_file.keyEntry :=
  match f with
  | keyring_file.Holds entries => entries
  | _ => ∅
  end.

(** The file can be loaded into a map that is not nil. *)
Definition loadable (f : keyring_file.KeyringFile) : Prop :=
  match f with
  | keyring_file.Unreadable _ | keyring_file.Null => False
  | _ => True
  end.

(** The store with the files of the file backend replaced. *)
Definition with_home (s : keyring_file.Store) (h : keyring_file.Home) : keyring_file.Store :=
  {| keyring_file.useFileBackend := keyring_file.useFileBackend s;
     keyring_file.keychain := keyring_file.keychain s;
     keyring_file.home := h |}.

(** The files with the keyring file replaced. *)
Definition with_file (h : keyring_file.Home) (f : keyring_file.KeyringFile)
  : keyring_file.Home :=
  {| keyring_file.UserHomeDir := keyring_file.UserHomeDir h;
     keyring_file.keyring_json := f;
     keyring_file.WriteFile_error := keyring_file.WriteFile_error h |}.

(** ** Further scenarios on the reference implementation *)

Module Fixtures.
Import auth.

(** 124 bytes of entropy. *)
Definition entropy : io.Reader := Examples.entropy ++ rev Examples.entropy.

(** A transport that refuses every login. *)
Definition refusing_server : Service :=
  {| API := {| api.BaseURL := api.DefaultBaseURL;
               api.HTTPClient_Do := fun _ =>
                 inl {| http.StatusCode := 401;
                        http.Body := {| json_loginResponse :=
                                          inr (SyscallError "unexpected end of JSON input");
                                        json_message := "Invalid credentials" |} |};
               api.getToken := Some config.GetAccessToken |} |}.

(** An account to sign up, and the keys SetupUser makes for it from the
    entropy above. *)
Definition account : SignupRequest :=
  {| FirstName := "Dev"; LastName := "Eloper"; req_Email := "dev@example.com";
     Password := "correct-horse-battery" |}.

Definition noKeys : crypto.UserKeys :=
  {| crypto.PrivateKey := []; crypto.PublicKey := [];
     crypto.EncryptedPrivateKey := ""; crypto.Salt := "" |}.

Definition accountKeys : crypto.UserKeys :=
  Eval vm_compute in
    match crypto.SetupUser (L := Reference.lib) (Password account) entropy with
    | (Ok keys, _) => keys
    | _ => noKeys
    end.

(** The login response of a server that stored what the signup sent. *)
Definition accountResponse : loginResponse :=
  Scenario.keyed_response (crypto.EncryptedPrivateKey accountKeys)
    (crypto.Salt accountKeys)
    (base64.EncodeToString (crypto.PublicKey accountKeys)) [].

(** A world with entropy. *)
Definition world (d : config.Disk) (k : gokeyring.Keychain) : World :=
  {| disk := d; keychain := k; rand := entropy |}.

(** The files of a session of dev@example.com. *)
Definition session_disk : config.Disk :=
  {| config.HomeDirHook := inl "/home/dev";
     config.config_json :=
       config.Holds {| config.Email := "dev@example.com";
                       config.SelectedWorkspaceID := "ws-a";
                       config.Workspaces :=
                         {[ "ws-a" := Scenario.sealed_entry "ws-a" "personal" ]} |};
     config.token_json :=
       config.Holds {| config.AccessToken := "access-123";
                       config.RefreshToken := "refresh-456";
                       config.ExpiresAt := "2025-01-01T00:00:00Z" |};
     config.WriteFile_error := fun _ => None |}.

(** The keychain of that session: the key pair of the private key of 32
    zero bytes. *)
Definition session_keychain : gokeyring.Keychain :=
  Eval vm_compute in
    snd (keyring.StoreKeypair "dev@example.com" Examples.zeroKey
           (Reference.ref_scalar_base_mult Examples.zeroKey) Scenario.empty_keychain).

(** A server of workspaces: it answers a GET with status 200 and a POST
    with status 201, with a body that holds a new workspace and the public
    key of the private key of 32 zero bytes. *)
Definition workspace_server : workspaces.Service :=
  {| workspaces.API :=
       {| api.BaseURL := api.DefaultBaseURL;
          api.HTTPClient_Do := fun req =>
            inl {| http.StatusCode :=
                     if decide (http.Method req = "GET") then 200%N else 201%N;
                   http.Body :=
                     {| workspaces.json_created :=
                          inl {| workspaces.created_ID := "ws-new";
                                 workspaces.created_Type := "shared";
                                 workspaces.created_Role := "owner" |};
                        workspaces.json_publicKey :=
                          inl (base64.EncodeToString
                                 (Reference.ref_scalar_base_mult Examples.zeroKey));
                        workspaces.json_members := inl [];
                        workspaces.json_message := "" |} |};
          api.getToken := Some config.GetAccessToken |} |}.

(** http.NewRequest on the URLs of the scenarios: it refuses the one whose
    path ends in the escape [%zz], and accepts the others. *)
Definition NewRequest (method url : string) : option error :=
  if decide (url = api.DefaultBaseURL +:+ "/users/bob%zz/public-key/") then
    Some (SyscallError ("parse " +:+ api.Quote url +:+ ": invalid URL escape "
                        +:+ api.Quote "%zz"))
  else None.


(** A keychain that cannot be reached. *)
Definition no_keychain : gokeyring.Keychain :=
  {| gokeyring.secrets := ∅;
     gokeyring.unavailable := Some (SyscallError "no D-Bus session") |}.

Definition file_store (f : keyring_file.KeyringFile) : keyring_file.Store :=
  {| keyring_file.useFileBackend := true;
     keyring_file.keychain := no_keychain;
     keyring_file.home :=
       {| keyring_file.UserHomeDir := inl "/home/dev";
          keyring_file.keyring_json := f;
          keyring_file.WriteFile_error := fun _ => None |} |}.

End Fixtures.


(* ================================================================== *)
(** * Part X. Lemmas on results and on the encodings *)
(* ================================================================== *)

Lemma string_of_bytes_of_string (s : string) :
  string_of_bytes (bytes_of_string s) = s.
Proof. apply string_of_list_ascii_of_string. Qed.

Lemma bytes_of_string_of_bytes (b : list byte) :
  bytes_of_string (string_of_bytes b) = b.
Proof. apply list_ascii_of_string_of_list_ascii. Qed.

Lemma length_bytes_of_string (s : string) :
  length (bytes_of_string s) = String.length s.
Proof. induction s as [|c s IH]; simpl; [reflexivity|]. now rewrite IH. Qed.

Lemma bind_Ok_inv {A B : Type} (r : result A) (k : A -> result B) (b : B) :
  bind r k = Ok b -> exists a, r = Ok a /\ k a = Ok b.
Proof. destruct r as [a| |]; simpl; intros E; try discriminate. eauto. Qed.

Lemma wrapping_Ok_inv {A : Type} (prefix : string) (r : result A) (a : A) :
  wrapping prefix r = Ok a -> r = Ok a.
Proof. destruct r; simpl; intros E; congruence. Qed.

Lemma wrapping_Ok {A : Type} (prefix : string) (a : A) :
  wrapping prefix (Ok a) = Ok a.
Proof. reflexivity. Qed.

Lemma bindM_Ok_inv {S A B : Type} (m : M S A) (k : A -> M S B) (s s' : S) (b : B) :
  bindM m k s = (Ok b, s') ->
  exists a s1, m s = (Ok a, s1) /\ k a s1 = (Ok b, s').
Proof.
  unfold bindM. destruct (m s) as [[a| |] s1]; intros E; try discriminate. eauto.
Qed.



Lemma wrappingM_Ok_inv {S A : Type} (prefix : string) (m : M S A) (s s' : S) (a : A) :
  wrappingM prefix m s = (Ok a, s') -> m s = (Ok a, s').
Proof.
  unfold wrappingM. destruct (m s) as [r s1]. intros E.
  injection E as E1 E2. apply wrapping_Ok_inv in E1. congruence.
Qed.

Lemma lift_Ok_inv {S A : Type} (r : result A) (s s' : S) (a : A) :
  lift r s = (Ok a, s') -> r = Ok a /\ s' = s.
Proof. unfold lift. intros E. injection E as E1 E2. auto. Qed.

(** An induction over a list three elements at a time. *)
Lemma list_ind3 {A : Type} (P : list A -> Prop) :
  P [] -> (forall a, P [a]) -> (forall a b, P [a; b]) ->
  (forall a b c l, P l -> P (a :: b :: c :: l)) ->
  forall l, P l.
Proof.
  intros H0 H1 H2 H3.
  fix IH 1. intros [|a [|b [|c l]]];
    [exact H0 | apply H1 | apply H2 | apply H3, IH].
Qed.

(** And two at a time. *)
Lemma list_ind2 {A : Type} (P : list A -> Prop) :
  P [] -> (forall a, P [a]) ->
  (forall a b l, P l -> P (a :: b :: l)) ->
  forall l, P l.
Proof.
  intros H0 H1 H2.
  fix IH 1. intros [|a [|b l]]; [exact H0 | apply H1 | apply H2, IH].
Qed.

(** ** encoding/hex *)

Lemma fromHexChar_high (v : byte) :
  hex.fromHexChar (digit16 hex.hextable (N.shiftr (N_of_ascii v) 4))
  = Some (N.shiftr (N_of_ascii v) 4).
Proof. destruct v as [[] [] [] [] [] [] [] []]; reflexivity. Qed.

Lemma fromHexChar_low (v : byte) :
  hex.fromHexChar (digit16 hex.hextable (N.land (N_of_ascii v) 15))
  = Some (N.land (N_of_ascii v) 15).
Proof. destruct v as [[] [] [] [] [] [] [] []]; reflexivity. Qed.

Lemma nibbles_join (v : byte) :
  ascii_of_N (N.lor (N.shiftl (N.shiftr (N_of_ascii v) 4) 4) (N.land (N_of_ascii v) 15)) = v.
Proof. destruct v as [[] [] [] [] [] [] [] []]; reflexivity. Qed.

Lemma hex_Decode_Encode (src : list byte) :
  hex.Decode (hex.Encode src) = Ok src.
Proof.
  induction src as [|v src IH]; [reflexivity|].
  change (hex.Encode (v :: src))
    with (digit16 hex.hextable (N.shiftr (N_of_ascii v) 4)
          :: digit16 hex.hextable (N.land (N_of_ascii v) 15) :: hex.Encode src).
  cbn [hex.Decode].
  rewrite fromHexChar_high, fromHexChar_low, IH. cbn [bind].
  now rewrite nibbles_join.
Qed.

Lemma hex_DecodeString_EncodeToString (src : list byte) :
  hex.DecodeString (hex.EncodeToString src) = Ok src.
Proof.
  unfold hex.DecodeString, hex.EncodeToString.
  rewrite bytes_of_string_of_bytes. apply hex_Decode_Encode.
Qed.

Lemma fromHexChar_is_hex_digit (c : byte) :
  is_hex_digit c = true <-> exists n, hex.fromHexChar c = Some n.
Proof.
  unfold is_hex_digit, hex.fromHexChar. cbv zeta.
  destruct ((48 <=? N_of_ascii c)%N && (N_of_ascii c <=? 57)%N); [simpl; split; eauto|].
  destruct ((97 <=? N_of_ascii c)%N && (N_of_ascii c <=? 102)%N); [simpl; split; eauto|].
  destruct ((65 <=? N_of_ascii c)%N && (N_of_ascii c <=? 70)%N); simpl; split; eauto.
  - discriminate.
  - intros [n E]. discriminate.
Qed.

(** Decode returns bytes exactly on an even number of hexadecimal digits,
    and fails with an error on everything else. *)
Lemma hex_Decode_cases (src : list byte) :
  if forallb is_hex_digit src && Nat.even (length src)
  then exists dst, hex.Decode src = Ok dst /\ length src = 2 * length dst
  else exists e, hex.Decode src = Err e.
Proof.
  induction src as [| p | p q rest IH] using list_ind2.
  - exists []. auto.
  - cbn [forallb length Nat.even]. rewrite andb_false_r.
    cbn [hex.Decode]. destruct (hex.fromHexChar p); eauto.
  - cbn [forallb length Nat.even hex.Decode].
    destruct (is_hex_digit p) eqn:Ep.
    + apply fromHexChar_is_hex_digit in Ep as [a Ea]. rewrite Ea.
      destruct (is_hex_digit q) eqn:Eq.
      * apply fromHexChar_is_hex_digit in Eq as [b Eb]. rewrite Eb.
        cbn [andb] in *.
        destruct (forallb is_hex_digit rest && Nat.even (length rest)).
        -- destruct IH as (dst & -> & Hlen). cbn [bind].
           eexists; split; [reflexivity|]. cbn [length]. lia.
        -- destruct IH as (e & ->). cbn [bind]. eauto.
      * cbn [andb].
        destruct (hex.fromHexChar q) as [b|] eqn:Eb; [|eauto].
        assert (is_hex_digit q = true) as Hq
          by (apply fromHexChar_is_hex_digit; eauto).
        congruence.
    + cbn [andb].
      destruct (hex.fromHexChar p) as [a|] eqn:Ea; [|eauto].
      assert (is_hex_digit p = true) as Hp
        by (apply fromHexChar_is_hex_digit; eauto).
      congruence.
Qed.

Lemma hex_DecodeString_cases (s : string) :
  if is_hex_string s
  then exists dst, hex.DecodeString s = Ok dst /\ String.length s = 2 * length dst
  else exists e, hex.DecodeString s = Err e.
Proof.
  unfold is_hex_string, hex.DecodeString.
  rewrite <- length_bytes_of_string. apply hex_Decode_cases.
Qed.

(** ** encoding/base64 *)

Lemma decodeMap_encode_digits (x0 x1 x2 x3 x4 x5 : bool) :
  base64.decodeMap (base64.encode (N_of_digits [x0; x1; x2; x3; x4; x5]))
  = Some (N_of_digits [x0; x1; x2; x3; x4; x5]).
Proof. destruct x0, x1, x2, x3, x4, x5; reflexivity. Qed.

Lemma testbit_digits (x0 x1 x2 x3 x4 x5 : bool) :
  let v := N_of_digits [x0; x1; x2; x3; x4; x5] in
  N.testbit v 0 = x0 /\ N.testbit v 1 = x1 /\ N.testbit v 2 = x2
  /\ N.testbit v 3 = x3 /\ N.testbit v 4 = x4 /\ N.testbit v 5 = x5.
Proof. destruct x0, x1, x2, x3, x4, x5; repeat split. Qed.

(** The four values of a group are in the alphabet, and they give the three
    bytes back. *)
Lemma sextets_spec (a b c : byte) :
  let '(s0, s1, s2, s3) := base64.sextets a b c in
  base64.decodeMap (base64.encode s0) = Some s0
  /\ base64.decodeMap (base64.encode s1) = Some s1
  /\ base64.decodeMap (base64.encode s2) = Some s2
  /\ base64.decodeMap (base64.encode s3) = Some s3
  /\ base64.octet1 s0 s1 = a
  /\ base64.octet2 s1 s2 = b
  /\ base64.octet3 s2 s3 = c.
Proof.
  destruct a as [a0 a1 a2 a3 a4 a5 a6 a7], b as [b0 b1 b2 b3 b4 b5 b6 b7],
           c as [c0 c1 c2 c3 c4 c5 c6 c7].
  unfold base64.sextets.
  repeat split; try apply decodeMap_encode_digits;
    unfold base64.octet1, base64.octet2, base64.octet3;
    pose proof (testbit_digits a2 a3 a4 a5 a6 a7) as (?&?&?&?&?&?);
    pose proof (testbit_digits b4 b5 b6 b7 a0 a1) as (?&?&?&?&?&?);
    pose proof (testbit_digits c6 c7 b0 b1 b2 b3) as (?&?&?&?&?&?);
    pose proof (testbit_digits c0 c1 c2 c3 c4 c5) as (?&?&?&?&?&?);
    congruence.
Qed.

Lemma decode_value (c : byte) (out : N) (rest : list byte) (si total : N) (dbuf : list N) :
  base64.decodeMap c = Some out ->
  base64.decode (c :: rest) si total dbuf =
    match dbuf with
    | [s0; s1; s2] =>
        bind (base64.decode rest (si + 1)%N total [])
          (fun tl => Ok (base64.octet1 s0 s1 :: base64.octet2 s1 s2
                         :: base64.octet3 s2 out :: tl))
    | _ => base64.decode rest (si + 1)%N total (dbuf ++ [out])
    end.
Proof. intros E. cbn [base64.decode]. now rewrite E. Qed.

Lemma base64_decode_Encode (src : list byte) :
  forall si total, base64.decode (base64.Encode src) si total [] = Ok src.
Proof.
  induction src as [| a | a b | a b c rest IH] using list_ind3; intros si total.
  - reflexivity.
  - cbn [base64.Encode].
    pose proof (sextets_spec a zero zero) as Hs.
    destruct (base64.sextets a zero zero) as [[[s0 s1] s2] s3].
    destruct Hs as (E0 & E1 & _ & _ & Ha & _).
    rewrite (decode_value _ _ _ _ _ _ E0). cbn [app].
    rewrite (decode_value _ _ _ _ _ _ E1). cbn [app].
    cbn. now rewrite Ha.
  - cbn [base64.Encode].
    pose proof (sextets_spec a b zero) as Hs.
    destruct (base64.sextets a b zero) as [[[s0 s1] s2] s3].
    destruct Hs as (E0 & E1 & E2 & _ & Ha & Hb & _).
    rewrite (decode_value _ _ _ _ _ _ E0). cbn [app].
    rewrite (decode_value _ _ _ _ _ _ E1). cbn [app].
    rewrite (decode_value _ _ _ _ _ _ E2). cbn [app].
    cbn. now rewrite Ha, Hb.
  - cbn [base64.Encode].
    pose proof (sextets_spec a b c) as Hs.
    destruct (base64.sextets a b c) as [[[s0 s1] s2] s3].
    destruct Hs as (E0 & E1 & E2 & E3 & Ha & Hb & Hc).
    rewrite (decode_value _ _ _ _ _ _ E0). cbn [app].
    rewrite (decode_value _ _ _ _ _ _ E1). cbn [app].
    rewrite (decode_value _ _ _ _ _ _ E2). cbn [app].
    rewrite (decode_value _ _ _ _ _ _ E3).
    rewrite IH. cbn [bind]. now rewrite Ha, Hb, Hc.
Qed.

Lemma base64_DecodeString_EncodeToString (src : list byte) :
  base64.DecodeString (base64.EncodeToString src) = Ok src.
Proof.
  unfold base64.DecodeString, base64.EncodeToString.
  rewrite bytes_of_string_of_bytes. apply base64_decode_Encode.
Qed.

(** DecodeString returns bytes or an error: it does not panic. *)
Lemma base64_decode_no_panic (src : list byte) :
  forall si total dbuf msg, base64.decode src si total dbuf <> Panic msg.
Proof.
  induction src as [|c rest IH]; intros si total dbuf msg.
  - cbn. destruct dbuf; discriminate.
  - cbn [base64.decode].
    destruct (base64.decodeMap c).
    + destruct dbuf as [|s0 [|s1 [|s2 [|]]]]; try apply IH.
      intros E. destruct (base64.decode rest (si + 1) total []) eqn:E'; try discriminate.
      now apply IH in E'.
    + destruct (base64.is_newline c); [apply IH|].
      destruct (negb (base64.is_pad c)); [discriminate|].
      destruct dbuf as [|s0 [|s1 [|s2 [|]]]]; try discriminate.
      * destruct (base64.skip_newlines rest (si + 1)) as [[|c2 rest2] si1]; [discriminate|].
        destruct (negb (base64.is_pad c2)); [discriminate|].
        destruct (base64.skip_newlines rest2 (si1 + 1)) as [[|] ?]; discriminate.
      * destruct (base64.skip_newlines rest (si + 1)) as [[|] ?]; discriminate.
Qed.

(** ** The encodings on examples *)

Example hex_deadbeef :
  hex.EncodeToString (map ascii_of_N [222; 173; 190; 239]%N) = "deadbeef"
  /\ hex.DecodeString "deadbeef" = Ok (map ascii_of_N [222; 173; 190; 239]%N)
  /\ hex.DecodeString "DEADBEEF" = Ok (map ascii_of_N [222; 173; 190; 239]%N)
  /\ hex.DecodeString "abc" = Err ErrLength
  /\ hex.DecodeString "zz" = Err (InvalidByteError "z")
  /\ Error (InvalidByteError "g") = "encoding/hex: invalid byte: U+0067 'g'".
Proof. repeat split. Qed.

Example base64_samples :
  base64.EncodeToString (bytes_of_string "any carnal pleas") = "YW55IGNhcm5hbCBwbGVhcw=="
  /\ base64.EncodeToString (bytes_of_string "any carnal pleasu") = "YW55IGNhcm5hbCBwbGVhc3U="
  /\ base64.DecodeString "YW55IGNhcm5hbCBwbGVhc3Vy" = Ok (bytes_of_string "any carnal pleasur")
  /\ base64.DecodeString "YW55IGNhcm5hbCBwbGVhcw==" = Ok (bytes_of_string "any carnal pleas")
  /\ base64.DecodeString "YW55IGNhcm5hbCBwbGVhcw=" = Err (CorruptInputError 23)
  /\ base64.DecodeString "YW55IGNhcm5hbCBwbGVhcw" = Err (CorruptInputError 20)
  /\ base64.DecodeString "!" = Err (CorruptInputError 0)
  /\ base64.DecodeString "" = Ok [].
Proof. repeat split. Qed.

(* ================================================================== *)
(** * Part XI. The properties of the specification *)
(* ================================================================== *)

(** ** The entropy source *)

Lemma ReadFull_Ok_inv (n : nat) (r r' : io.Reader) (bs : list byte) :
  io.ReadFull n r = (Ok bs, r') -> length bs = n /\ r = bs ++ r'.
Proof.
  unfold io.ReadFull. destruct (decide (n <= length r)) as [Hn|Hn].
  - intros E. injection E as <- <-. split.
    + rewrite length_take. lia.
    + now rewrite take_drop.
  - destruct r; discriminate.
Qed.

Lemma ReadFull_app (n : nat) (bs r : list byte) :
  length bs = n -> io.ReadFull n (bs ++ r) = (Ok bs, r).
Proof.
  intros <-. unfold io.ReadFull. rewrite decide_True by (rewrite length_app; lia).
  now rewrite take_app_length, drop_app_length.
Qed.

Section KeyHierarchy.
Context {L : CryptoLib}.

(** ** Key derivation *)

Lemma derivedKey_length (password : string) (salt : list byte) :
  length (derivedKey password salt) = 32.
Proof.
  unfold derivedKey, argon2.IDKey.
  rewrite argon2id_length; [reflexivity | unfold crypto.argonTime; lia
                                       | unfold crypto.argonThreads; lia].
Qed.

Lemma DeriveKeyFromPassword_hex (password : string) (salt : list byte) :
  crypto.DeriveKeyFromPassword password (hex.EncodeToString salt)
  = Ok (derivedKey password salt).
Proof.
  unfold crypto.DeriveKeyFromPassword.
  now rewrite hex_DecodeString_EncodeToString.
Qed.

Lemma NewCipher_derivedKey (password : string) (salt : list byte) :
  aes.NewCipher (derivedKey password salt) = Ok (derivedKey password salt).
Proof.
  unfold aes.NewCipher. rewrite derivedKey_length.
  now rewrite decide_True by auto.
Qed.

Lemma NewCipher_32 (key : list byte) :
  length key = 32 -> aes.NewCipher key = Ok key.
Proof. intros Hk. unfold aes.NewCipher. now rewrite decide_True by auto. Qed.

(** C10. DeriveKeyFromPassword does not look at the length of the salt: it
    fails with an error exactly on a salt that is not a hexadecimal string
    (an even number of hexadecimal digits, the encoding of some bytes), and
    on every hexadecimal string, of whatever length, the empty one too, it
    returns a key of 32 bytes. *)
Theorem DeriveKeyFromPassword_any_hex_salt (password saltHex : string) :
  ((exists e, crypto.DeriveKeyFromPassword password saltHex = Err e)
   <-> is_hex_string saltHex = false)
  /\ (is_hex_string saltHex = true <->
      exists key, crypto.DeriveKeyFromPassword password saltHex = Ok key
                  /\ length key = 32)
  /\ (forall salt : list byte,
        is_hex_string (hex.EncodeToString salt) = true
        /\ crypto.DeriveKeyFromPassword password (hex.EncodeToString salt)
           = Ok (derivedKey password salt))
  /\ (exists key, crypto.DeriveKeyFromPassword password "" = Ok key /\ length key = 32).
Proof.
  assert (forall s,
            if is_hex_string s
            then exists key, crypto.DeriveKeyFromPassword password s = Ok key
                             /\ length key = 32
            else exists e, crypto.DeriveKeyFromPassword password s = Err e) as Hcases.
  { intros s. pose proof (hex_DecodeString_cases s) as Hs.
    unfold crypto.DeriveKeyFromPassword.
    destruct (is_hex_string s).
    - destruct Hs as (salt & -> & _). cbn [wrapping bind].
      eexists. split; [reflexivity|]. apply derivedKey_length.
    - destruct Hs as (e & ->). cbn [wrapping bind]. eauto. }
  repeat split.
  - intros [e He]. specialize (Hcases saltHex).
    destruct (is_hex_string saltHex); [|reflexivity].
    destruct Hcases as (key & Hk & _). congruence.
  - intros Hs. specialize (Hcases saltHex). now rewrite Hs in Hcases.
  - intros Hs. specialize (Hcases saltHex). now rewrite Hs in Hcases.
  - intros (key & Hk & _). specialize (Hcases saltHex).
    destruct (is_hex_string saltHex); [reflexivity|].
    destruct Hcases as (e & He). congruence.
  - specialize (Hcases (hex.EncodeToString salt)).
    rewrite DeriveKeyFromPassword_hex in Hcases.
    destruct (is_hex_string (hex.EncodeToString salt)); [reflexivity|].
    destruct Hcases as (e & He). discriminate.
  - apply DeriveKeyFromPassword_hex.
  - apply (Hcases "").
Qed.

(** ** The identity key *)

(** What EncryptPrivateKey returns, when it returns: the salt and the nonce
    are the next 32 and 12 bytes of the entropy source. *)
Lemma EncryptPrivateKey_Ok_inv (privateKey : list byte) (password : string)
    (r r' : io.Reader) (c s : string) :
  crypto.EncryptPrivateKey privateKey password r = (Ok (c, s), r') ->
  exists salt nonce,
    r = salt ++ nonce ++ r' /\ length salt = 32 /\ length nonce = 12
    /\ (N.of_nat (length privateKey) <= cipher.maxPlaintext)%N
    /\ s = hex.EncodeToString salt
    /\ c = base64.EncodeToString
             (nonce ++ gcm_seal (derivedKey password salt) nonce privateKey []).
Proof.
  unfold crypto.EncryptPrivateKey. intros E.
  apply bindM_Ok_inv in E as (salt & r1 & Hsalt & E).
  apply wrappingM_Ok_inv, ReadFull_Ok_inv in Hsalt as [Hlen ->].
  rewrite DeriveKeyFromPassword_hex in E.
  apply bindM_Ok_inv in E as (key & r2 & Hkey & E).
  apply lift_Ok_inv in Hkey as [[= <-] ->].
  rewrite NewCipher_derivedKey in E. cbn [wrapping] in E.
  apply bindM_Ok_inv in E as (block & r2 & Hb & E).
  apply lift_Ok_inv in Hb as [[= <-] ->].
  apply bindM_Ok_inv in E as (aesGCM & r2 & Hg & E).
  apply lift_Ok_inv in Hg as [[= <-] ->].
  apply bindM_Ok_inv in E as (nonce & r2 & Hnonce & E).
  apply wrappingM_Ok_inv, ReadFull_Ok_inv in Hnonce as [Hn ->].
  apply bindM_Ok_inv in E as (ciphertext & r3 & Hseal & E).
  apply lift_Ok_inv in Hseal as [Hseal ->].
  unfold cipher.Seal in Hseal. unfold cipher.NonceSize in Hn.
  rewrite decide_True in Hseal by exact Hn.
  destruct (N.of_nat (length privateKey) <=? cipher.maxPlaintext)%N eqn:Hmax;
    [|discriminate].
  injection Hseal as <-. unfold ret in E. injection E as <- <- <-.
  exists salt, nonce. repeat split; auto. now apply N.leb_le.
Qed.

(** And it returns whenever the entropy source yields the 44 bytes. *)
Lemma EncryptPrivateKey_returns (privateKey : list byte) (password : string)
    (salt nonce r' : list byte) :
  length salt = 32 -> length nonce = 12 ->
  (N.of_nat (length privateKey) <= cipher.maxPlaintext)%N ->
  crypto.EncryptPrivateKey privateKey password (salt ++ nonce ++ r')
  = (Ok (base64.EncodeToString
           (nonce ++ gcm_seal (derivedKey password salt) nonce privateKey []),
         hex.EncodeToString salt), r').
Proof.
  intros Hs Hn Hmax. unfold crypto.EncryptPrivateKey, bindM at 1, wrappingM at 1.
  unfold crypto.SaltSize. rewrite (ReadFull_app 32 salt _ Hs). cbn [wrapping].
  unfold bindM at 1. rewrite DeriveKeyFromPassword_hex. cbn [lift].
  unfold bindM at 1. rewrite NewCipher_derivedKey. cbn [lift wrapping].
  unfold bindM at 1. cbn [lift wrapping cipher.NewGCM].
  unfold bindM at 1, wrappingM at 1, cipher.NonceSize.
  rewrite (ReadFull_app 12 nonce _ Hn). cbn [wrapping].
  unfold bindM, lift, ret, cipher.Seal.
  rewrite decide_True by exact Hn.
  apply N.leb_le in Hmax. now rewrite Hmax.
Qed.

(** Decryption of an identity-key ciphertext of at least a nonce, under any
    password: it is decided by the tag check under the key of that password. *)
Lemma DecryptPrivateKey_tag (password : string) (salt nonce sealed : list byte) :
  length nonce = 12 ->
  crypto.DecryptPrivateKey (base64.EncodeToString (nonce ++ sealed)) password
    (hex.EncodeToString salt)
  = match gcm_open (derivedKey password salt) nonce sealed [] with
    | Some privateKey => Ok privateKey
    | None => Err (Errorf_w "failed to decrypt private key (wrong password?)" errOpen)
    end.
Proof.
  intros Hn. unfold crypto.DecryptPrivateKey.
  rewrite base64_DecodeString_EncodeToString. cbn [wrapping bind].
  rewrite DeriveKeyFromPassword_hex. cbn [bind].
  rewrite NewCipher_derivedKey. cbn [wrapping bind cipher.NewGCM].
  unfold cipher.NonceSize.
  rewrite decide_False by (rewrite length_app; lia).
  rewrite take_app_length', drop_app_length' by (symmetry; exact Hn).
  unfold cipher.Open. rewrite decide_True by exact Hn.
  destruct (gcm_open (derivedKey password salt) nonce sealed []); reflexivity.
Qed.

(** C2. Encrypting a 32-byte identity key under a non-empty password and
    decrypting the result with the same password and the returned salt
    gives the key back. *)
Theorem identity_key_roundtrip (K : list byte) (P : string) (r r' : io.Reader)
    (c s : string) :
  length K = 32 -> P <> "" ->
  crypto.EncryptPrivateKey K P r = (Ok (c, s), r') ->
  crypto.DecryptPrivateKey c P s = Ok K.
Proof.
  intros _ _ E.
  apply EncryptPrivateKey_Ok_inv in E
    as (salt & nonce & _ & _ & Hn & Hmax & -> & ->).
  rewrite DecryptPrivateKey_tag by exact Hn.
  rewrite gcm_open_seal; auto.
  right; right. apply derivedKey_length.
Qed.

(** ** Sealed boxes *)

Lemma GenerateKeypair_Ok_inv (r r' : io.Reader) (sk pk : list byte) :
  crypto.GenerateKeypair r = (Ok (sk, pk), r') ->
  length sk = 32 /\ pk = scalar_base_mult sk /\ r = sk ++ r'.
Proof.
  unfold crypto.GenerateKeypair. intros E.
  apply bindM_Ok_inv in E as ([pub priv] & r1 & Hk & E).
  apply wrappingM_Ok_inv in Hk. unfold box.GenerateKey in Hk.
  apply bindM_Ok_inv in Hk as (priv' & r2 & Hr & Hk).
  apply ReadFull_Ok_inv in Hr as [Hlen ->].
  unfold ret in Hk, E. cbn [fst snd] in E.
  injection Hk as <- <- <-. injection E as <- <- <-. auto.
Qed.

Lemma EncryptForUser_Ok_inv (pk data : list byte) (r r' : io.Reader) (blob : list byte) :
  crypto.EncryptForUser pk data r = (Ok blob, r') ->
  length pk = 32 /\ exists esk, length esk = 32 /\ r = esk ++ r'
                               /\ blob = sealed_box data pk esk.
Proof.
  unfold crypto.EncryptForUser, crypto.KeySize.
  destruct (decide (length pk <> 32)) as [Hne|Hpk]; [discriminate|].
  intros E. split; [lia|].
  apply bindM_Ok_inv in E as (encrypted & r1 & Hs & E).
  apply wrappingM_Ok_inv in Hs. unfold box.SealAnonymous in Hs.
  apply bindM_Ok_inv in Hs as ([epk esk] & r2 & Hk & Hs).
  unfold box.GenerateKey in Hk.
  apply bindM_Ok_inv in Hk as (priv & r3 & Hr & Hk).
  apply ReadFull_Ok_inv in Hr as [Hlen ->].
  unfold ret in Hk, Hs, E. cbn [snd app] in Hs.
  injection Hk as <- <- <-. injection Hs as <- <-. injection E as <- <-.
  eauto.
Qed.

(** With 32 bytes of entropy GenerateKeypair returns a key pair, and
    EncryptForUser a sealed box for a public key of 32 bytes. *)
Lemma GenerateKeypair_returns (sk r' : list byte) :
  length sk = 32 ->
  crypto.GenerateKeypair (sk ++ r') = (Ok (sk, scalar_base_mult sk), r').
Proof.
  intros Hsk. unfold crypto.GenerateKeypair, box.GenerateKey, bindM, wrappingM, ret.
  now rewrite ReadFull_app.
Qed.

Lemma EncryptForUser_returns (pk data esk r' : list byte) :
  length pk = 32 -> length esk = 32 ->
  crypto.EncryptForUser pk data (esk ++ r') = (Ok (sealed_box data pk esk), r').
Proof.
  intros Hpk Hesk. unfold crypto.EncryptForUser, crypto.KeySize.
  rewrite decide_False by lia.
  unfold box.SealAnonymous, box.GenerateKey, bindM, wrappingM, ret.
  now rewrite ReadFull_app.
Qed.

Lemma DecryptFromUser_sealed (sk data esk : list byte) :
  length sk = 32 -> length esk = 32 ->
  crypto.DecryptFromUser sk (scalar_base_mult sk)
    (sealed_box data (scalar_base_mult sk) esk) = Ok data.
Proof.
  intros Hsk Hesk. unfold crypto.DecryptFromUser, crypto.KeySize.
  rewrite decide_False by (rewrite scalar_base_mult_length; lia).
  unfold box.OpenAnonymous. now rewrite sealed_open_box.
Qed.

(** C3. A 32-byte value sealed for the public key of a generated key pair
    opens, with that key pair, to the value. *)
Theorem sealed_box_roundtrip (sk pk K blob : list byte) (r r' r2 r2' : io.Reader) :
  crypto.GenerateKeypair r = (Ok (sk, pk), r') ->
  length K = 32 ->
  crypto.EncryptForUser pk K r2 = (Ok blob, r2') ->
  crypto.DecryptFromUser sk pk blob = Ok K.
Proof.
  intros Hgen _ Henc.
  apply GenerateKeypair_Ok_inv in Hgen as (Hsk & -> & _).
  apply EncryptForUser_Ok_inv in Henc as (_ & esk & Hesk & _ & ->).
  now apply DecryptFromUser_sealed.
Qed.

(** ** Secrets *)

Lemma EncryptSecret_Ok_inv (plaintext : string) (key : list byte) (r r' : io.Reader)
    (c n : string) :
  crypto.EncryptSecret plaintext key r = (Ok (c, n), r') ->
  exists nonce,
    r = nonce ++ r' /\ length nonce = 12
    /\ (length key = 16 \/ length key = 24 \/ length key = 32)
    /\ (N.of_nat (String.length plaintext) <= cipher.maxPlaintext)%N
    /\ n = base64.EncodeToString nonce
    /\ c = base64.EncodeToString (gcm_seal key nonce (bytes_of_string plaintext) []).
Proof.
  unfold crypto.EncryptSecret. intros E.
  apply bindM_Ok_inv in E as (block & r1 & Hb & E).
  apply lift_Ok_inv in Hb as [Hb ->]. apply wrapping_Ok_inv in Hb.
  unfold aes.NewCipher in Hb.
  destruct (decide (length key = 16 \/ length key = 24 \/ length key = 32))
    as [Hkey|]; [|discriminate].
  injection Hb as <-.
  apply bindM_Ok_inv in E as (aesGCM & r1 & Hg & E).
  apply lift_Ok_inv in Hg as [[= <-] ->].
  apply bindM_Ok_inv in E as (nonce & r1 & Hnonce & E).
  apply wrappingM_Ok_inv, ReadFull_Ok_inv in Hnonce as [Hn ->].
  apply bindM_Ok_inv in E as (ciphertext & r2 & Hseal & E).
  apply lift_Ok_inv in Hseal as [Hseal ->].
  unfold cipher.Seal in Hseal. unfold cipher.NonceSize in Hn.
  rewrite decide_True in Hseal by exact Hn.
  rewrite length_bytes_of_string in Hseal.
  destruct (N.of_nat (String.length plaintext) <=? cipher.maxPlaintext)%N eqn:Hmax;
    [|discriminate].
  injection Hseal as <-. unfold ret in E. injection E as <- <- <-.
  exists nonce. repeat split; auto. now apply N.leb_le.
Qed.

(** EncryptSecret returns for every plaintext GCM takes in one call, the
    empty one and those of more than 4 KB too, given 12 bytes of entropy. *)
Lemma EncryptSecret_returns (plaintext : string) (key nonce r' : list byte) :
  length key = 32 -> length nonce = 12 ->
  (N.of_nat (String.length plaintext) <= cipher.maxPlaintext)%N ->
  crypto.EncryptSecret plaintext key (nonce ++ r')
  = (Ok (base64.EncodeToString (gcm_seal key nonce (bytes_of_string plaintext) []),
         base64.EncodeToString nonce), r').
Proof.
  intros Hk Hn Hmax. unfold crypto.EncryptSecret.
  unfold bindM at 1. rewrite (NewCipher_32 key Hk). cbn [lift wrapping].
  unfold bindM at 1. cbn [lift wrapping cipher.NewGCM].
  unfold bindM at 1, wrappingM at 1, cipher.NonceSize.
  rewrite (ReadFull_app 12 nonce _ Hn). cbn [wrapping].
  unfold bindM, lift, ret, cipher.Seal.
  rewrite decide_True by exact Hn.
  rewrite length_bytes_of_string.
  apply N.leb_le in Hmax. now rewrite Hmax.
Qed.

(** Decryption of a secret under a key of an AES size and a 12-byte nonce:
    it is decided by the tag check. *)
Lemma DecryptSecret_tag (ciphertext nonce key : list byte) :
  length key = 16 \/ length key = 24 \/ length key = 32 ->
  length nonce = 12 ->
  crypto.DecryptSecret (base64.EncodeToString ciphertext)
    (base64.EncodeToString nonce) key
  = match gcm_open key nonce ciphertext [] with
    | Some plaintext => Ok (string_of_bytes plaintext)
    | None => Err (Errorf_w "failed to decrypt" errOpen)
    end.
Proof.
  intros Hk Hn. unfold crypto.DecryptSecret.
  rewrite !base64_DecodeString_EncodeToString. cbn [wrapping bind].
  unfold aes.NewCipher. rewrite decide_True by exact Hk.
  cbn [wrapping bind cipher.NewGCM].
  unfold cipher.Open. rewrite decide_True by exact Hn.
  destruct (gcm_open key nonce ciphertext []); reflexivity.
Qed.

(** C4. A secret value, any string of bytes, so any UTF-8 string, empty or
    long, encrypted under a 32-byte workspace key decrypts, with the
    returned nonce and that key, to the value. *)
Theorem secret_roundtrip (v : string) (K : list byte) (r r' : io.Reader)
    (ciphertext nonce : string) :
  length K = 32 ->
  crypto.EncryptSecret v K r = (Ok (ciphertext, nonce), r') ->
  crypto.DecryptSecret ciphertext nonce K = Ok v.
Proof.
  intros HK E.
  apply EncryptSecret_Ok_inv in E as (n & _ & Hn & Hkey & Hmax & -> & ->).
  rewrite DecryptSecret_tag by assumption.
  rewrite gcm_open_seal; auto.
  - now rewrite string_of_bytes_of_string.
  - now rewrite length_bytes_of_string.
Qed.

End KeyHierarchy.

(** ** Examples on the reference implementation *)

(** The scenario of the specification: the password "correct-horse-battery"
    and the key of 32 zero bytes. *)
Lemma identity_key_roundtrip_witness :
  match Examples.encryptedZeroKey with
  | (Ok (c, s), _) =>
      crypto.DecryptPrivateKey (L := Reference.lib) c "correct-horse-battery" s
      = Ok Examples.zeroKey
  | _ => False
  end.
Proof.
  cbv beta iota delta [Examples.encryptedZeroKey].
  eapply (identity_key_roundtrip (L := Reference.lib) Examples.zeroKey
            "correct-horse-battery" Examples.entropy).
  - reflexivity.
  - discriminate.
  - vm_compute. reflexivity.
Defined.

Lemma sealed_box_roundtrip_witness :
  match Examples.keypair, Examples.sealedZeroKey with
  | (Ok (sk, pk), _), (Ok blob, _) =>
      crypto.DecryptFromUser (L := Reference.lib) sk pk blob = Ok Examples.zeroKey
  | _, _ => False
  end.
Proof.
  cbv beta iota delta [Examples.keypair Examples.sealedZeroKey].
  eapply (sealed_box_roundtrip (L := Reference.lib) _ _ Examples.zeroKey _
            Examples.entropy _ (rev Examples.entropy)).
  - vm_compute. reflexivity.
  - reflexivity.
  - vm_compute. reflexivity.
Defined.

Lemma secret_roundtrip_witness :
  match Examples.encryptedSecret with
  | (Ok (c, n), _) =>
      crypto.DecryptSecret (L := Reference.lib) c n Examples.zeroKey
      = Ok "postgres://user:pw@host/db"
  | _ => False
  end.
Proof.
  cbv beta iota delta [Examples.encryptedSecret].
  eapply (secret_roundtrip (L := Reference.lib) _ Examples.zeroKey Examples.entropy).
  - reflexivity.
  - vm_compute. reflexivity.
Defined.

(** The empty secret and a secret of 5000 bytes come back too. *)
Example secret_roundtrip_empty_and_long :
  crypto.DecryptSecret (L := Reference.lib)
    (fst (Examples.encrypted Examples.encryptedEmptySecret))
    (snd (Examples.encrypted Examples.encryptedEmptySecret)) Examples.zeroKey = Ok ""
  /\ is_Ok (fst Examples.encryptedLongSecret) = true
  /\ crypto.DecryptSecret (L := Reference.lib)
       (fst (Examples.encrypted Examples.encryptedLongSecret))
       (snd (Examples.encrypted Examples.encryptedLongSecret)) Examples.zeroKey
     = Ok Examples.longSecret.
Proof. vm_compute. repeat split. Qed.


(** ** Decryption under another password *)

Section WrongPassword.
Context {L : CryptoLib}.

(** Two passwords with one key: the second decrypts what the first
    encrypted. *)
Lemma same_key_decrypts (K salt nonce : list byte) (P P' : string) :
  length nonce = 12 ->
  (N.of_nat (length K) <= cipher.maxPlaintext)%N ->
  derivedKey P' salt = derivedKey P salt ->
  crypto.DecryptPrivateKey
    (base64.EncodeToString (nonce ++ gcm_seal (derivedKey P salt) nonce K []))
    P' (hex.EncodeToString salt) = Ok K.
Proof.
  intros Hn Hmax Hkey.
  rewrite DecryptPrivateKey_tag by exact Hn.
  rewrite Hkey, gcm_open_seal; auto.
  right; right. apply derivedKey_length.
Qed.

(** Decryption under another password is decided by the AES-GCM tag under
    the key of that password, on the nonce and the ciphertext that
    EncryptPrivateKey wrote: when Open refuses, DecryptPrivateKey fails with
    the one error and returns no bytes; it returns bytes only when Open
    accepts, and then, if the two passwords have one key, the bytes are the
    private key. *)
Lemma DecryptPrivateKey_under_another_password (K : list byte) (P P' : string)
    (r r' : io.Reader) (c s : string) :
  crypto.EncryptPrivateKey K P r = (Ok (c, s), r') ->
  exists salt nonce,
    r = salt ++ nonce ++ r' /\ length salt = 32 /\ length nonce = 12
    /\ match gcm_open (derivedKey P' salt) nonce
               (gcm_seal (derivedKey P salt) nonce K []) [] with
       | None =>
           crypto.DecryptPrivateKey c P' s
           = Err (Errorf_w "failed to decrypt private key (wrong password?)" errOpen)
       | Some plaintext =>
           crypto.DecryptPrivateKey c P' s = Ok plaintext
           /\ (derivedKey P' salt = derivedKey P salt -> plaintext = K)
       end.
Proof.
  intros E.
  apply EncryptPrivateKey_Ok_inv in E
    as (salt & nonce & Hr & Hs & Hn & Hmax & -> & ->).
  exists salt, nonce. repeat split; auto.
  rewrite DecryptPrivateKey_tag by exact Hn.
  destruct (gcm_open (derivedKey P' salt) nonce
              (gcm_seal (derivedKey P salt) nonce K []) []) as [plaintext|] eqn:Ho;
    [|reflexivity].
  split; [reflexivity|]. intros Hkey.
  rewrite Hkey, gcm_open_seal in Ho; auto.
  - congruence.
  - right; right. apply derivedKey_length.
Qed.

End WrongPassword.

Section WrongPasswordExample.
#[local] Existing Instance Reference.lib.

(** On the reference implementation a wrong password is refused. *)
Example wrong_password_refused :
  crypto.DecryptPrivateKey
    (fst (Examples.encrypted Examples.encryptedZeroKey)) "wrong-password"
    (snd (Examples.encrypted Examples.encryptedZeroKey))
  = Err (Errorf_w "failed to decrypt private key (wrong password?)" errOpen).
Proof. vm_compute. reflexivity. Qed.

End WrongPasswordExample.

(** ** The errors of decryption *)

Section DecryptionErrors.
Context {L : CryptoLib}.

(** DecryptPrivateKey on input that decodes to at least a nonce. *)
Lemma DecryptPrivateKey_decoded (c password s : string) (ciphertext salt : list byte) :
  base64.DecodeString c = Ok ciphertext ->
  hex.DecodeString s = Ok salt ->
  12 <= length ciphertext ->
  crypto.DecryptPrivateKey c password s
  = match gcm_open (derivedKey password salt) (take 12 ciphertext)
            (drop 12 ciphertext) [] with
    | Some privateKey => Ok privateKey
    | None => Err (Errorf_w "failed to decrypt private key (wrong password?)" errOpen)
    end.
Proof.
  intros Hc Hs Hlen. unfold crypto.DecryptPrivateKey, crypto.DeriveKeyFromPassword.
  rewrite Hc, Hs. cbn [wrapping bind]. fold (derivedKey password salt).
  rewrite NewCipher_derivedKey. cbn [wrapping bind cipher.NewGCM].
  unfold cipher.NonceSize. rewrite decide_False by lia.
  unfold cipher.Open. rewrite decide_True by (rewrite length_take; lia).
  destruct (gcm_open _ _ _ _); reflexivity.
Qed.

(** DecryptSecret on input that decodes, under a key of an AES size: a
    nonce of 12 bytes goes to the tag check, any other makes Open panic. *)
Lemma DecryptSecret_decoded (c n : string) (key ciphertext nonce : list byte) :
  base64.DecodeString c = Ok ciphertext ->
  base64.DecodeString n = Ok nonce ->
  length key = 16 \/ length key = 24 \/ length key = 32 ->
  crypto.DecryptSecret c n key
  = if decide (length nonce = 12) then
      match gcm_open key nonce ciphertext [] with
      | Some plaintext => Ok (string_of_bytes plaintext)
      | None => Err (Errorf_w "failed to decrypt" errOpen)
      end
    else Panic "crypto/cipher: incorrect nonce length given to GCM".
Proof.
  intros Hc Hn Hk. unfold crypto.DecryptSecret.
  rewrite Hc, Hn. cbn [wrapping bind].
  unfold aes.NewCipher. rewrite decide_True by exact Hk.
  cbn [wrapping bind cipher.NewGCM]. unfold cipher.Open.
  destruct (decide (length nonce = 12)); [|reflexivity].
  destruct (gcm_open key nonce ciphertext []); reflexivity.
Qed.



Lemma DecryptPrivateKey_not_hex (password : string) :
  crypto.DecryptPrivateKey "" password "zz"
  = Err (Errorf_w "invalid salt hex" (InvalidByteError "z")).
Proof. reflexivity. Qed.


End DecryptionErrors.


Example decryption_error_messages :
  Error (Errorf_w "failed to decode encrypted private key" (CorruptInputError 0))
  = "failed to decode encrypted private key: illegal base64 data at input byte 0"
  /\ Error (Errorf_w "invalid salt hex" (InvalidByteError "z"))
     = "invalid salt hex: encoding/hex: invalid byte: U+007A 'z'"
  /\ Error (Errorf "ciphertext too short") = "ciphertext too short"
  /\ Error (Errorf_w "failed to decrypt private key (wrong password?)" errOpen)
     = "failed to decrypt private key (wrong password?): cipher: message authentication failed".
Proof. repeat split. Qed.

Section DecryptionErrorsExample.
#[local] Existing Instance Reference.lib.


End DecryptionErrorsExample.

(** ** The configuration files *)

Section ConfigFiles.
Import config.

Lemma GetPaths_home (d : Disk) (home : string) :
  HomeDirHook d = inl home -> GetPaths d = (Ok (paths_of home), d).
Proof. intros Hh. unfold GetPaths, bindM, wrappingM. now rewrite Hh. Qed.

Lemma GetPaths_error (d : Disk) (e : error) :
  HomeDirHook d = inr e ->
  GetPaths d = (Err (Errorf_w "could not determine home directory" e), d).
Proof. intros Hh. unfold GetPaths, bindM, wrappingM. now rewrite Hh. Qed.

Lemma writable_write_config (d : Disk) (c : GlobalConfig) :
  writable d -> writable (write_config d c).
Proof. intros [Hh Hw]. split; assumption. Qed.

Lemma writable_write_tokens (d : Disk) (t : TokenConfig) :
  writable d -> writable (write_tokens d t).
Proof. intros [Hh Hw]. split; assumption. Qed.

Lemma SaveGlobalConfig_writable (d : Disk) (c : GlobalConfig) :
  writable d -> SaveGlobalConfig c d = (Ok tt, write_config d c).
Proof.
  intros [[home Hh] Hw]. unfold SaveGlobalConfig, bindM.
  rewrite (GetPaths_home d home Hh). unfold writeJSON. now rewrite Hw.
Qed.

Lemma SaveTokens_writable (d : Disk) (t : TokenConfig) :
  writable d -> SaveTokens t d = (Ok tt, write_tokens d t).
Proof.
  intros [[home Hh] Hw]. unfold SaveTokens, bindM.
  rewrite (GetPaths_home d home Hh). unfold writeJSON. now rewrite Hw.
Qed.

Lemma stored_config_write_config (d : Disk) (c : GlobalConfig) :
  (exists home, HomeDirHook d = inl home) -> stored_config (write_config d c) = c.
Proof.
  intros [home Hh]. unfold stored_config, LoadGlobalConfig_or_zero, LoadGlobalConfig, bindM.
  now rewrite (GetPaths_home (write_config d c) home Hh).
Qed.

Lemma stored_config_write_tokens (d : Disk) (t : TokenConfig) :
  stored_config (write_tokens d t) = stored_config d.
Proof.
  unfold stored_config, LoadGlobalConfig_or_zero, LoadGlobalConfig, bindM.
  destruct (HomeDirHook d) as [home|e] eqn:Hh.
  - now rewrite (GetPaths_home d home Hh), (GetPaths_home (write_tokens d t) home Hh).
  - now rewrite (GetPaths_error d e Hh), (GetPaths_error (write_tokens d t) e Hh).
Qed.

Lemma stored_tokens_write_tokens (d : Disk) (t : TokenConfig) :
  (exists home, HomeDirHook d = inl home) -> stored_tokens (write_tokens d t) = t.
Proof.
  intros [home Hh]. unfold stored_tokens, LoadTokens, bindM.
  now rewrite (GetPaths_home (write_tokens d t) home Hh).
Qed.


(** The getters read the stored configuration. *)
Lemma GetEmail_stored (d : Disk) : GetEmail d = Email (stored_config d).
Proof.
  unfold GetEmail, stored_config, LoadGlobalConfig_or_zero.
  destruct (LoadGlobalConfig d) as [[c|e|msg] d']; reflexivity.
Qed.

Lemma GetSelectedWorkspaceID_stored (d : Disk) :
  GetSelectedWorkspaceID d = SelectedWorkspaceID (stored_config d).
Proof.
  unfold GetSelectedWorkspaceID, stored_config, LoadGlobalConfig_or_zero.
  destruct (LoadGlobalConfig d) as [[c|e|msg] d']; reflexivity.
Qed.

Lemma GetAccessToken_stored (d : Disk) : GetAccessToken d = AccessToken (stored_tokens d).
Proof.
  unfold GetAccessToken, stored_tokens.
  destruct (LoadTokens d) as [[c|e|msg] d']; reflexivity.
Qed.

Lemma SetEmail_writable (d : Disk) (email : string) :
  writable d ->
  SetEmail email d
  = (Ok tt, write_config d {| Email := email;
                              SelectedWorkspaceID := SelectedWorkspaceID (stored_config d);
                              Workspaces := Workspaces (stored_config d) |}).
Proof. intros Hw. unfold SetEmail. now rewrite SaveGlobalConfig_writable. Qed.

Lemma SetSelectedWorkspaceID_writable (d : Disk) (id : string) :
  writable d ->
  SetSelectedWorkspaceID id d
  = (Ok tt, write_config d {| Email := Email (stored_config d);
                              SelectedWorkspaceID := id;
                              Workspaces := Workspaces (stored_config d) |}).
Proof. intros Hw. unfold SetSelectedWorkspaceID. now rewrite SaveGlobalConfig_writable. Qed.

Lemma StoreWorkspaceCache_writable (d : Disk) (workspaces : gmap string WorkspaceCacheEntry) :
  writable d ->
  StoreWorkspaceCache workspaces d
  = (Ok tt, write_config d {| Email := Email (stored_config d);
                              SelectedWorkspaceID := SelectedWorkspaceID (stored_config d);
                              Workspaces := workspaces |}).
Proof. intros Hw. unfold StoreWorkspaceCache. now rewrite SaveGlobalConfig_writable. Qed.

Lemma StoreTokens_writable (d : Disk) (a r e : string) :
  writable d ->
  StoreTokens a r e d
  = (Ok tt, write_tokens d {| AccessToken := a; RefreshToken := r; ExpiresAt := e |}).
Proof. intros Hw. unfold StoreTokens. now rewrite SaveTokens_writable. Qed.

Lemma write_config_twice (d : Disk) (c c' : GlobalConfig) :
  write_config (write_config d c) c' = write_config d c'.
Proof. reflexivity. Qed.

End ConfigFiles.

(** ** Login: the transport, the key pair, the cache *)

Section Login.
Context {L : CryptoLib}.
Import auth.

Lemma Call_login (s : Service) (email password : string) (d : config.Disk) :
  api.Call (API s) "auth.login" "POST"
    (Some [("email", http.Str email); ("password", http.Str password)]) d
  = (answer (api.HTTPClient_Do (API s) (loginRequest s email password)), d).
Proof. reflexivity. Qed.

Lemma cacheWorkspaces_foldl (sk pk : list byte) (workspaces : list loginWorkspace) :
  cacheWorkspaces sk pk workspaces = foldl (cacheStep sk pk) ∅ workspaces.
Proof.
  unfold cacheWorkspaces. generalize (∅ : gmap string config.WorkspaceCacheEntry).
  induction workspaces as [|ws rest IH]; intros m; [reflexivity|].
  cbn [foldl]. rewrite IH. f_equal.
  unfold cacheStep, cacheEntry.
  destruct (base64.DecodeString (EncryptedWorkspaceKey ws)); try reflexivity.
  destruct (crypto.DecryptFromUser sk pk a); reflexivity.
Qed.

Lemma cacheEntry_ID (sk pk : list byte) (ws : loginWorkspace) id entry :
  cacheEntry sk pk ws = Some (id, entry) -> id = ID ws.
Proof.
  unfold cacheEntry. intros E.
  destruct (base64.DecodeString (EncryptedWorkspaceKey ws)); try discriminate E.
  destruct (crypto.DecryptFromUser sk pk a); try discriminate E.
  now injection E as <- _.
Qed.



Lemma cache_dom (sk pk : list byte) (workspaces : list loginWorkspace)
    (m : gmap string config.WorkspaceCacheEntry) :
  dom (foldl (cacheStep sk pk) m workspaces)
  = dom m ∪ list_to_set
              (ID <$> filter (fun ws => valid_workspace sk pk ws = true) workspaces).
Proof.
  revert m. induction workspaces as [|ws rest IH]; intros m.
  - cbn. now rewrite (right_id_L ∅ (∪)).
  - cbn [foldl]. rewrite IH, filter_cons. unfold cacheStep, valid_workspace.
    destruct (cacheEntry sk pk ws) as [[id entry]|] eqn:E.
    + rewrite decide_True by reflexivity.
      apply cacheEntry_ID in E as ->.
      rewrite dom_insert_L, fmap_cons, list_to_set_cons.
      now rewrite (assoc_L (∪)), (comm_L (∪) (dom m)).
    + rewrite decide_False by discriminate. reflexivity.
Qed.

(** The cache has the identifiers of the valid workspaces, and nothing
    else; with distinct identifiers it has one entry for each. *)
Lemma cacheWorkspaces_dom (sk pk : list byte) (workspaces : list loginWorkspace) :
  dom (cacheWorkspaces sk pk workspaces)
  = list_to_set (ID <$> filter (fun ws => valid_workspace sk pk ws = true) workspaces).
Proof.
  rewrite cacheWorkspaces_foldl, cache_dom, dom_empty_L.
  now rewrite (left_id_L ∅ (∪)).
Qed.


Lemma cacheWorkspaces_empty (sk pk : list byte) (workspaces : list loginWorkspace) :
  filter (fun ws => valid_workspace sk pk ws = true) workspaces = [] ->
  cacheWorkspaces sk pk workspaces = ∅.
Proof.
  intros Hv. apply dom_empty_iff_L. rewrite cacheWorkspaces_dom, Hv. reflexivity.
Qed.

(** *** What a successful login leaves *)

Lemma StoreKeypair_available (email : string) (sk pk : list byte) (k : gokeyring.Keychain) :
  gokeyring.unavailable k = None ->
  keyring.StoreKeypair email sk pk k = (Ok tt, keychain_after email sk pk k).
Proof.
  intros Hk. unfold keyring.StoreKeypair, bindM, wrappingM, gokeyring.Set_.
  rewrite Hk. reflexivity.
Qed.

Lemma selectDefaultWorkspace_writable (range1 range2 : MapOrder)
    (workspaceCache : gmap string config.WorkspaceCacheEntry) (d : config.Disk)
    (c : config.GlobalConfig) :
  writable d ->
  selectDefaultWorkspace range1 range2 workspaceCache (write_config d c)
  = (Ok tt,
     write_config d
       {| config.Email := config.Email c;
          config.SelectedWorkspaceID :=
            selected range1 range2 workspaceCache (config.SelectedWorkspaceID c);
          config.Workspaces := config.Workspaces c |}).
Proof.
  intros Hw. pose proof Hw as [Hh _].
  assert (forall c', writable (write_config d c')) as Hw'
    by (intros c'; now apply writable_write_config).
  unfold selectDefaultWorkspace, selected, first_personal.
  rewrite GetSelectedWorkspaceID_stored, stored_config_write_config by exact Hh.
  destruct c as [email sel workspaces]. cbn [config.SelectedWorkspaceID config.Email
                                            config.Workspaces].
  destruct (decide (sel = "")) as [->|Hsel]; [|reflexivity].
  unfold bindM.
  destruct (List.find _ (range1 workspaceCache)) as [[id entry]|] eqn:Hfind.
  - unfold discard. rewrite SetSelectedWorkspaceID_writable by apply Hw'.
    rewrite write_config_twice, stored_config_write_config by exact Hh.
    rewrite GetSelectedWorkspaceID_stored, stored_config_write_config by exact Hh.
    cbn [config.SelectedWorkspaceID config.Email config.Workspaces].
    destruct (decide (id = "")) as [->|Hid]; [|reflexivity].
    destruct (range2 workspaceCache) as [|[id2 entry2] rest]; cbn [first_id];
      [reflexivity|].
    rewrite SetSelectedWorkspaceID_writable by apply Hw'.
    rewrite write_config_twice, stored_config_write_config by exact Hh. reflexivity.
  - unfold ret.
    rewrite GetSelectedWorkspaceID_stored, stored_config_write_config by exact Hh.
    cbn [config.SelectedWorkspaceID]. rewrite !decide_True by reflexivity.
    destruct (range2 workspaceCache) as [|[id2 entry2] rest]; cbn [first_id];
      [reflexivity|].
    unfold discard. rewrite SetSelectedWorkspaceID_writable by apply Hw'.
    rewrite write_config_twice, stored_config_write_config by exact Hh. reflexivity.
Qed.

(** PerformLogin completes when the transport accepts the credentials, the
    key pair resolves, and the files and the keychain can be written; and
    it leaves [world_after]. *)
Lemma PerformLogin_completes (range1 range2 : MapOrder) (s : Service)
    (email password : string) (privateKey : option (list byte)) (publicKey : list byte)
    (w : World) (loginResp : loginResponse) (sk pk : list byte) :
  login_answered s email password loginResp ->
  resolveKeypair loginResp password privateKey publicKey = Ok (sk, pk) ->
  writable (disk w) ->
  gokeyring.unavailable (keychain w) = None ->
  PerformLogin range1 range2 s email password privateKey publicKey w
  = (Ok tt, world_after range1 range2 email loginResp sk pk w).
Proof.
  intros (resp & Hdo & Hstatus & Hjson) Hkeys Hw Hk.
  destruct w as [d k g]. cbn [disk keychain rand] in *.
  pose proof Hw as [Hh _].
  unfold PerformLogin, world_after. cbn [disk keychain rand].
  unfold bindM at 1, wrappingM at 1, on_disk at 1. cbn [disk keychain rand].
  rewrite Call_login, Hdo. cbn [answer wrapping].
  rewrite decide_False by (intros Hne; apply Hne; exact Hstatus).
  unfold bindM at 1. rewrite Hjson. cbn [lift answer wrapping].
  unfold bindM at 1. rewrite Hkeys. cbn [lift].
  unfold bindM at 1, wrappingM at 1, on_disk at 1. cbn [disk keychain rand].
  rewrite SetEmail_writable by exact Hw. cbn [wrapping].
  unfold bindM at 1, wrappingM at 1, on_disk at 1. cbn [disk keychain rand].
  rewrite StoreTokens_writable by now apply writable_write_config. cbn [wrapping].
  unfold bindM at 1, wrappingM at 1, on_keychain at 1. cbn [disk keychain rand].
  rewrite StoreKeypair_available by exact Hk. cbn [wrapping].
  unfold config_after.
  set (cache := cacheWorkspaces sk pk (Workspaces (Data loginResp))).
  destruct (decide (0 < size cache)) as [Hsize|Hsize]; [|reflexivity].
  unfold bindM at 1, wrappingM at 1, on_disk at 1. cbn [disk keychain rand].
  rewrite StoreWorkspaceCache_writable
    by now apply writable_write_tokens, writable_write_config.
  cbn [wrapping]. unfold on_disk. cbn [disk keychain rand].
  rewrite stored_config_write_tokens, stored_config_write_config by exact Hh.
  cbn [config.Email config.SelectedWorkspaceID].
  change (write_config (write_tokens (write_config d ?c0) ?t) ?c)
    with (write_config (write_tokens d t) c).
  rewrite selectDefaultWorkspace_writable by now apply writable_write_tokens.
  reflexivity.
Qed.


(** *** The default workspace *)


Lemma selected_kept (range1 range2 : MapOrder)
    (cache : gmap string config.WorkspaceCacheEntry) (before : string) :
  before <> "" -> selected range1 range2 cache before = before.
Proof. intros Hb. unfold selected. now rewrite decide_False. Qed.

Lemma first_personal_is_personal (entries : list (string * config.WorkspaceCacheEntry)) :
  first_personal entries <> "" ->
  exists entry, (first_personal entries, entry) ∈ entries
                /\ config.Type_ entry = "personal".
Proof.
  unfold first_personal.
  destruct (List.find _ entries) as [[id entry]|] eqn:Hfind; [|congruence].
  intros _. apply find_some in Hfind as [Hin Hty]. cbn [snd] in Hty.
  exists entry. split; [now apply list_elem_of_In|].
  now apply String.eqb_eq in Hty.
Qed.

Lemma selected_personal (range1 range2 : MapOrder)
    (cache : gmap string config.WorkspaceCacheEntry) :
  valid_order range1 ->
  first_personal (range1 cache) <> "" ->
  exists entry, cache !! selected range1 range2 cache "" = Some entry
                /\ config.Type_ entry = "personal".
Proof.
  intros Hr Hne. unfold selected.
  rewrite decide_True by reflexivity. rewrite decide_False by exact Hne.
  destruct (first_personal_is_personal _ Hne) as (entry & Hin & Hty).
  exists entry. split; [|exact Hty].
  apply elem_of_map_to_list. now rewrite <- (Hr cache).
Qed.

(** With one personal workspace in the cache, of a non-empty identifier,
    the selection is that workspace under every order. *)
Lemma selected_only_personal (range1 range2 : MapOrder)
    (cache : gmap string config.WorkspaceCacheEntry) (id : string)
    (entry : config.WorkspaceCacheEntry) :
  valid_order range1 ->
  cache !! id = Some entry -> config.Type_ entry = "personal" -> id <> "" ->
  (forall id' entry', cache !! id' = Some entry' ->
                      config.Type_ entry' = "personal" -> id' = id) ->
  selected range1 range2 cache "" = id.
Proof.
  intros Hr Hid Hty Hne Honly. unfold selected, first_personal.
  rewrite decide_True by reflexivity.
  destruct (List.find _ (range1 cache)) as [[id' entry']|] eqn:Hfind.
  - apply find_some in Hfind as [Hin Hty']. cbn [snd] in Hty'.
    apply String.eqb_eq in Hty'.
    apply list_elem_of_In in Hin. rewrite (Hr cache) in Hin.
    apply elem_of_map_to_list in Hin.
    rewrite (Honly id' entry' Hin Hty'). now rewrite decide_False.
  - exfalso.
    assert ((id, entry) ∈ range1 cache) as Hin
      by (rewrite (Hr cache); now apply elem_of_map_to_list).
    apply list_elem_of_In in Hin.
    apply (find_none _ _ Hfind) in Hin. cbn [snd] in Hin.
    rewrite Hty in Hin. discriminate Hin.
Qed.

End Login.

(** ** Scenarios *)


Section LoginScenarios.
Context {L : CryptoLib}.
Import auth.

Lemma server_answers (loginResp : loginResponse) (email password : string) :
  login_answered (Scenario.server loginResp) email password loginResp.
Proof. eexists. repeat split. Qed.

Lemma writable_fresh_disk : writable Scenario.fresh_disk.
Proof. split; [now exists "/home/dev" | reflexivity]. Qed.

Lemma writable_used_disk : writable Scenario.used_disk.
Proof. split; [now exists "/home/dev" | reflexivity]. Qed.

Lemma cacheEntry_sealed (id type : string) :
  cacheEntry Examples.zeroKey (scalar_base_mult Examples.zeroKey) (Scenario.sealed id type)
  = Some (id, Scenario.sealed_entry id type).
Proof.
  unfold cacheEntry, Scenario.sealed. cbn [EncryptedWorkspaceKey ID Name Role Type_].
  rewrite base64_DecodeString_EncodeToString.
  rewrite DecryptFromUser_sealed by reflexivity. reflexivity.
Qed.

Lemma cacheEntry_corrupted (sk pk : list byte) :
  cacheEntry sk pk Scenario.corrupted = None.
Proof. reflexivity. Qed.

(** C6 at a response with two shared workspaces and no workspace selected
    before: both orders below are orders Go may give the second loop, and
    the login selects "ws-a" under one and "ws-b" under the other. *)
Theorem default_workspace_depends_on_map_order :
  let sk := Examples.zeroKey in
  let pk := scalar_base_mult sk in
  let loginResp :=
    Scenario.response [Scenario.sealed "ws-a" "shared"; Scenario.sealed "ws-b" "shared"] in
  let login range2 :=
    PerformLogin map_to_list range2 (Scenario.server loginResp)
      "dev@example.com" "correct-horse-battery" (Some sk) pk
      (Scenario.world Scenario.fresh_disk Scenario.empty_keychain) in
  valid_order map_to_list
  /\ valid_order (fun m => reverse (map_to_list m))
  /\ fst (login map_to_list) = Ok tt
  /\ fst (login (fun m => reverse (map_to_list m))) = Ok tt
  /\ config.GetSelectedWorkspaceID (disk (snd (login map_to_list))) = "ws-a"
  /\ config.GetSelectedWorkspaceID
       (disk (snd (login (fun m => reverse (map_to_list m))))) = "ws-b".
Proof.
  intros sk pk loginResp login.
  assert (cacheWorkspaces sk pk (Workspaces (Data loginResp))
          = <["ws-b" := Scenario.sealed_entry "ws-b" "shared"]>
              (<["ws-a" := Scenario.sealed_entry "ws-a" "shared"]> ∅)) as Hcache.
  { rewrite cacheWorkspaces_foldl. cbn [loginResp Scenario.response Data Workspaces foldl].
    unfold cacheStep. now rewrite !cacheEntry_sealed. }
  assert (forall range2,
            login range2
            = (Ok tt, world_after map_to_list range2 "dev@example.com" loginResp sk pk
                        (Scenario.world Scenario.fresh_disk Scenario.empty_keychain)))
    as Hlogin.
  { intros range2. apply PerformLogin_completes.
    - apply server_answers.
    - reflexivity.
    - apply writable_fresh_disk.
    - reflexivity. }
  split; [intros m; reflexivity|].
  split; [intros m; apply reverse_Permutation|].
  rewrite !Hlogin. cbn [fst snd]. split; [reflexivity|]. split; [reflexivity|].
  rewrite !GetSelectedWorkspaceID_stored. unfold world_after. cbn [disk].
  rewrite !stored_config_write_tokens.
  rewrite !stored_config_write_config by now exists "/home/dev".
  rewrite Hcache. split; vm_compute; reflexivity.
Qed.

End LoginScenarios.


(** ** Credentials *)

Section Credentials.
Context {L : CryptoLib}.
Import auth.



(** A call of the transport leaves the files as they are, and it returns:
    it does not panic. *)
Lemma Call_disk {B : Type} (c : api.Client B) (endpointKey method : string)
    (data : option (list (string * http.value))) (d : config.Disk) :
  snd (api.Call c endpointKey method data d) = d
  /\ forall msg, fst (api.Call c endpointKey method data d) <> Panic msg.
Proof.
  unfold api.Call, bindM, lift.
  destruct (api.resolveEndpoint endpointKey) as [path|e|msg] eqn:E; cbn [fst snd].
  - split; [reflexivity|]. intros msg. destruct (api.HTTPClient_Do c _); discriminate.
  - split; [reflexivity | discriminate].
  - unfold api.resolveEndpoint in E.
    destruct (api.SplitN2 endpointKey) as [[category action]|]; [|discriminate].
    destruct (api.lookup_assoc category api.endpointMap); [|discriminate].
    destruct (api.lookup_assoc action l); discriminate.
Qed.










End Credentials.


(** ** Logout *)

Section LogoutProperties.
Import auth.

(** DeleteKeypair always returns success; on a keychain that can be reached
    the two entries of the email are gone, on one that cannot nothing is
    deleted. *)
Lemma DeleteKeypair_returns (email : string) (k : gokeyring.Keychain) :
  exists k',
    keyring.DeleteKeypair email k = (Ok tt, k')
    /\ (gokeyring.unavailable k = None ->
        gokeyring.secrets k'
        = delete (keyring.serviceName, email +:+ "_public_key")
            (delete (keyring.serviceName, email +:+ "_private_key") (gokeyring.secrets k)))
    /\ (gokeyring.unavailable k <> None -> k' = k).
Proof.
  destruct k as [m u].
  unfold keyring.DeleteKeypair, bindM, discard, ret, gokeyring.Delete.
  cbn [gokeyring.unavailable gokeyring.secrets].
  destruct u as [e|].
  - eexists. split; [reflexivity|]. split; [discriminate|reflexivity].
  - destruct (m !! (keyring.serviceName, email +:+ "_private_key")) as [s1|] eqn:H1;
      cbn [gokeyring.unavailable gokeyring.secrets].
    + destruct (delete (keyring.serviceName, email +:+ "_private_key") m
                  !! (keyring.serviceName, email +:+ "_public_key")) as [s2|] eqn:H2;
        (eexists; split; [reflexivity|]; split; [intros _|congruence]);
        cbn [gokeyring.secrets]; [reflexivity|].
      now rewrite (delete_id _ _ H2).
    + rewrite (delete_id _ _ H1).
      destruct (m !! (keyring.serviceName, email +:+ "_public_key")) as [s2|] eqn:H2;
        (eexists; split; [reflexivity|]; split; [intros _|congruence]);
        cbn [gokeyring.secrets]; [reflexivity|].
      now rewrite (delete_id _ _ H2).
Qed.

Lemma ClearSession_writable (d : config.Disk) :
  writable d ->
  config.ClearSession d
  = (Ok tt, write_tokens (write_config d config.GlobalConfig_zero) config.TokenConfig_zero).
Proof.
  intros [[home Hh] Hw]. unfold config.ClearSession.
  unfold bindM at 1. rewrite (GetPaths_home d home Hh).
  unfold bindM, config.writeJSON, ret.
  rewrite Hw. cbn [config.WriteFile_error]. rewrite Hw. reflexivity.
Qed.

(** When ClearSession returns no error both files hold zero values. *)
Lemma ClearSession_Ok_inv (d d' : config.Disk) :
  config.ClearSession d = (Ok tt, d') ->
  d' = write_tokens (write_config d config.GlobalConfig_zero) config.TokenConfig_zero
  /\ exists home, config.HomeDirHook d = inl home.
Proof.
  unfold config.ClearSession. intros E.
  apply bindM_Ok_inv in E as (paths & d1 & Hp & E).
  destruct (config.HomeDirHook d) as [home|e] eqn:Hh;
    [rewrite (GetPaths_home d home Hh) in Hp
    |rewrite (GetPaths_error d e Hh) in Hp; discriminate Hp].
  injection Hp as <- <-.
  apply bindM_Ok_inv in E as ([] & d2 & Hc & E).
  unfold config.writeJSON in Hc.
  destruct (config.WriteFile_error d _); [discriminate Hc|]. injection Hc as <-.
  apply bindM_Ok_inv in E as ([] & d3 & Ht & E).
  unfold config.writeJSON in Ht. cbn [config.WriteFile_error] in Ht.
  destruct (config.WriteFile_error d _); [discriminate Ht|]. injection Ht as <-.
  unfold ret in E. injection E as <-. split; [reflexivity|eauto].
Qed.

(** The answer of the transport to the logout request is dropped: the
    call leaves the state as it is, whatever the transport answers. *)
Lemma Logout_call_dropped (s : Service) (w : World) :
  discard (on_disk (api.Call (API s) "auth.logout" "POST" None)) w = (Ok tt, w).
Proof.
  destruct w as [d k g]. unfold discard, on_disk. cbn [disk keychain rand].
  pose proof (Call_disk (API s) "auth.logout" "POST" None d) as [Hd Hp].
  destruct (api.Call (API s) "auth.logout" "POST" None d) as [r d1].
  cbn [fst snd] in Hd, Hp. subst d1.
  destruct r as [resp|e|msg]; [reflexivity|reflexivity|now destruct (Hp msg)].
Qed.

Lemma Logout_any_transport (s s' : Service) (w : World) :
  Logout s' w = Logout s w.
Proof.
  unfold Logout, bindM at 1 3. now rewrite !Logout_call_dropped.
Qed.

(** The request of Logout goes to the transport, whatever it answers. *)
Lemma Call_traced_logout (s : Service) (d : config.Disk) (sent : list http.Request) :
  api.Call_traced (API s) "auth.logout" "POST" None (d, sent)
  = (answer (api.HTTPClient_Do (API s) (logoutRequest s d)),
     (d, sent ++ [logoutRequest s d])).
Proof. reflexivity. Qed.

Lemma Logout_traced_call (s : Service) (w : World) (sent : list http.Request) :
  discard (on_transport (api.Call_traced (API s) "auth.logout" "POST" None)) (w, sent)
  = (Ok tt, (w, sent ++ [logoutRequest s (disk w)])).
Proof.
  destruct w as [d k g]. unfold discard, on_transport. cbn [disk keychain rand].
  rewrite Call_traced_logout.
  now destruct (api.HTTPClient_Do (API s) (logoutRequest s d)).
Qed.

Lemma on_world_bindM {A B : Type} (m : M World A) (k : A -> M World B)
    (w : World) (sent : list http.Request) :
  bindM (on_world m) (fun a => on_world (k a)) (w, sent)
  = on_world (bindM m k) (w, sent).
Proof.
  unfold bindM, on_world. destruct (m w) as [[a|e|msg] w1]; reflexivity.
Qed.

Lemma on_world_discard {A : Type} (m : M World A) (w : World)
    (sent : list http.Request) :
  discard (on_world m) (w, sent) = on_world (discard m) (w, sent).
Proof.
  unfold discard, on_world. destruct (m w) as [[a|e|msg] w1]; reflexivity.
Qed.

(** Logout with the trace is Logout, and its one request added to the
    trace. *)
Lemma Logout_traced_sends (s : Service) (w : World) (sent : list http.Request) :
  Logout_traced s (w, sent)
  = (fst (Logout s w), (snd (Logout s w), sent ++ [logoutRequest s (disk w)])).
Proof.
  set (email := config.GetEmail (disk w)).
  set (rest := bindM (if decide (email <> "")
                      then discard (on_keychain (keyring.DeleteKeypair email))
                      else ret tt)
                 (fun _ => on_disk config.ClearSession)).
  assert (Logout s w = rest w) as ->
    by (unfold Logout, bindM at 1; now rewrite Logout_call_dropped).
  unfold Logout_traced, bindM at 1. rewrite Logout_traced_call. fold email.
  transitivity (on_world rest (w, sent ++ [logoutRequest s (disk w)])).
  - unfold rest. rewrite <- on_world_bindM. unfold bindM.
    destruct (decide (email <> "")); [now rewrite on_world_discard|reflexivity].
  - unfold on_world. now destruct (rest w).
Qed.

(** C9, as the code has it.  Logout returns what ClearSession returns,
    whatever the transport and the keychain do: no error when the two files
    can be rewritten.  The transport is notified, best effort: Logout hands
    it one request, a POST to auth/logout/ with the access token of the
    session, and drops the answer, so that under any other transport Logout
    returns the same and leaves the same.  DeleteKeypair always returns
    success.  The key pair of the stored email is deleted when a non-empty
    email is stored (and the keychain can be reached); with no stored email
    the keychain is left as it is.  When Logout returns no error the
    session is cleared: email, tokens, workspace cache and selected
    workspace are reset. *)
Theorem Logout_returns_what_ClearSession_returns (s : Service) (w : World) :
  exists k',
    Logout s w
    = (fst (config.ClearSession (disk w)),
       {| disk := snd (config.ClearSession (disk w)); keychain := k'; rand := rand w |})
    /\ (forall email k, exists k0, keyring.DeleteKeypair email k = (Ok tt, k0))
    /\ (config.GetEmail (disk w) = "" -> k' = keychain w)
    /\ (config.GetEmail (disk w) <> "" ->
        gokeyring.unavailable (keychain w) = None ->
        gokeyring.secrets k'
        = delete (keyring.serviceName, config.GetEmail (disk w) +:+ "_public_key")
            (delete (keyring.serviceName, config.GetEmail (disk w) +:+ "_private_key")
               (gokeyring.secrets (keychain w))))
    /\ (writable (disk w) -> fst (config.ClearSession (disk w)) = Ok tt)
    /\ (fst (config.ClearSession (disk w)) = Ok tt ->
        let d' := snd (config.ClearSession (disk w)) in
        stored_config d' = config.GlobalConfig_zero
        /\ stored_tokens d' = config.TokenConfig_zero
        /\ config.GetEmail d' = "" /\ config.GetAccessToken d' = ""
        /\ config.GetSelectedWorkspaceID d' = ""
        /\ config.IsAuthenticated d' = false)
    /\ (forall s' : Service, Logout s' w = Logout s w)
    /\ (forall sent : list http.Request,
          Logout_traced s (w, sent)
          = (fst (Logout s w),
             (snd (Logout s w),
              sent ++ [{| http.Method := "POST";
                          http.URL := api.BaseURL (API s) +:+ "/auth/logout/";
                          http.ContentType := "application/json";
                          http.Authorization :=
                            match api.getToken (API s) with
                            | None => None
                            | Some tokenFunc =>
                                if decide (tokenFunc (disk w) = "") then None
                                else Some ("Bearer " +:+ tokenFunc (disk w))
                            end;
                          http.Data := None |}]))).
Proof.
  destruct w as [d k g]. cbn [disk keychain rand].
  set (email := config.GetEmail d).
  assert (exists k',
            (if decide (email <> "")
             then discard (on_keychain (keyring.DeleteKeypair email))
             else ret tt) {| disk := d; keychain := k; rand := g |}
            = (Ok tt, {| disk := d; keychain := k'; rand := g |})
            /\ (email = "" -> k' = k)
            /\ (email <> "" -> gokeyring.unavailable k = None ->
                gokeyring.secrets k'
                = delete (keyring.serviceName, email +:+ "_public_key")
                    (delete (keyring.serviceName, email +:+ "_private_key")
                       (gokeyring.secrets k)))) as (k' & Hdel & Hsame & Hgone).
  { destruct (decide (email <> "")) as [Hne|He].
    - destruct (DeleteKeypair_returns email k) as (k' & Hk & Hgone & _).
      exists k'. unfold discard, on_keychain. cbn [keychain disk rand]. rewrite Hk.
      split; [reflexivity|]. split; [contradiction|auto].
    - exists k. split; [reflexivity|]. split; [reflexivity|contradiction]. }
  exists k'. split.
  - unfold Logout. cbn [disk]. fold email.
    unfold bindM at 1, discard at 1, on_disk at 1. cbn [disk keychain rand].
    pose proof (Call_disk (API s) "auth.logout" "POST" None d) as [Hd Hp].
    destruct (api.Call (API s) "auth.logout" "POST" None d) as [r d1].
    cbn [fst snd] in Hd, Hp. subst d1.
    destruct r as [resp|e|msg]; [| |now destruct (Hp msg)];
      (cbv beta iota; unfold bindM at 1; rewrite Hdel;
       unfold on_disk; cbn [disk keychain rand];
       destruct (config.ClearSession d) as [r' d']; reflexivity).
  - split; [intros e k0; destruct (DeleteKeypair_returns e k0) as (k1 & Hk1 & _); eauto|].
    split; [exact Hsame|]. split; [exact Hgone|].
    split; [intros Hw; now rewrite ClearSession_writable|].
    split; [|split; [intros s'; apply Logout_any_transport
                    |intros sent; apply Logout_traced_sends]].
    intros Hok. destruct (config.ClearSession d) as [r' d'] eqn:Hclear.
    cbn [fst snd] in *. subst r'.
    apply ClearSession_Ok_inv in Hclear as [-> Hh]. cbv zeta.
    assert (stored_config
              (write_tokens (write_config d config.GlobalConfig_zero) config.TokenConfig_zero)
            = config.GlobalConfig_zero) as Hc
      by (now rewrite stored_config_write_tokens, stored_config_write_config).
    assert (stored_tokens
              (write_tokens (write_config d config.GlobalConfig_zero) config.TokenConfig_zero)
            = config.TokenConfig_zero) as Ht
      by (now rewrite stored_tokens_write_tokens).
    unfold config.IsAuthenticated.
    rewrite GetEmail_stored, GetAccessToken_stored, GetSelectedWorkspaceID_stored, Hc, Ht.
    repeat split.
Qed.

End LogoutProperties.

(** C9, as stated, fails: Logout returns the error of ClearSession when the
    files cannot be written; and with no email stored it deletes no key
    pair. *)
Lemma logout_can_fail_and_can_keep_keys :
  (~ forall (s : auth.Service) (w : auth.World),
       exists w', auth.Logout s w = (Ok tt, w'))
  /\ (~ forall (s : auth.Service) (w w' : auth.World) (r : result unit) (email : string),
          gokeyring.unavailable (auth.keychain w) = None ->
          auth.Logout s w = (r, w') ->
          gokeyring.secrets (auth.keychain w')
            !! (keyring.serviceName, email +:+ "_private_key") = None).
Proof.
  split.
  - intros Hclaim.
    destruct (Hclaim (Scenario.server (Scenario.response []))
                (Scenario.world Scenario.read_only_disk Scenario.used_keychain))
      as [w' Hw'].
    vm_compute in Hw'. discriminate Hw'.
  - intros Hclaim.
    specialize (Hclaim (Scenario.server (Scenario.response []))
                  (Scenario.world Scenario.damaged_disk Scenario.used_keychain)
                  _ _ "old@example.com" eq_refl eq_refl).
    vm_compute in Hclaim. discriminate Hclaim.
Qed.

Example logout_on_read_only_files :
  fst (auth.Logout (Scenario.server (Scenario.response []))
         (Scenario.world Scenario.read_only_disk Scenario.used_keychain))
  = Err (Errorf_w "failed to write /home/dev/.agentsecrets/config.json"
           (SyscallError "permission denied")).
Proof. vm_compute. reflexivity. Qed.

(** ** Examples of login on the reference implementation *)

Section LoginExamples.
#[local] Existing Instance Reference.lib.


(** The login above replaces the cache of the session before by the one
    valid workspace. *)
Example login_replaces_old_cache :
  let loginResp :=
    Scenario.response [Scenario.sealed "ws-a" "personal"; Scenario.corrupted] in
  let w := Scenario.world Scenario.used_disk Scenario.used_keychain in
  let w' := snd (auth.PerformLogin map_to_list map_to_list (Scenario.server loginResp)
                   "dev@example.com" "correct-horse-battery"
                   (Some Examples.zeroKey) (scalar_base_mult Examples.zeroKey) w) in
  config.Workspaces (stored_config (auth.disk w'))
  = {[ "ws-a" := Scenario.sealed_entry "ws-a" "personal" ]}
  /\ config.GetEmail (auth.disk w') = "dev@example.com"
  /\ config.GetSelectedWorkspaceID (auth.disk w') = "ws-old".
Proof. vm_compute. repeat split. Qed.

(** A login with no valid workspace leaves the cache of the session before
    in place, under the new email. *)
Example login_keeps_old_cache :
  let loginResp := Scenario.response [Scenario.corrupted] in
  let w := Scenario.world Scenario.used_disk Scenario.used_keychain in
  let w' := snd (auth.PerformLogin map_to_list map_to_list (Scenario.server loginResp)
                   "dev@example.com" "correct-horse-battery"
                   (Some Examples.zeroKey) (scalar_base_mult Examples.zeroKey) w) in
  config.Workspaces (stored_config (auth.disk w')) = {[ "ws-old" := Scenario.old_entry ]}
  /\ config.GetEmail (auth.disk w') = "dev@example.com".
Proof. vm_compute. repeat split. Qed.

(** The login flow: the key pair comes from the response, the private key
    decrypted under the password; under another password the login fails
    and nothing is written. *)
Example login_flow :
  let blob := Examples.encrypted Examples.encryptedZeroKey in
  let sk := Examples.zeroKey in
  let pk := scalar_base_mult sk in
  let loginResp :=
    Scenario.keyed_response (fst blob) (snd blob) (base64.EncodeToString pk)
      [Scenario.sealed "ws-a" "personal"; Scenario.corrupted] in
  let w := Scenario.world Scenario.fresh_disk Scenario.empty_keychain in
  auth.resolveKeypair loginResp "correct-horse-battery" None [] = Ok (sk, pk)
  /\ auth.PerformLogin map_to_list map_to_list (Scenario.server loginResp)
       "dev@example.com" "correct-horse-battery" None [] w
     = (Ok tt, world_after map_to_list map_to_list "dev@example.com" loginResp sk pk w)
  /\ auth.PerformLogin map_to_list map_to_list (Scenario.server loginResp)
       "dev@example.com" "wrong-password" None [] w
     = (Err (Errorf_w "login"
               (Errorf_w "failed to decrypt private key (wrong password?)" errOpen)),
        w).
Proof. vm_compute. repeat split. Qed.


(** The login flow: against a response that carries the private key
    encrypted under one password, two other passwords are refused alike,
    with the same error and nothing written. *)
Example two_wrong_passwords_one_outcome :
  let blob := Examples.encrypted Examples.encryptedZeroKey in
  let pk := scalar_base_mult Examples.zeroKey in
  let loginResp :=
    Scenario.keyed_response (fst blob) (snd blob) (base64.EncodeToString pk) [] in
  let s := Scenario.server loginResp in
  let w := Scenario.world Scenario.fresh_disk Scenario.empty_keychain in
  auth.resolveKeypair loginResp "wrong-password" None []
  = auth.resolveKeypair loginResp "another-password" None []
  /\ auth.PerformLogin map_to_list map_to_list s "dev@example.com" "wrong-password"
       None [] w
     = auth.PerformLogin map_to_list map_to_list s "dev@example.com" "another-password"
         None [] w
  /\ auth.PerformLogin map_to_list map_to_list s "dev@example.com" "wrong-password"
       None [] w
     = (Err (Errorf_w "login"
               (Errorf_w "failed to decrypt private key (wrong password?)" errOpen)),
        w).
Proof. vm_compute. repeat split. Qed.

End LoginExamples.

(* ================================================================== *)
(** * Part XII. Further properties of the code *)
(* ================================================================== *)

(** ** Strings and bytes *)

Lemma bytes_of_string_app (a b : string) :
  bytes_of_string (a +:+ b) = bytes_of_string a ++ bytes_of_string b.
Proof.
  unfold bytes_of_string. induction a as [|c a IH]; [reflexivity|].
  change (list_ascii_of_string (String c (a +:+ b))
          = c :: list_ascii_of_string a ++ list_ascii_of_string b).
  cbn [list_ascii_of_string]. now rewrite IH.
Qed.

Lemma string_of_bytes_app (a b : list byte) :
  string_of_bytes (a ++ b) = string_of_bytes a +:+ string_of_bytes b.
Proof.
  rewrite <- (string_of_bytes_of_string (string_of_bytes a +:+ string_of_bytes b)).
  now rewrite bytes_of_string_app, !bytes_of_string_of_bytes.
Qed.

Lemma string_app_assoc (a b c : string) : (a +:+ b) +:+ c = a +:+ (b +:+ c).
Proof.
  rewrite <- (string_of_bytes_of_string ((a +:+ b) +:+ c)),
    <- (string_of_bytes_of_string (a +:+ (b +:+ c))).
  now rewrite !bytes_of_string_app, app_assoc.
Qed.

(** ** Package crypto: key generation and the sizes of keys *)

Section CryptoProperties.
Context {L : CryptoLib}.

Lemma hex_EncodeToString_is_hex (src : list byte) :
  is_hex_string (hex.EncodeToString src) = true
  /\ String.length (hex.EncodeToString src) = 2 * length src.
Proof.
  pose proof (hex_DecodeString_cases (hex.EncodeToString src)) as H.
  rewrite hex_DecodeString_EncodeToString in H.
  destruct (is_hex_string (hex.EncodeToString src)).
  - destruct H as (dst & [= <-] & Hlen). auto.
  - destruct H as (e & He). discriminate He.
Qed.

Lemma base64_DecodeString_no_panic (s msg : string) :
  base64.DecodeString s <> Panic msg.
Proof. apply base64_decode_no_panic. Qed.

Lemma hex_DecodeString_no_panic (s msg : string) :
  hex.DecodeString s <> Panic msg.
Proof.
  pose proof (hex_DecodeString_cases s) as H.
  destruct (is_hex_string s).
  - destruct H as (dst & -> & _). discriminate.
  - destruct H as (e & ->). discriminate.
Qed.

(** What SetupUser returns, when it returns: the private key, the salt and
    the nonce are the next 32, 32 and 12 bytes of the entropy source. *)
Lemma SetupUser_Ok_inv (password : string) (r r' : io.Reader) (keys : crypto.UserKeys) :
  crypto.SetupUser password r = (Ok keys, r') ->
  exists sk salt nonce,
    r = sk ++ salt ++ nonce ++ r'
    /\ length sk = 32 /\ length salt = 32 /\ length nonce = 12
    /\ keys = {| crypto.PrivateKey := sk;
                 crypto.PublicKey := scalar_base_mult sk;
                 crypto.EncryptedPrivateKey :=
                   base64.EncodeToString
                     (nonce ++ gcm_seal (derivedKey password salt) nonce sk []);
                 crypto.Salt := hex.EncodeToString salt |}.
Proof.
  unfold crypto.SetupUser. intros E.
  apply bindM_Ok_inv in E as ([sk pk] & r1 & Hgen & E).
  apply wrappingM_Ok_inv, GenerateKeypair_Ok_inv in Hgen as (Hsk & -> & ->).
  apply bindM_Ok_inv in E as ([c s] & r2 & Henc & E).
  apply wrappingM_Ok_inv, EncryptPrivateKey_Ok_inv in Henc
    as (salt & nonce & -> & Hs & Hn & _ & -> & ->).
  unfold ret in E. injection E as <- <-.
  exists sk, salt, nonce. auto.
Qed.

Lemma SetupUser_returns (password : string) (sk salt nonce r' : list byte) :
  length sk = 32 -> length salt = 32 -> length nonce = 12 ->
  crypto.SetupUser password (sk ++ salt ++ nonce ++ r')
  = (Ok {| crypto.PrivateKey := sk;
           crypto.PublicKey := scalar_base_mult sk;
           crypto.EncryptedPrivateKey :=
             base64.EncodeToString
               (nonce ++ gcm_seal (derivedKey password salt) nonce sk []);
           crypto.Salt := hex.EncodeToString salt |}, r').
Proof.
  intros Hsk Hs Hn. unfold crypto.SetupUser.
  unfold bindM at 1, wrappingM at 1. rewrite GenerateKeypair_returns by exact Hsk.
  cbn [wrapping]. unfold bindM, wrappingM.
  rewrite EncryptPrivateKey_returns; auto.
  rewrite Hsk. vm_compute. discriminate.
Qed.

(** X1.  SetupUser returns exactly when the entropy source yields 76 bytes,
    and what it returns can be recovered: the keys have 32 bytes, the salt
    is 64 hexadecimal digits, the entropy source has moved by 76 bytes, and
    DecryptPrivateKey under the same password and the returned salt gives
    the private key back. *)
Theorem SetupUser_recoverable (password : string) (r : io.Reader) :
  (76 <= length r <-> exists keys r', crypto.SetupUser password r = (Ok keys, r'))
  /\ forall keys r',
       crypto.SetupUser password r = (Ok keys, r') ->
       length (crypto.PrivateKey keys) = 32
       /\ length (crypto.PublicKey keys) = 32
       /\ is_hex_string (crypto.Salt keys) = true
       /\ String.length (crypto.Salt keys) = 64
       /\ length r = 76 + length r'
       /\ crypto.DecryptPrivateKey (crypto.EncryptedPrivateKey keys) password
            (crypto.Salt keys) = Ok (crypto.PrivateKey keys).
Proof.
  split; [split|].
  - intros Hr.
    rewrite <- (take_drop 32 r), <- (take_drop 32 (drop 32 r)),
      <- (take_drop 12 (drop 32 (drop 32 r))).
    eexists. eexists. apply SetupUser_returns;
      rewrite length_take, ?length_drop; lia.
  - intros (keys & r' & E).
    apply SetupUser_Ok_inv in E as (sk & salt & nonce & -> & Hsk & Hs & Hn & _).
    rewrite !length_app. lia.
  - intros keys r' E.
    apply SetupUser_Ok_inv in E as (sk & salt & nonce & -> & Hsk & Hs & Hn & ->).
    cbn [crypto.PrivateKey crypto.PublicKey crypto.Salt crypto.EncryptedPrivateKey].
    destruct (hex_EncodeToString_is_hex salt) as [Hhex Hlen].
    repeat split; auto.
    + apply scalar_base_mult_length.
    + rewrite Hlen, Hs. reflexivity.
    + rewrite !length_app. lia.
    + rewrite DecryptPrivateKey_tag by exact Hn.
      rewrite gcm_open_seal; auto.
      * right; right. apply derivedKey_length.
      * rewrite Hsk. vm_compute. discriminate.
Qed.

(** X2.  EncryptSecret and DecryptSecret take a key of 16, 24 or 32 bytes,
    and the secret comes back under each; a key of any other size is
    refused with the error of aes.NewCipher, by EncryptSecret, which has
    then read no entropy, and by DecryptSecret once its two strings
    decode. *)
Theorem secret_key_sizes (v : string) (K : list byte) (r : io.Reader) :
  (length K = 16 \/ length K = 24 \/ length K = 32 ->
   forall r' c n,
     crypto.EncryptSecret v K r = (Ok (c, n), r') ->
     crypto.DecryptSecret c n K = Ok v)
  /\ (~ (length K = 16 \/ length K = 24 \/ length K = 32) ->
      let e := Errorf_w "failed to create cipher" (KeySizeError (N.of_nat (length K))) in
      crypto.EncryptSecret v K r = (Err e, r)
      /\ forall c n ciphertext nonce,
           base64.DecodeString c = Ok ciphertext ->
           base64.DecodeString n = Ok nonce ->
           crypto.DecryptSecret c n K = Err e).
Proof.
  split.
  - intros HK r' c n E.
    apply EncryptSecret_Ok_inv in E as (nonce & _ & Hn & _ & Hmax & -> & ->).
    rewrite DecryptSecret_tag by assumption.
    rewrite gcm_open_seal; auto.
    + now rewrite string_of_bytes_of_string.
    + now rewrite length_bytes_of_string.
  - intros HK e. split.
    + unfold crypto.EncryptSecret, bindM at 1, lift, aes.NewCipher.
      now rewrite decide_False by exact HK.
    + intros c n ciphertext nonce Hc Hn.
      unfold crypto.DecryptSecret. rewrite Hc, Hn. cbn [wrapping bind].
      unfold aes.NewCipher. now rewrite decide_False by exact HK.
Qed.

(** X3.  DecryptSecret has a run-time panic, and it is this one: both
    strings decode, the key has an AES size, and the decoded nonce does not
    have 12 bytes; cipher.Open then panics on the nonce, where an error was
    to be returned. *)
Theorem DecryptSecret_panics_on_nonce_length (c n : string) (key : list byte) :
  (exists msg, crypto.DecryptSecret c n key = Panic msg)
  <-> exists ciphertext nonce,
        base64.DecodeString c = Ok ciphertext
        /\ base64.DecodeString n = Ok nonce
        /\ (length key = 16 \/ length key = 24 \/ length key = 32)
        /\ length nonce <> 12.
Proof.
  split.
  - intros [msg E]. unfold crypto.DecryptSecret in E.
    destruct (base64.DecodeString c) as [ciphertext|e|m] eqn:Hc;
      [|discriminate E|now destruct (base64_DecodeString_no_panic c m)].
    destruct (base64.DecodeString n) as [nonce|e|m] eqn:Hn;
      [|discriminate E|now destruct (base64_DecodeString_no_panic n m)].
    cbn [wrapping bind] in E. unfold aes.NewCipher in E.
    destruct (decide (length key = 16 \/ length key = 24 \/ length key = 32))
      as [Hk|Hk]; [|discriminate E].
    cbn [wrapping bind cipher.NewGCM] in E. unfold cipher.Open in E.
    destruct (decide (length nonce = 12)) as [H12|H12].
    + destruct (gcm_open key nonce ciphertext []); discriminate E.
    + exists ciphertext, nonce. auto.
  - intros (ciphertext & nonce & Hc & Hn & Hk & H12).
    rewrite (DecryptSecret_decoded c n key ciphertext nonce Hc Hn Hk).
    rewrite decide_False by exact H12. eauto.
Qed.

(** X4.  DecryptPrivateKey has no run-time panic and no failure of the
    cipher set-up: on every input it returns bytes or one of four errors,
    checked in this order: the ciphertext is not base64, the salt is not
    hexadecimal, the ciphertext is shorter than a nonce, the tag does not
    verify. *)
Theorem DecryptPrivateKey_returns_or_fails (c password s : string) :
  (exists K, crypto.DecryptPrivateKey c password s = Ok K)
  \/ exists e,
       crypto.DecryptPrivateKey c password s = Err e
       /\ ((exists e0, base64.DecodeString c = Err e0
                       /\ e = Errorf_w "failed to decode encrypted private key" e0)
           \/ (exists ciphertext e0,
                 base64.DecodeString c = Ok ciphertext
                 /\ hex.DecodeString s = Err e0
                 /\ e = Errorf_w "invalid salt hex" e0)
           \/ (exists ciphertext salt,
                 base64.DecodeString c = Ok ciphertext
                 /\ hex.DecodeString s = Ok salt
                 /\ length ciphertext < 12
                 /\ e = Errorf "ciphertext too short")
           \/ (exists ciphertext salt,
                 base64.DecodeString c = Ok ciphertext
                 /\ hex.DecodeString s = Ok salt
                 /\ 12 <= length ciphertext
                 /\ e = Errorf_w "failed to decrypt private key (wrong password?)"
                          errOpen)).
Proof.
  destruct (base64.DecodeString c) as [ciphertext|e0|m] eqn:Hc;
    [| |now destruct (base64_DecodeString_no_panic c m)].
  2:{ right. exists (Errorf_w "failed to decode encrypted private key" e0).
      split; [|left; eauto].
      unfold crypto.DecryptPrivateKey. now rewrite Hc. }
  destruct (hex.DecodeString s) as [salt|e0|m] eqn:Hs;
    [| |now destruct (hex_DecodeString_no_panic s m)].
  2:{ right. exists (Errorf_w "invalid salt hex" e0).
      split; [|right; left; eauto].
      unfold crypto.DecryptPrivateKey, crypto.DeriveKeyFromPassword.
      now rewrite Hc, Hs. }
  destruct (decide (length ciphertext < 12)) as [Hlen|Hlen].
  - right. exists (Errorf "ciphertext too short").
    split; [|right; right; left; exists ciphertext, salt; auto].
    unfold crypto.DecryptPrivateKey, crypto.DeriveKeyFromPassword.
    rewrite Hc, Hs. cbn [wrapping bind]. fold (derivedKey password salt).
    rewrite NewCipher_derivedKey. cbn [wrapping bind cipher.NewGCM].
    unfold cipher.NonceSize. now rewrite decide_True by exact Hlen.
  - rewrite (DecryptPrivateKey_decoded c password s ciphertext salt Hc Hs) by lia.
    destruct (gcm_open _ _ _ _) as [K|]; [left; eauto|].
    right. eexists. split; [reflexivity|].
    right; right; right. exists ciphertext, salt. repeat split; auto. lia.
Qed.

(** X5.  EncryptForUser checks the size of the public key and nothing else:
    a key that does not have 32 bytes is refused before any entropy is
    read; with a key of 32 bytes it seals data of any length, the empty one
    too, with the next 32 bytes of entropy, and what it returns opens under
    the key pair to the data. *)
Theorem EncryptForUser_checks_key_size_only (pk data : list byte) (r : io.Reader) :
  (length pk <> 32 ->
   crypto.EncryptForUser pk data r
   = (Err (Errorf ("invalid public key size: got " +:+ itoa (N.of_nat (length pk))
                   +:+ ", want 32")), r))
  /\ (length pk = 32 ->
      (32 <= length r <-> exists blob r', crypto.EncryptForUser pk data r = (Ok blob, r'))
      /\ forall blob r' sk,
           crypto.EncryptForUser pk data r = (Ok blob, r') ->
           length sk = 32 -> pk = scalar_base_mult sk ->
           length r = 32 + length r'
           /\ crypto.DecryptFromUser sk pk blob = Ok data).
Proof.
  split.
  - intros Hpk. unfold crypto.EncryptForUser, crypto.KeySize.
    now rewrite decide_True by exact Hpk.
  - intros Hpk. split; [split|].
    + intros Hr. rewrite <- (take_drop 32 r). eexists. eexists.
      apply EncryptForUser_returns; [exact Hpk|]. rewrite length_take. lia.
    + intros (blob & r' & E).
      apply EncryptForUser_Ok_inv in E as (_ & esk & Hesk & -> & _).
      rewrite length_app. lia.
    + intros blob r' sk E Hsk ->.
      apply EncryptForUser_Ok_inv in E as (_ & esk & Hesk & -> & ->).
      split; [rewrite length_app; lia|].
      now apply DecryptFromUser_sealed.
Qed.

(** X6.  DecryptFromUser has no run-time panic and two errors: "invalid key
    size" exactly when the private or the public key does not have 32
    bytes, whatever the sealed box, and "failed to decrypt: authentication
    failed" when the box does not open. *)
Theorem DecryptFromUser_errors (sk pk blob : list byte) :
  (crypto.DecryptFromUser sk pk blob = Err (Errorf "invalid key size")
   <-> length sk <> 32 \/ length pk <> 32)
  /\ ((exists data, crypto.DecryptFromUser sk pk blob = Ok data)
      \/ crypto.DecryptFromUser sk pk blob = Err (Errorf "invalid key size")
      \/ crypto.DecryptFromUser sk pk blob
         = Err (Errorf "failed to decrypt: authentication failed")).
Proof.
  unfold crypto.DecryptFromUser, crypto.KeySize.
  destruct (decide (length sk <> 32 \/ length pk <> 32)) as [H|H].
  - split; [tauto|]. right; left. reflexivity.
  - unfold box.OpenAnonymous.
    destruct (sealed_open blob pk sk) as [data|].
    + split; [split; [discriminate|tauto]|]. left. eauto.
    + split; [split; [discriminate|tauto]|]. right; right. reflexivity.
Qed.

Lemma GenerateWorkspaceKey_Ok_inv (r r' : io.Reader) (K : list byte) :
  crypto.GenerateWorkspaceKey r = (Ok K, r') -> length K = 32 /\ r = K ++ r'.
Proof.
  unfold crypto.GenerateWorkspaceKey. intros E.
  apply bindM_Ok_inv in E as (key & r1 & Hk & E).
  apply wrappingM_Ok_inv, ReadFull_Ok_inv in Hk as [Hlen ->].
  unfold ret in E. injection E as <- <-. auto.
Qed.

Lemma GenerateWorkspaceKey_returns (K r' : list byte) :
  length K = 32 -> crypto.GenerateWorkspaceKey (K ++ r') = (Ok K, r').
Proof.
  intros HK. unfold crypto.GenerateWorkspaceKey, bindM, wrappingM, crypto.KeySize, ret.
  now rewrite ReadFull_app.
Qed.

(** X7.  The key hierarchy end to end.  A workspace key drawn by
    GenerateWorkspaceKey has 32 bytes; sealed for the public key of a
    generated key pair it opens under that pair to itself; and a secret
    encrypted under it decrypts under the opened key to the secret.  The
    four calls take 108 bytes of entropy. *)
Theorem key_hierarchy_end_to_end (v : string) (r0 r1 r2 r3 r4 : io.Reader)
    (sk pk K blob : list byte) (c n : string) :
  crypto.GenerateKeypair r0 = (Ok (sk, pk), r1) ->
  crypto.GenerateWorkspaceKey r1 = (Ok K, r2) ->
  crypto.EncryptForUser pk K r2 = (Ok blob, r3) ->
  crypto.EncryptSecret v K r3 = (Ok (c, n), r4) ->
  length K = 32
  /\ length r0 = 108 + length r4
  /\ crypto.DecryptFromUser sk pk blob = Ok K
  /\ crypto.DecryptSecret c n K = Ok v.
Proof.
  intros Hgen Hws Hseal Henc.
  apply GenerateKeypair_Ok_inv in Hgen as (Hsk & -> & ->).
  apply GenerateWorkspaceKey_Ok_inv in Hws as (HK & ->).
  apply EncryptForUser_Ok_inv in Hseal as (_ & esk & Hesk & -> & ->).
  apply EncryptSecret_Ok_inv in Henc as (nonce & -> & Hn & Hk & Hmax & -> & ->).
  repeat split.
  - exact HK.
  - rewrite !length_app. lia.
  - now apply DecryptFromUser_sealed.
  - rewrite DecryptSecret_tag by assumption.
    rewrite gcm_open_seal; auto.
    + now rewrite string_of_bytes_of_string.
    + now rewrite length_bytes_of_string.
Qed.

End CryptoProperties.

(** ** Examples of the key hierarchy on the reference implementation *)

Lemma key_hierarchy_end_to_end_witness :
  exists (r4 : io.Reader) (sk pk K blob : list byte) (c n : string),
    length K = 32
    /\ length Fixtures.entropy = 108 + length r4
    /\ crypto.DecryptFromUser (L := Reference.lib) sk pk blob = Ok K
    /\ crypto.DecryptSecret (L := Reference.lib) c n K = Ok "postgres://user:pw@host/db".
Proof.
  do 7 eexists.
  eapply (key_hierarchy_end_to_end (L := Reference.lib) "postgres://user:pw@host/db"
            Fixtures.entropy); vm_compute; reflexivity.
Defined.

(** SetupUser on the reference implementation: the keys it returns, and the
    private key recovered from them. *)
Example SetupUser_example :
  match crypto.SetupUser (L := Reference.lib) "correct-horse-battery" Fixtures.entropy with
  | (Ok keys, r') =>
      crypto.PrivateKey keys = take 32 Fixtures.entropy
      /\ length r' = 48
      /\ crypto.DecryptPrivateKey (L := Reference.lib) (crypto.EncryptedPrivateKey keys)
           "correct-horse-battery" (crypto.Salt keys) = Ok (crypto.PrivateKey keys)
      /\ crypto.DecryptPrivateKey (L := Reference.lib) (crypto.EncryptedPrivateKey keys)
           "wrong-password" (crypto.Salt keys)
         = Err (Errorf_w "failed to decrypt private key (wrong password?)" errOpen)
  | _ => False
  end.
Proof. vm_compute. repeat split. Qed.

(** A nonce of 8 bytes makes DecryptSecret panic; DecryptPrivateKey reports
    a ciphertext of 8 bytes. *)
Example short_nonce_and_short_ciphertext :
  crypto.DecryptSecret (L := Reference.lib) "AAAAAAAAAAAAAAAAAAAAAAAAAAA=" "AAAAAAAAAAA="
    Examples.zeroKey
  = Panic "crypto/cipher: incorrect nonce length given to GCM"
  /\ crypto.DecryptPrivateKey (L := Reference.lib) "AAAAAAAAAAA=" "pw" "00"
     = Err (Errorf "ciphertext too short").
Proof. vm_compute. split; reflexivity. Qed.

(** ** Package config: the session files *)

Section ConfigProperties.
Import config.

Lemma stored_config_Holds (d : Disk) (c : GlobalConfig) :
  config_json d = Holds c -> (exists home, HomeDirHook d = inl home) ->
  stored_config d = c.
Proof.
  intros Hc [home Hh].
  unfold stored_config, LoadGlobalConfig_or_zero, LoadGlobalConfig, bindM.
  rewrite (GetPaths_home d home Hh). now rewrite Hc.
Qed.

(** What is read depends on the home directory and on the file alone. *)
Lemma stored_config_ext (d d' : Disk) :
  HomeDirHook d' = HomeDirHook d ->
  readJSON "" (config_json d') GlobalConfig_zero = readJSON "" (config_json d) GlobalConfig_zero
  \/ (config_json d = NotExist /\ config_json d' = Holds GlobalConfig_zero) ->
  stored_config d' = stored_config d.
Proof.
  intros Hh Hf.
  unfold stored_config, LoadGlobalConfig_or_zero, LoadGlobalConfig, bindM.
  destruct (HomeDirHook d) as [home|e] eqn:Hd.
  - rewrite (GetPaths_home d home Hd), (GetPaths_home d' home) by congruence.
    destruct Hf as [Hf|[-> ->]]; [|reflexivity].
    destruct (config_json d), (config_json d'); cbn in *; congruence.
  - rewrite (GetPaths_error d e Hd), (GetPaths_error d' e) by congruence.
    reflexivity.
Qed.

Lemma stored_tokens_ext (d d' : Disk) :
  HomeDirHook d' = HomeDirHook d ->
  readJSON "" (token_json d') TokenConfig_zero = readJSON "" (token_json d) TokenConfig_zero
  \/ (token_json d = NotExist /\ token_json d' = Holds TokenConfig_zero) ->
  stored_tokens d' = stored_tokens d.
Proof.
  intros Hh Hf.
  unfold stored_tokens, LoadTokens, bindM.
  destruct (HomeDirHook d) as [home|e] eqn:Hd.
  - rewrite (GetPaths_home d home Hd), (GetPaths_home d' home) by congruence.
    destruct Hf as [Hf|[-> ->]]; [|reflexivity].
    destruct (token_json d), (token_json d'); cbn in *; congruence.
  - rewrite (GetPaths_error d e Hd), (GetPaths_error d' e) by congruence.
    reflexivity.
Qed.

(** What InitGlobalConfig does to the two files. *)
Lemma InitGlobalConfig_result (MkdirAll : string -> option error) (d : Disk) :
  exists r cj' tj',
    config_init.InitGlobalConfig MkdirAll d
    = (r, {| HomeDirHook := HomeDirHook d; config_json := cj'; token_json := tj';
             WriteFile_error := WriteFile_error d |})
    /\ (cj' = config_json d
        \/ (config_json d = NotExist /\ cj' = Holds GlobalConfig_zero))
    /\ (tj' = token_json d
        \/ (token_json d = NotExist /\ tj' = Holds TokenConfig_zero))
    /\ (r = Ok tt ->
        cj' <> NotExist /\ tj' <> NotExist
        /\ exists home, HomeDirHook d = inl home
                        /\ MkdirAll (Join home ".agentsecrets") = None).
Proof.
  destruct d as [h cj tj we]. cbn [HomeDirHook config_json token_json WriteFile_error].
  unfold config_init.InitGlobalConfig. unfold bindM at 1.
  destruct h as [home|e].
  2:{ erewrite (GetPaths_error _ e) by reflexivity.
      exists (Err (Errorf_w "could not determine home directory" e)), cj, tj.
      repeat split; auto; discriminate. }
  erewrite (GetPaths_home _ home) by reflexivity.
  unfold bindM at 1, lift. cbn [GlobalDir paths_of].
  destruct (MkdirAll (Join home ".agentsecrets")) as [e|] eqn:Hmk.
  { exists (Err (Errorf_w "failed to create config directory" e)), cj, tj.
    repeat split; auto; discriminate. }
  unfold bindM, ret, writeJSON.
  cbn [ConfigFile TokenFile paths_of WriteFile_error config_json token_json HomeDirHook].
  assert (forall (cj0 : file GlobalConfig),
            (cj0 = cj \/ (cj = NotExist /\ cj0 = Holds GlobalConfig_zero)) ->
            cj0 <> NotExist ->
            exists r cj' tj',
              (let (r, s') :=
                 (if config_init.Stat_IsNotExist tj then
                    match
                      match we (Join (Join home ".agentsecrets") "token.json") with
                      | Some e =>
                          Err (Errorf_w ("failed to write "
                                         +:+ Join (Join home ".agentsecrets") "token.json") e)
                      | None => Ok (Holds TokenConfig_zero)
                      end
                    with
                    | Ok f => (Ok tt, {| HomeDirHook := inl home; config_json := cj0;
                                         token_json := f; WriteFile_error := we |})
                    | Err e => (Err e, {| HomeDirHook := inl home; config_json := cj0;
                                          token_json := tj; WriteFile_error := we |})
                    | Panic msg => (Panic msg, {| HomeDirHook := inl home;
                                                  config_json := cj0; token_json := tj;
                                                  WriteFile_error := we |})
                    end
                  else (Ok tt, {| HomeDirHook := inl home; config_json := cj0;
                                  token_json := tj; WriteFile_error := we |}))
               in match r with
                  | Ok _ => (Ok tt, s')
                  | Err e => (Err e, s')
                  | Panic msg => (Panic msg, s')
                  end)
              = (r, {| HomeDirHook := inl home; config_json := cj'; token_json := tj';
                       WriteFile_error := we |})
              /\ (cj' = cj \/ (cj = NotExist /\ cj' = Holds GlobalConfig_zero))
              /\ (tj' = tj \/ (tj = NotExist /\ tj' = Holds TokenConfig_zero))
              /\ (r = Ok tt ->
                  cj' <> NotExist /\ tj' <> NotExist
                  /\ exists home0, @inl string error home = inl home0
                                   /\ MkdirAll (Join home0 ".agentsecrets") = None))
    as Htokens.
  { intros cj0 Hc0 Hne.
    destruct tj as [|e2|  |e2|t]; cbn [config_init.Stat_IsNotExist];
      [destruct (we (Join (Join home ".agentsecrets") "token.json")) as [e2|]|..];
      eexists _, cj0, _; (split; [reflexivity|]);
      repeat split; eauto; discriminate. }
  destruct cj as [|e1|  |e1|c]; cbn [config_init.Stat_IsNotExist].
  - destruct (we (Join (Join home ".agentsecrets") "config.json")) as [e1|].
    + eexists _, _, _. split; [reflexivity|]. repeat split; auto; discriminate.
    + cbn [token_json WriteFile_error HomeDirHook config_json].
      apply Htokens; [auto|discriminate].
  - apply Htokens; [auto|discriminate].
  - apply Htokens; [auto|discriminate].
  - apply Htokens; [auto|discriminate].
  - apply Htokens; [auto|discriminate].
Qed.

(** X8.  InitGlobalConfig never overwrites a file that exists: whatever it
    returns, each of config.json and token.json is as it was unless it was
    missing, and the session read from them (email, selection, workspace
    cache, tokens) is the one read before.  When it returns no error both
    files exist, and running it again changes nothing. *)
Theorem InitGlobalConfig_keeps_session (MkdirAll : string -> option error) (d : Disk) :
  let r := fst (config_init.InitGlobalConfig MkdirAll d) in
  let d' := snd (config_init.InitGlobalConfig MkdirAll d) in
  stored_config d' = stored_config d
  /\ stored_tokens d' = stored_tokens d
  /\ (config_json d <> NotExist -> config_json d' = config_json d)
  /\ (token_json d <> NotExist -> token_json d' = token_json d)
  /\ (r = Ok tt ->
      config_json d' <> NotExist /\ token_json d' <> NotExist
      /\ config_init.InitGlobalConfig MkdirAll d' = (Ok tt, d')).
Proof.
  destruct (InitGlobalConfig_result MkdirAll d) as (r & cj' & tj' & E & Hc & Ht & Hr).
  rewrite E. cbn [fst snd config_json token_json].
  split; [|split; [|split; [|split]]].
  - apply stored_config_ext; [reflexivity|]. cbn [config_json].
    destruct Hc as [->|[-> ->]]; auto.
  - apply stored_tokens_ext; [reflexivity|]. cbn [token_json].
    destruct Ht as [->|[-> ->]]; auto.
  - intros Hne. destruct Hc as [->|[Hc _]]; congruence.
  - intros Hne. destruct Ht as [->|[Ht _]]; congruence.
  - intros Hok. destruct (Hr Hok) as (Hc' & Ht' & home & Hh & Hmk).
    split; [exact Hc'|]. split; [exact Ht'|].
    match goal with |- _ ?d1 = _ =>
      destruct (InitGlobalConfig_result MkdirAll d1)
        as (r2 & cj2 & tj2 & E2 & Hc2 & Ht2 & _)
    end.
    rewrite E2. cbn [HomeDirHook config_json token_json WriteFile_error] in *.
    destruct Hc2 as [->|[Hc2 _]]; [|congruence].
    destruct Ht2 as [->|[Ht2 _]]; [|congruence].
    f_equal.
    (* the result of the second run *)
    clear E. unfold config_init.InitGlobalConfig, bindM at 1 in E2.
    erewrite (GetPaths_home _ home) in E2 by exact Hh.
    unfold bindM at 1, lift in E2. cbn [GlobalDir paths_of] in E2. rewrite Hmk in E2.
    unfold bindM, ret in E2. cbn [config_json token_json] in E2.
    destruct cj'; [congruence|..]; cbn [config_init.Stat_IsNotExist] in E2;
      cbn [token_json] in E2;
      destruct tj'; try congruence; cbn [config_init.Stat_IsNotExist] in E2;
      now injection E2.
Qed.



End ConfigProperties.

Section ConfigExamples.
Import config.


End ConfigExamples.

(** ** Package keyring: the key pair in the keychain *)

Section KeyringProperties.

(** The names of the keychain entries tell the accounts and the two keys
    apart. *)
Lemma key_name_inj (email email' suffix : string) :
  email +:+ suffix = email' +:+ suffix -> email = email'.
Proof.
  intros E. apply (f_equal bytes_of_string) in E.
  rewrite !bytes_of_string_app in E. apply app_inv_tail in E.
  apply (f_equal string_of_bytes) in E.
  now rewrite !string_of_bytes_of_string in E.
Qed.

Lemma key_names_differ (email email' : string) :
  email +:+ "_private_key" <> email' +:+ "_public_key".
Proof.
  intros E. apply (f_equal bytes_of_string) in E.
  rewrite !bytes_of_string_app in E.
  apply (f_equal (fun l => take 11 (rev l))) in E.
  rewrite !rev_app_distr in E.
  rewrite !take_app_le in E by (cbn; lia).
  discriminate E.
Qed.

Lemma StoreKeypair_secrets (email : string) (sk pk : list byte) (k : gokeyring.Keychain) :
  gokeyring.unavailable k = None ->
  keyring.StoreKeypair email sk pk k = (Ok tt, keychain_after email sk pk k).
Proof. apply StoreKeypair_available. Qed.

Lemma GetPrivateKey_lookup (email : string) (k : gokeyring.Keychain) :
  gokeyring.unavailable k = None ->
  keyring.GetPrivateKey email k
  = (match gokeyring.secrets k !! (keyring.serviceName, email +:+ "_private_key") with
     | Some encoded => base64.DecodeString encoded
     | None => Err (Errorf_w "private key not found in keychain" ErrNotFound)
     end, k).
Proof.
  intros Hk. unfold keyring.GetPrivateKey, bindM, wrappingM, gokeyring.Get, lift.
  rewrite Hk. destruct (gokeyring.secrets k !! _); reflexivity.
Qed.

Lemma GetPublicKey_lookup (email : string) (k : gokeyring.Keychain) :
  gokeyring.unavailable k = None ->
  keyring.GetPublicKey email k
  = (match gokeyring.secrets k !! (keyring.serviceName, email +:+ "_public_key") with
     | Some encoded => base64.DecodeString encoded
     | None => Err (Errorf_w "public key not found in keychain" ErrNotFound)
     end, k).
Proof.
  intros Hk. unfold keyring.GetPublicKey, bindM, wrappingM, gokeyring.Get, lift.
  rewrite Hk. destruct (gokeyring.secrets k !! _); reflexivity.
Qed.


Lemma lookup_keychain_after_private (email : string) (sk pk : list byte)
    (k : gokeyring.Keychain) :
  gokeyring.secrets (keychain_after email sk pk k)
    !! (keyring.serviceName, email +:+ "_private_key")
  = Some (base64.EncodeToString sk).
Proof.
  unfold keychain_after. cbn [gokeyring.secrets].
  rewrite lookup_insert_ne, lookup_insert_eq; [reflexivity|].
  intros [= E]. symmetry in E. now apply key_names_differ in E.
Qed.

Lemma lookup_keychain_after_public (email : string) (sk pk : list byte)
    (k : gokeyring.Keychain) :
  gokeyring.secrets (keychain_after email sk pk k)
    !! (keyring.serviceName, email +:+ "_public_key")
  = Some (base64.EncodeToString pk).
Proof. unfold keychain_after. cbn [gokeyring.secrets]. apply lookup_insert_eq. Qed.

Lemma lookup_keychain_after_other (email email' suffix : string) (sk pk : list byte)
    (k : gokeyring.Keychain) :
  email' <> email -> suffix = "_private_key" \/ suffix = "_public_key" ->
  gokeyring.secrets (keychain_after email sk pk k) !! (keyring.serviceName, email' +:+ suffix)
  = gokeyring.secrets k !! (keyring.serviceName, email' +:+ suffix).
Proof.
  intros Hne Hs. unfold keychain_after. cbn [gokeyring.secrets].
  rewrite !lookup_insert_ne; [reflexivity|..]; intros [= E]; destruct Hs as [-> | ->];
    first [ apply key_name_inj in E; congruence
          | now apply key_names_differ in E
          | symmetry in E; now apply key_names_differ in E ].
Qed.


(** What DeleteKeypair leaves of a keychain that can be reached. *)
Lemma DeleteKeypair_secrets (email : string) (k : gokeyring.Keychain) :
  gokeyring.unavailable k = None ->
  exists k',
    keyring.DeleteKeypair email k = (Ok tt, k')
    /\ gokeyring.unavailable k' = None
    /\ gokeyring.secrets k'
       = delete (keyring.serviceName, email +:+ "_public_key")
           (delete (keyring.serviceName, email +:+ "_private_key") (gokeyring.secrets k)).
Proof.
  intros Hk. destruct k as [secrets u]. cbn in Hk. subst u.
  unfold keyring.DeleteKeypair, bindM, discard, gokeyring.Delete, ret.
  cbn [gokeyring.unavailable gokeyring.secrets].
  destruct (secrets !! (keyring.serviceName, email +:+ "_private_key")) eqn:H1;
    cbn [gokeyring.unavailable gokeyring.secrets].
  - destruct (delete _ secrets !! (keyring.serviceName, email +:+ "_public_key")) eqn:H2;
      eexists; (split; [reflexivity|]); (split; [reflexivity|]);
      cbn [gokeyring.secrets]; [reflexivity|].
    now rewrite (delete_id _ _ H2).
  - destruct (secrets !! (keyring.serviceName, email +:+ "_public_key")) eqn:H2;
      eexists; (split; [reflexivity|]); (split; [reflexivity|]);
      cbn [gokeyring.secrets]; rewrite (delete_id _ _ H1); [reflexivity|].
    now rewrite (delete_id _ _ H2).
Qed.

(** X12.  The accounts do not interfere in the keychain: storing or deleting
    the key pair of one email leaves what GetPrivateKey and GetPublicKey
    return for every other email, since no two of the entry names
    [email_private_key] and [email_public_key] coincide. *)
Theorem keyring_accounts_do_not_interfere (email email' : string) (sk pk : list byte)
    (k : gokeyring.Keychain) :
  email' <> email ->
  let stored := snd (keyring.StoreKeypair email sk pk k) in
  let deleted := snd (keyring.DeleteKeypair email k) in
  fst (keyring.GetPrivateKey email' stored) = fst (keyring.GetPrivateKey email' k)
  /\ fst (keyring.GetPublicKey email' stored) = fst (keyring.GetPublicKey email' k)
  /\ fst (keyring.GetPrivateKey email' deleted) = fst (keyring.GetPrivateKey email' k)
  /\ fst (keyring.GetPublicKey email' deleted) = fst (keyring.GetPublicKey email' k).
Proof.
  intros Hne stored deleted. subst stored deleted.
  destruct (gokeyring.unavailable k) as [e|] eqn:Hk.
  - assert (keyring.StoreKeypair email sk pk k
            = (Err (Errorf_w "failed to store private key" e), k)) as ->.
    { unfold keyring.StoreKeypair, bindM, wrappingM, gokeyring.Set_. now rewrite Hk. }
    destruct (DeleteKeypair_returns email k) as (k' & -> & _ & Hsame).
    rewrite Hsame by congruence. auto.
  - rewrite StoreKeypair_secrets by exact Hk.
    destruct (DeleteKeypair_secrets email k Hk) as (k' & -> & Hk' & Hs).
    cbn [snd].
    rewrite !GetPrivateKey_lookup, !GetPublicKey_lookup by assumption || reflexivity.
    cbn [fst].
    rewrite !lookup_keychain_after_other by auto.
    rewrite Hs, !lookup_delete_ne; [auto|..]; intros [= E];
      first [ apply key_name_inj in E; congruence
            | now apply key_names_differ in E
            | symmetry in E; now apply key_names_differ in E ].
Qed.


(** X13.  DeleteKeypair on a keychain that can be reached returns no error,
    whether the key pair was stored or not, and then the key pair of the
    email is gone: GetPrivateKey and GetPublicKey fail with the keychain's
    error of a missing secret under their prefixes; and deleting again
    returns no error and changes nothing. *)
Theorem keyring_delete_then_get (email : string) (k : gokeyring.Keychain) :
  gokeyring.unavailable k = None ->
  exists k',
    keyring.DeleteKeypair email k = (Ok tt, k')
    /\ keyring.GetPrivateKey email k'
       = (Err (Errorf_w "private key not found in keychain" ErrNotFound), k')
    /\ keyring.GetPublicKey email k'
       = (Err (Errorf_w "public key not found in keychain" ErrNotFound), k')
    /\ keyring.DeleteKeypair email k' = (Ok tt, k').
Proof.
  intros Hk. destruct (DeleteKeypair_secrets email k Hk) as (k' & E & Hk' & Hs).
  exists k'. split; [exact E|].
  rewrite GetPrivateKey_lookup, GetPublicKey_lookup by exact Hk'.
  assert (gokeyring.secrets k' !! (keyring.serviceName, email +:+ "_private_key") = None)
    as H1.
  { rewrite Hs, lookup_delete_ne, lookup_delete_eq; [reflexivity|].
    intros [= E']. symmetry in E'. now apply key_names_differ in E'. }
  assert (gokeyring.secrets k' !! (keyring.serviceName, email +:+ "_public_key") = None)
    as H2 by (rewrite Hs; apply lookup_delete_eq).
  rewrite H1, H2. repeat split.
  destruct (DeleteKeypair_secrets email k' Hk') as (k'' & -> & Hk'' & Hs').
  f_equal. rewrite (delete_id _ _ H1), (delete_id _ _ H2) in Hs'.
  destruct k' as [s' u'], k'' as [s'' u''].
  cbn [gokeyring.secrets gokeyring.unavailable] in *. congruence.
Qed.

End KeyringProperties.

Section KeyringExamples.


Lemma keyring_accounts_do_not_interfere_witness :
  let email := "dev@example.com" in
  let email' := "old@example.com" in
  let sk := Examples.zeroKey in
  let pk := Reference.ref_scalar_base_mult Examples.zeroKey in
  let k := Scenario.used_keychain in
  let stored := snd (keyring.StoreKeypair email sk pk k) in
  let deleted := snd (keyring.DeleteKeypair email k) in
  fst (keyring.GetPrivateKey email' stored) = fst (keyring.GetPrivateKey email' k)
  /\ fst (keyring.GetPublicKey email' stored) = fst (keyring.GetPublicKey email' k)
  /\ fst (keyring.GetPrivateKey email' deleted) = fst (keyring.GetPrivateKey email' k)
  /\ fst (keyring.GetPublicKey email' deleted) = fst (keyring.GetPublicKey email' k).
Proof.
  intros email email' sk pk k.
  apply (keyring_accounts_do_not_interfere email email' sk pk k). discriminate.
Defined.

Lemma keyring_delete_then_get_witness :
  let email := "old@example.com" in
  let k := Scenario.used_keychain in
  exists k',
    keyring.DeleteKeypair email k = (Ok tt, k')
    /\ keyring.GetPrivateKey email k'
       = (Err (Errorf_w "private key not found in keychain" ErrNotFound), k')
    /\ keyring.GetPublicKey email k'
       = (Err (Errorf_w "public key not found in keychain" ErrNotFound), k')
    /\ keyring.DeleteKeypair email k' = (Ok tt, k').
Proof.
  intros email k. apply (keyring_delete_then_get email k). reflexivity.
Defined.

(** The other account of the keychain is still there after the new one was
    stored and deleted again. *)
Example keyring_other_account_example :
  let k := snd (keyring.DeleteKeypair "dev@example.com"
                  (snd (keyring.StoreKeypair "dev@example.com" Examples.zeroKey
                          Examples.zeroKey Scenario.used_keychain))) in
  fst (keyring.GetPrivateKey "old@example.com" k) = Ok (bytes_of_string "sk")
  /\ fst (keyring.GetPublicKey "old@example.com" k) = Ok (bytes_of_string "pk").
Proof. vm_compute. split; reflexivity. Qed.

End KeyringExamples.

(** ** Package auth: what a login leaves, and what it does not *)

Section AuthProperties.
Context {L : CryptoLib}.
Import auth.

Lemma World_eta (w : World) :
  {| disk := disk w; keychain := keychain w; rand := rand w |} = w.
Proof. now destruct w. Qed.

(** The first two steps of PerformLogin: the call and the key pair.  They
    write nothing. *)
Lemma PerformLogin_unanswered (range1 range2 : MapOrder) (s : Service)
    (email password : string) (privateKey : option (list byte)) (publicKey : list byte)
    (w : World) :
  match api.HTTPClient_Do (API s) (loginRequest s email password) with
  | inr e =>
      PerformLogin range1 range2 s email password privateKey publicKey w
      = (Err (Errorf_w "login: API call failed" e), w)
  | inl resp =>
      if decide (http.StatusCode resp <> http.StatusOK) then
        PerformLogin range1 range2 s email password privateKey publicKey w
        = (Err (parseAPIError resp "login"), w)
      else
        match json_loginResponse (http.Body resp) with
        | inr e =>
            PerformLogin range1 range2 s email password privateKey publicKey w
            = (Err (Errorf_w "login: failed to parse response" e), w)
        | inl loginResp =>
            match resolveKeypair loginResp password privateKey publicKey with
            | Ok _ => True
            | Err e =>
                PerformLogin range1 range2 s email password privateKey publicKey w
                = (Err e, w)
            | Panic msg =>
                PerformLogin range1 range2 s email password privateKey publicKey w
                = (Panic msg, w)
            end
        end
  end.
Proof.
  destruct w as [d k g].
  remember (PerformLogin range1 range2 s email password privateKey publicKey
              {| disk := d; keychain := k; rand := g |}) as out eqn:E.
  unfold PerformLogin in E.
  unfold bindM at 1, wrappingM at 1, on_disk at 1 in E. cbn [disk keychain rand] in E.
  rewrite Call_login in E.
  destruct (api.HTTPClient_Do (API s) (loginRequest s email password)) as [resp|e];
    cbn [answer wrapping] in E; [|exact E].
  destruct (decide (http.StatusCode resp <> http.StatusOK)); [exact E|].
  unfold bindM at 1, lift in E.
  destruct (json_loginResponse (http.Body resp)) as [loginResp|e];
    cbn [answer wrapping] in E; [|exact E].
  unfold bindM at 1 in E.
  destruct (resolveKeypair loginResp password privateKey publicKey); auto.
Qed.

(** X14.  A login that the transport does not answer with status 200 and a
    body that parses, or whose key pair does not resolve (missing key
    material, a wrong password, a public key that is not base64), returns an
    error and writes nothing: the files, the keychain and the entropy source
    are as they were. *)
Theorem failed_login_writes_nothing (range1 range2 : MapOrder) (s : Service)
    (email password : string) (privateKey : option (list byte)) (publicKey : list byte)
    (w : World) :
  (forall loginResp,
     login_answered s email password loginResp ->
     exists e, resolveKeypair loginResp password privateKey publicKey = Err e) ->
  exists e,
    PerformLogin range1 range2 s email password privateKey publicKey w = (Err e, w).
Proof.
  intros Hfail.
  pose proof (PerformLogin_unanswered range1 range2 s email password privateKey
                publicKey w) as H.
  destruct (api.HTTPClient_Do (API s) (loginRequest s email password)) as [resp|e] eqn:Hdo;
    [|eauto].
  destruct (decide (http.StatusCode resp <> http.StatusOK)) as [Hs|Hs]; [eauto|].
  destruct (json_loginResponse (http.Body resp)) as [loginResp|e] eqn:Hjson; [|eauto].
  destruct (Hfail loginResp) as [e He].
  { exists resp. repeat split; auto.
    destruct (decide (http.StatusCode resp = http.StatusOK)); [assumption|].
    now destruct Hs. }
  rewrite He in H. eauto.
Qed.

(** X15.  A server that refuses the login answers with a status other than
    200: PerformLogin then fails with the message of the body, "login
    failed: <message>", or, when the body has none, with "login failed:
    HTTP <status>", and writes nothing. *)
Theorem refused_login_reports_server_message (range1 range2 : MapOrder) (s : Service)
    (email password : string) (privateKey : option (list byte)) (publicKey : list byte)
    (w : World) (resp : http.Response body) :
  api.HTTPClient_Do (API s) (loginRequest s email password) = inl resp ->
  http.StatusCode resp <> http.StatusOK ->
  PerformLogin range1 range2 s email password privateKey publicKey w
  = (Err (Errorf ("login failed: "
                  +:+ (if decide (json_message (http.Body resp) = "")
                       then "HTTP " +:+ itoa (http.StatusCode resp)
                       else json_message (http.Body resp)))), w).
Proof.
  intros Hdo Hs.
  pose proof (PerformLogin_unanswered range1 range2 s email password privateKey
                publicKey w) as H.
  rewrite Hdo in H. rewrite decide_True in H by exact Hs. rewrite H.
  unfold parseAPIError.
  destruct (decide (json_message (http.Body resp) = "")) as [E|E].
  - now rewrite decide_False by (intros Hne; now apply Hne).
  - now rewrite decide_True by exact E.
Qed.

Lemma base64_EncodeToString_nonempty (src : list byte) :
  src <> [] -> base64.EncodeToString src <> "".
Proof.
  intros Hsrc E. apply (f_equal bytes_of_string) in E.
  unfold base64.EncodeToString in E. rewrite bytes_of_string_of_bytes in E.
  destruct src as [|a [|b [|c rest]]]; [now destruct Hsrc|..]; cbn in E.
  - destruct (base64.sextets a zero zero) as [[[? ?] ?] ?]. discriminate E.
  - destruct (base64.sextets a b zero) as [[[? ?] ?] ?]. discriminate E.
  - destruct (base64.sextets a b c) as [[[? ?] ?] ?]. discriminate E.
Qed.

Lemma nonempty_of_length {A : Type} (l : list A) (n : nat) :
  length l = S n -> l <> [].
Proof. intros E ->. discriminate E. Qed.

(** The key pair of SetupUser, resolved from a response that carries what
    Signup sent. *)
Lemma resolveKeypair_carried (s : Service) (req : SignupRequest) (keys : crypto.UserKeys)
    (r r' : io.Reader) (loginResp : loginResponse) (publicKey : list byte) :
  crypto.SetupUser (Password req) r = (Ok keys, r') ->
  carries loginResp (signupRequest s req keys) ->
  resolveKeypair loginResp (Password req) None publicKey
  = Ok (crypto.PrivateKey keys, crypto.PublicKey keys).
Proof.
  intros Hsetup (Henc & Hsalt & Hpub).
  apply SetupUser_Ok_inv in Hsetup as (sk & salt & nonce & _ & Hsk & Hs & Hn & ->).
  cbn [crypto.PrivateKey crypto.PublicKey crypto.EncryptedPrivateKey crypto.Salt] in *.
  unfold field, signupRequest, request in Henc, Hsalt, Hpub.
  cbn [http.Data api.lookup_assoc String.eqb Ascii.eqb Bool.eqb
       crypto.PublicKey crypto.EncryptedPrivateKey crypto.Salt] in Henc, Hsalt, Hpub.
  unfold resolveKeypair. cbv zeta. rewrite Henc, Hsalt, Hpub.
  rewrite decide_False.
  - rewrite DecryptPrivateKey_tag by exact Hn.
    rewrite gcm_open_seal; auto.
    + cbn [wrapping bind]. rewrite base64_DecodeString_EncodeToString. reflexivity.
    + right; right. apply derivedKey_length.
    + rewrite Hsk. vm_compute. discriminate.
  - intros [H|[H|H]].
    + apply base64_EncodeToString_nonempty in H; [exact H|].
      intros E0. apply app_eq_nil in E0 as [-> _]. discriminate Hn.
    + destruct (hex_EncodeToString_is_hex salt) as [_ Hlen].
      rewrite H, Hs in Hlen. discriminate Hlen.
    + apply base64_EncodeToString_nonempty in H; [exact H|].
      apply (nonempty_of_length _ 31). apply scalar_base_mult_length.
Qed.

(** What Signup does once the keys are drawn. *)
Lemma Signup_steps (range1 range2 : MapOrder) (s : Service) (req : SignupRequest)
    (w : World) (keys : crypto.UserKeys) (r' : io.Reader) :
  crypto.SetupUser (Password req) (rand w) = (Ok keys, r') ->
  let w1 := {| disk := disk w; keychain := keychain w; rand := r' |} in
  Signup range1 range2 s req w
  = match api.HTTPClient_Do (API s) (signupRequest s req keys) with
    | inr e => (Err (Errorf_w "signup: API call failed" e), w1)
    | inl resp =>
        if decide (http.StatusCode resp <> http.StatusCreated)
        then (Err (parseAPIError resp "signup"), w1)
        else PerformLogin range1 range2 s (req_Email req) (Password req)
               (Some (crypto.PrivateKey keys)) (crypto.PublicKey keys) w1
    end.
Proof.
  intros Hsetup w1. subst w1. destruct w as [d k g]. cbn [disk keychain rand] in *.
  unfold Signup.
  unfold bindM at 1, wrappingM at 1, on_rand at 1. cbn [disk keychain rand].
  rewrite Hsetup. cbn [wrapping].
  unfold bindM at 1, wrappingM at 1, on_disk at 1. cbn [disk keychain rand].
  change (api.Call (API s) "auth.signup" "POST" ?data d)
    with (answer (api.HTTPClient_Do (API s) (signupRequest s req keys)), d).
  destruct (api.HTTPClient_Do (API s) (signupRequest s req keys)) as [resp|e];
    cbn [answer wrapping]; [|reflexivity].
  destruct (decide (http.StatusCode resp <> http.StatusCreated)); reflexivity.
Qed.

(** X16.  The account of a signup can be opened from another machine.
    Signup sends the public key, the private key encrypted under the
    password, and the salt; a login with the same password, with no key
    pair at hand, against a response that carries the three, completes and
    leaves in the keychain the very key pair SetupUser drew at signup. *)
Theorem signup_then_login_elsewhere (range1 range2 : MapOrder) (sA sB : Service)
    (req : SignupRequest) (wA wB : World) (keys : crypto.UserKeys) (r' : io.Reader)
    (loginResp : loginResponse) :
  crypto.SetupUser (Password req) (rand wA) = (Ok keys, r') ->
  carries loginResp (signupRequest sA req keys) ->
  login_answered sB (req_Email req) (Password req) loginResp ->
  writable (disk wB) ->
  gokeyring.unavailable (keychain wB) = None ->
  (exists a, api.HTTPClient_Do (API sA) (signupRequest sA req keys) = a
             /\ forall e, a = inr e ->
                  fst (Signup range1 range2 sA req wA)
                  = Err (Errorf_w "signup: API call failed" e))
  /\ exists wB',
       PerformLogin range1 range2 sB (req_Email req) (Password req) None [] wB
       = (Ok tt, wB')
       /\ keyring.GetPrivateKey (req_Email req) (keychain wB')
          = (Ok (crypto.PrivateKey keys), keychain wB')
       /\ keyring.GetPublicKey (req_Email req) (keychain wB')
          = (Ok (crypto.PublicKey keys), keychain wB').
Proof.
  intros Hsetup Hcarries Hans Hw Hk. split.
  - eexists. split; [reflexivity|]. intros e He.
    rewrite (Signup_steps _ _ _ _ _ _ _ Hsetup), He. reflexivity.
  - pose proof (resolveKeypair_carried sA req keys _ _ loginResp [] Hsetup Hcarries)
      as Hkeys.
    rewrite (PerformLogin_completes _ _ _ _ _ _ _ _ _ _ _ Hans Hkeys Hw Hk).
    eexists. split; [reflexivity|].
    unfold world_after. cbn [keychain].
    rewrite GetPrivateKey_lookup, GetPublicKey_lookup by reflexivity.
    rewrite lookup_keychain_after_private, lookup_keychain_after_public.
    now rewrite !base64_DecodeString_EncodeToString.
Qed.


Lemma base64_EncodeToString_empty_iff (src : list byte) :
  base64.EncodeToString src = "" <-> src = [].
Proof.
  split; [|now intros ->].
  intros E. destruct src as [|a rest]; [reflexivity|].
  now apply base64_EncodeToString_nonempty in E.
Qed.

Lemma LoadGlobalConfig_writable (d : config.Disk) (c : config.GlobalConfig) :
  (exists home, config.HomeDirHook d = inl home) ->
  config.LoadGlobalConfig (write_config d c) = (Ok c, write_config d c).
Proof.
  intros [home Hh]. unfold config.LoadGlobalConfig, bindM.
  now rewrite (GetPaths_home (write_config d c) home Hh).
Qed.


(** GetWorkspaceKey on files whose configuration loads. *)
Lemma GetWorkspaceKey_loaded (d : config.Disk) (c : config.GlobalConfig) (id : string) :
  config.LoadGlobalConfig d = (Ok c, d) ->
  config.GetWorkspaceKey id d
  = (match config.Workspaces c !! id with
     | Some ws =>
         if decide (config.Key ws = "")
         then Err (Errorf ("workspace key not found for " +:+ id))
         else base64.DecodeString (config.Key ws)
     | None => Err (Errorf ("workspace key not found for " +:+ id))
     end, d).
Proof.
  intros Hload. unfold config.GetWorkspaceKey, bindM. rewrite Hload.
  destruct (config.Workspaces c !! id) as [ws|]; [|reflexivity].
  destruct (decide (config.Key ws = "")); reflexivity.
Qed.





End AuthProperties.

Section AuthExamples.
#[local] Existing Instance Reference.lib.
Import auth.


Lemma failed_login_writes_nothing_witness :
  let s := Scenario.server (Scenario.response []) in
  let w := Scenario.world Scenario.used_disk Scenario.used_keychain in
  exists e,
    PerformLogin map_to_list map_to_list s "dev@example.com" "correct-horse-battery"
      None [] w = (Err e, w).
Proof.
  intros s w.
  apply (failed_login_writes_nothing map_to_list map_to_list s "dev@example.com"
           "correct-horse-battery" None [] w).
  intros loginResp (resp & Hdo & _ & Hjson).
  injection Hdo as <-. injection Hjson as <-.
  eexists. reflexivity.
Defined.

Lemma refused_login_reports_server_message_witness :
  let w := Scenario.world Scenario.used_disk Scenario.used_keychain in
  PerformLogin map_to_list map_to_list Fixtures.refusing_server "dev@example.com"
    "wrong-password" None [] w
  = (Err (Errorf "login failed: Invalid credentials"), w).
Proof.
  intros w.
  apply (refused_login_reports_server_message map_to_list map_to_list
           Fixtures.refusing_server "dev@example.com" "wrong-password" None [] w
           {| http.StatusCode := 401;
              http.Body := {| json_loginResponse :=
                                inr (SyscallError "unexpected end of JSON input");
                              json_message := "Invalid credentials" |} |}).
  - reflexivity.
  - discriminate.
Defined.

Lemma signup_then_login_elsewhere_witness :
  let sA := Scenario.server (Scenario.response []) in
  let sB := Scenario.server Fixtures.accountResponse in
  let req := Fixtures.account in
  let keys := Fixtures.accountKeys in
  let wA := Fixtures.world Scenario.fresh_disk Scenario.empty_keychain in
  let wB := Scenario.world Scenario.used_disk Scenario.used_keychain in
  (exists a, api.HTTPClient_Do (API sA) (signupRequest sA req keys) = a
             /\ forall e, a = inr e ->
                  fst (Signup map_to_list map_to_list sA req wA)
                  = Err (Errorf_w "signup: API call failed" e))
  /\ exists wB',
       PerformLogin map_to_list map_to_list sB (req_Email req) (Password req) None [] wB
       = (Ok tt, wB')
       /\ keyring.GetPrivateKey (req_Email req) (keychain wB')
          = (Ok (crypto.PrivateKey keys), keychain wB')
       /\ keyring.GetPublicKey (req_Email req) (keychain wB')
          = (Ok (crypto.PublicKey keys), keychain wB').
Proof.
  intros sA sB req keys wA wB.
  eapply (signup_then_login_elsewhere map_to_list map_to_list sA sB req wA wB keys _
            Fixtures.accountResponse).
  - vm_compute. reflexivity.
  - repeat split.
  - apply server_answers.
  - apply writable_used_disk.
  - reflexivity.
Defined.





End AuthExamples.

(** ** Package api: endpoints and their parameters *)

Lemma no_brace_app (a b : string) : no_brace a -> no_brace b -> no_brace (a +:+ b).
Proof.
  unfold no_brace. rewrite bytes_of_string_app. intros Ha Hb.
  apply Forall_app. auto.
Qed.

Ltac no_braces :=
  repeat first [ assumption
               | apply no_brace_app
               | unfold no_brace; cbn; repeat constructor; discriminate ].

Section ApiProperties.

(** A prefix with no opening brace holds no placeholder. *)
Lemma replace_skip_prefix (old' new l s : list byte) :
  Forall (fun c => c <> "{"%char) l ->
  api_params.replace ("{"%char :: old') new (l ++ s) 0
  = l ++ api_params.replace ("{"%char :: old') new s 0.
Proof.
  induction 1 as [|c l Hc _ IH]; [reflexivity|].
  cbn [app api_params.replace api_params.HasPrefix].
  destruct (Ascii.eqb_spec "{"%char c) as [E|_]; [symmetry in E; contradiction|].
  cbn [andb]. now rewrite IH.
Qed.

Lemma replace_nil (old new : list byte) (skip : nat) :
  api_params.replace old new [] skip = [].
Proof. reflexivity. Qed.

Lemma range_empty (range : api_params.ParamOrder) :
  api_params.valid_params range -> range ∅ = [].
Proof.
  intros Hr. apply Permutation_nil_r. now rewrite (Hr ∅), map_to_list_empty.
Qed.

Lemma range_singleton (range : api_params.ParamOrder) (k v : string) :
  api_params.valid_params range -> range {[ k := v ]} = [(k, v)].
Proof.
  intros Hr. apply Permutation_singleton_r. rewrite (Hr _).
  now rewrite map_to_list_singleton.
Qed.

Lemma range_two (range : api_params.ParamOrder) (k1 k2 v1 v2 : string) :
  api_params.valid_params range -> k1 <> k2 ->
  range (<[k1 := v1]> {[ k2 := v2 ]}) = [(k1, v1); (k2, v2)]
  \/ range (<[k1 := v1]> {[ k2 := v2 ]}) = [(k2, v2); (k1, v1)].
Proof.
  intros Hr Hne.
  assert (range (<[k1 := v1]> {[ k2 := v2 ]}) ≡ₚ [(k1, v1); (k2, v2)]) as Hperm.
  { rewrite (Hr _), map_to_list_insert
      by (rewrite lookup_singleton_ne; [reflexivity|congruence]).
    now rewrite map_to_list_singleton. }
  destruct (range (<[k1 := v1]> {[ k2 := v2 ]})) as [|a [|b [|c rest]]];
    try (apply Permutation_length in Hperm; discriminate Hperm).
  apply Permutation_length_2 in Hperm as [[-> ->]|[-> ->]]; auto.
Qed.

Lemma HasPrefix_app (old post : list byte) :
  api_params.HasPrefix (old ++ post) old = true.
Proof.
  induction old as [|c old IH]; [now destruct post|].
  cbn [app api_params.HasPrefix]. now rewrite Ascii.eqb_refl, IH.
Qed.

Lemma replace_skip (old new l s : list byte) :
  api_params.replace old new (l ++ s) (length l) = api_params.replace old new s 0.
Proof. induction l as [|c l IH]; [reflexivity|exact IH]. Qed.

(** An occurrence after a prefix with no opening brace is replaced, and the
    search goes on behind it. *)
Lemma replace_occurrence (old' new pre post : list byte) :
  Forall (fun c => c <> "{"%char) pre ->
  api_params.replace ("{"%char :: old') new (pre ++ ("{"%char :: old') ++ post) 0
  = pre ++ new ++ api_params.replace ("{"%char :: old') new post 0.
Proof.
  intros Hpre. rewrite replace_skip_prefix by exact Hpre. f_equal.
  change (("{"%char :: old') ++ post) with ("{"%char :: (old' ++ post)).
  cbn [api_params.replace].
  pose proof (HasPrefix_app ("{"%char :: old') post) as Hp. cbn [app] in Hp.
  rewrite Hp. cbn [length Nat.sub]. rewrite Nat.sub_0_r. now rewrite replace_skip.
Qed.

Lemma replace_nobrace (old' new l : list byte) :
  Forall (fun c => c <> "{"%char) l ->
  api_params.replace ("{"%char :: old') new l 0 = l.
Proof.
  intros Hl. rewrite <- (app_nil_r l) at 1.
  rewrite replace_skip_prefix by exact Hl. cbn [api_params.replace]. apply app_nil_r.
Qed.

(** The first placeholder of a path, replaced. *)
Lemma ReplaceAll_first (pre post k v : string) :
  no_brace pre ->
  api_params.ReplaceAll (pre +:+ "{" +:+ k +:+ "}" +:+ post) ("{" +:+ k +:+ "}") v
  = pre +:+ v +:+ api_params.ReplaceAll post ("{" +:+ k +:+ "}") v.
Proof.
  intros Hpre. unfold api_params.ReplaceAll.
  rewrite !bytes_of_string_app.
  change (bytes_of_string "{") with ["{"%char].
  change (["{"%char] ++ bytes_of_string k ++ bytes_of_string "}" ++ bytes_of_string post)
    with ("{"%char :: (bytes_of_string k ++ bytes_of_string "}" ++ bytes_of_string post)).
  change (["{"%char] ++ bytes_of_string k ++ bytes_of_string "}")
    with ("{"%char :: (bytes_of_string k ++ bytes_of_string "}")).
  rewrite (app_assoc (bytes_of_string k)).
  change ("{"%char :: ((bytes_of_string k ++ bytes_of_string "}") ++ bytes_of_string post))
    with (("{"%char :: (bytes_of_string k ++ bytes_of_string "}")) ++ bytes_of_string post).
  rewrite replace_occurrence by exact Hpre.
  now rewrite !string_of_bytes_app, !string_of_bytes_of_string.
Qed.

(** A string with no opening brace is left as it is. *)
Lemma ReplaceAll_no_brace (s k v : string) :
  no_brace s -> api_params.ReplaceAll s ("{" +:+ k +:+ "}") v = s.
Proof.
  intros Hs. unfold api_params.ReplaceAll.
  rewrite !bytes_of_string_app. change (bytes_of_string "{") with ["{"%char].
  change (["{"%char] ++ bytes_of_string k ++ bytes_of_string "}")
    with ("{"%char :: (bytes_of_string k ++ bytes_of_string "}")).
  rewrite replace_nobrace by exact Hs. apply string_of_bytes_of_string.
Qed.

Lemma path_one_parameter (pre post k v : string) :
  no_brace pre -> no_brace post ->
  api_params.ReplaceAll (pre +:+ "{" +:+ k +:+ "}" +:+ post) ("{" +:+ k +:+ "}") v
  = pre +:+ v +:+ post.
Proof.
  intros Hpre Hpost. rewrite ReplaceAll_first by exact Hpre.
  now rewrite ReplaceAll_no_brace by exact Hpost.
Qed.

Lemma resolveEndpoint_one_parameter (range : api_params.ParamOrder)
    (key pre post k v : string) :
  api_params.valid_params range ->
  api.resolveEndpoint key = Ok (pre +:+ "{" +:+ k +:+ "}" +:+ post) ->
  no_brace pre -> no_brace post ->
  api_params.resolveEndpoint range key {[ k := v ]} = Ok (pre +:+ v +:+ post).
Proof.
  intros Hr Hkey Hpre Hpost. unfold api_params.resolveEndpoint.
  rewrite (range_singleton range _ _ Hr), Hkey. cbn [bind foldl fst snd]. f_equal.
  now apply path_one_parameter.
Qed.

Lemma remove_member_workspace_first (v : string) :
  api_params.ReplaceAll "workspaces/{workspace_id}/members/{email}/"
    ("{" +:+ "workspace_id" +:+ "}") v
  = "workspaces/" +:+ v +:+ "/members/" +:+ "{" +:+ "email" +:+ "}" +:+ "/".
Proof.
  now rewrite (ReplaceAll_first "workspaces/" "/members/{email}/" "workspace_id")
    by no_braces.
Qed.

Lemma remove_member_email_first (v : string) :
  api_params.ReplaceAll "workspaces/{workspace_id}/members/{email}/"
    ("{" +:+ "email" +:+ "}") v
  = "workspaces/" +:+ "{" +:+ "workspace_id" +:+ "}" +:+ ("/members/" +:+ v +:+ "/").
Proof.
  unfold api_params.ReplaceAll.
  rewrite <- (string_of_bytes_of_string
                ("workspaces/" +:+ "{" +:+ "workspace_id" +:+ "}"
                 +:+ ("/members/" +:+ v +:+ "/"))).
  f_equal. rewrite !bytes_of_string_app.
  generalize (bytes_of_string v). intros E. reflexivity.
Qed.

Lemma valid_params_rev (range : api_params.ParamOrder) :
  api_params.valid_params range -> api_params.valid_params (fun m => rev (range m)).
Proof. intros Hr m. now rewrite <- (Hr m), <- Permutation_rev. Qed.

(** X21.  resolveEndpoint puts the values of the URL parameters into the
    path as they are, with no escaping.  With no parameters it is the
    lookup of the endpoint; an endpoint with one placeholder gets the value
    in its place whatever the value is; and for the endpoint with two
    placeholders the path does not depend on the order in which Go ranges
    over the parameters when neither value holds an opening brace. *)
Theorem resolveEndpoint_substitutes_verbatim (range : api_params.ParamOrder)
    (workspaceID email : string) :
  api_params.valid_params range ->
  (forall key, api_params.resolveEndpoint range key ∅ = api.resolveEndpoint key)
  /\ api_params.resolveEndpoint range "workspaces.members"
       {[ "workspace_id" := workspaceID ]}
     = Ok ("workspaces/" +:+ workspaceID +:+ "/members/")
  /\ api_params.resolveEndpoint range "workspaces.invite"
       {[ "workspace_id" := workspaceID ]}
     = Ok ("workspaces/" +:+ workspaceID +:+ "/members/")
  /\ api_params.resolveEndpoint range "users.public_key" {[ "email" := email ]}
     = Ok ("users/" +:+ email +:+ "/public-key/")
  /\ (no_brace workspaceID -> no_brace email ->
      api_params.resolveEndpoint range "workspaces.remove_member"
        (<[ "workspace_id" := workspaceID ]> {[ "email" := email ]})
      = Ok ("workspaces/" +:+ workspaceID +:+ "/members/" +:+ email +:+ "/")).
Proof.
  intros Hr. split; [|split; [|split; [|split]]].
  - intros key. unfold api_params.resolveEndpoint. rewrite (range_empty range Hr).
    destruct (api.resolveEndpoint key); reflexivity.
  - unfold api_params.resolveEndpoint. rewrite (range_singleton range _ _ Hr).
    change (api.resolveEndpoint "workspaces.members")
      with (@Ok string "workspaces/{workspace_id}/members/").
    cbn [bind foldl fst snd]. f_equal.
    apply (path_one_parameter "workspaces/" "/members/" "workspace_id"); no_braces.
  - unfold api_params.resolveEndpoint. rewrite (range_singleton range _ _ Hr).
    change (api.resolveEndpoint "workspaces.invite")
      with (@Ok string "workspaces/{workspace_id}/members/").
    cbn [bind foldl fst snd]. f_equal.
    apply (path_one_parameter "workspaces/" "/members/" "workspace_id"); no_braces.
  - unfold api_params.resolveEndpoint. rewrite (range_singleton range _ _ Hr).
    change (api.resolveEndpoint "users.public_key")
      with (@Ok string "users/{email}/public-key/").
    cbn [bind foldl fst snd]. f_equal.
    apply (path_one_parameter "users/" "/public-key/" "email"); no_braces.
  - intros Hw He. unfold api_params.resolveEndpoint.
    change (api.resolveEndpoint "workspaces.remove_member")
      with (@Ok string "workspaces/{workspace_id}/members/{email}/").
    cbn [bind]. f_equal.
    destruct (range_two range "workspace_id" "email" workspaceID email Hr) as [-> | ->];
      [discriminate|..]; cbn [foldl fst snd].
    + (* the workspace first, then the email *)
      rewrite (ReplaceAll_first "workspaces/" "/members/{email}/" "workspace_id")
        by no_braces.
      change (api_params.ReplaceAll "/members/{email}/" ("{" +:+ "workspace_id" +:+ "}")
                workspaceID)
        with ("/members/" +:+ "{" +:+ "email" +:+ "}" +:+ "/").
      rewrite <- !string_app_assoc.
      rewrite (string_app_assoc _ "}" "/"), (string_app_assoc _ "email"),
        (string_app_assoc _ "{").
      rewrite path_one_parameter by no_braces.
      now rewrite !string_app_assoc.
    + (* the email first, then the workspace *)
      assert (api_params.ReplaceAll "workspaces/{workspace_id}/members/{email}/"
                ("{" +:+ "email" +:+ "}") email
              = "workspaces/" +:+ "{" +:+ "workspace_id" +:+ "}"
                +:+ ("/members/" +:+ email +:+ "/")) as ->.
      { unfold api_params.ReplaceAll.
        rewrite <- (string_of_bytes_of_string
                      ("workspaces/" +:+ "{" +:+ "workspace_id" +:+ "}"
                       +:+ ("/members/" +:+ email +:+ "/"))).
        f_equal. rewrite !bytes_of_string_app.
        generalize (bytes_of_string email). intros E. reflexivity. }
      now rewrite path_one_parameter by no_braces.
Qed.

(** X22.  With a value that holds a placeholder, the path depends on the
    order of Go's range over the parameters.  For the removal of a member
    with the workspace identifier "{email}", ranging over the two
    parameters with the workspace first puts the email in both places,
    ranging with the email first leaves "{email}" in the path; the two
    paths differ, so the opposite order of the same parameters gives
    another path. *)
Theorem resolveEndpoint_order_matters (range : api_params.ParamOrder) (email : string) :
  api_params.valid_params range -> no_brace email ->
  let params : gmap string string :=
    <[ "workspace_id" := "{email}" ]> {[ "email" := email ]} in
  let opposite : api_params.ParamOrder := fun m => rev (range m) in
  let workspace_first := Ok ("workspaces/" +:+ email +:+ "/members/" +:+ email +:+ "/") in
  let email_first := Ok ("workspaces/{email}/members/" +:+ email +:+ "/") in
  api_params.valid_params opposite
  /\ workspace_first <> email_first
  /\ (fst <$> range params = ["workspace_id"; "email"] ->
      api_params.resolveEndpoint range "workspaces.remove_member" params
      = workspace_first)
  /\ (fst <$> range params = ["email"; "workspace_id"] ->
      api_params.resolveEndpoint range "workspaces.remove_member" params = email_first)
  /\ api_params.resolveEndpoint range "workspaces.remove_member" params
     <> api_params.resolveEndpoint opposite "workspaces.remove_member" params.
Proof.
  intros Hr He params opposite workspace_first email_first.
  assert (forall order : api_params.ParamOrder,
            order params = [("workspace_id", "{email}"); ("email", email)] ->
            api_params.resolveEndpoint order "workspaces.remove_member" params
            = workspace_first) as Hws.
  { intros order Ho. unfold api_params.resolveEndpoint. rewrite Ho.
    change (api.resolveEndpoint "workspaces.remove_member")
      with (@Ok string "workspaces/{workspace_id}/members/{email}/").
    cbn [bind foldl fst snd]. unfold workspace_first. f_equal.
    rewrite remove_member_workspace_first.
    change ("workspaces/" +:+ "{email}" +:+ "/members/" +:+ "{" +:+ "email" +:+ "}" +:+ "/")
      with ("workspaces/" +:+ "{" +:+ "email" +:+ "}"
            +:+ ("/members/" +:+ "{" +:+ "email" +:+ "}" +:+ "/")).
    rewrite (ReplaceAll_first "workspaces/" _ "email") by no_braces.
    now rewrite (path_one_parameter "/members/" "/" "email") by no_braces. }
  assert (forall order : api_params.ParamOrder,
            order params = [("email", email); ("workspace_id", "{email}")] ->
            api_params.resolveEndpoint order "workspaces.remove_member" params
            = email_first) as Hem.
  { intros order Ho. unfold api_params.resolveEndpoint. rewrite Ho.
    change (api.resolveEndpoint "workspaces.remove_member")
      with (@Ok string "workspaces/{workspace_id}/members/{email}/").
    cbn [bind foldl fst snd]. unfold email_first. f_equal.
    rewrite remove_member_email_first.
    rewrite path_one_parameter by no_braces.
    rewrite <- (string_of_bytes_of_string (_ +:+ _)), !bytes_of_string_app.
    rewrite <- (string_of_bytes_of_string ("workspaces/{email}/members/" +:+ _)).
    now rewrite !bytes_of_string_app. }
  assert (workspace_first <> email_first) as Hne.
  { unfold workspace_first, email_first. intros [= H].
    apply (f_equal bytes_of_string) in H. rewrite !bytes_of_string_app in H.
    unfold no_brace in He. cbn in H.
    destruct (bytes_of_string email) as [|c rest]; [discriminate H|].
    injection H as -> _. now inversion He. }
  split; [now apply valid_params_rev|]. split; [exact Hne|].
  destruct (range_two range "workspace_id" "email" "{email}" email Hr) as [Ho | Ho];
    [discriminate|..]; fold params in Ho.
  - split; [intros _; now apply Hws|]. split; [now rewrite Ho|].
    rewrite (Hws range Ho), (Hem opposite); [exact Hne|].
    unfold opposite. now rewrite Ho.
  - split; [now rewrite Ho|]. split; [intros _; now apply Hem|].
    rewrite (Hem range Ho), (Hws opposite); [now apply not_eq_sym|].
    unfold opposite. now rewrite Ho.
Qed.

End ApiProperties.

Section ApiExamples.

Lemma valid_params_map_to_list : api_params.valid_params map_to_list.
Proof. intros m. reflexivity. Qed.

Lemma resolveEndpoint_substitutes_verbatim_witness :
  let range : api_params.ParamOrder := map_to_list in
  let workspaceID := "ws-1" in
  let email := "bob@example.com" in
  (forall key, api_params.resolveEndpoint range key ∅ = api.resolveEndpoint key)
  /\ api_params.resolveEndpoint range "workspaces.members"
       {[ "workspace_id" := workspaceID ]}
     = Ok ("workspaces/" +:+ workspaceID +:+ "/members/")
  /\ api_params.resolveEndpoint range "workspaces.invite"
       {[ "workspace_id" := workspaceID ]}
     = Ok ("workspaces/" +:+ workspaceID +:+ "/members/")
  /\ api_params.resolveEndpoint range "users.public_key" {[ "email" := email ]}
     = Ok ("users/" +:+ email +:+ "/public-key/")
  /\ (no_brace workspaceID -> no_brace email ->
      api_params.resolveEndpoint range "workspaces.remove_member"
        (<[ "workspace_id" := workspaceID ]> {[ "email" := email ]})
      = Ok ("workspaces/" +:+ workspaceID +:+ "/members/" +:+ email +:+ "/")).
Proof.
  intros range workspaceID email.
  apply (resolveEndpoint_substitutes_verbatim range workspaceID email).
  apply valid_params_map_to_list.
Defined.

Lemma resolveEndpoint_order_matters_witness :
  let range : api_params.ParamOrder := map_to_list in
  let email := "bob@example.com" in
  let params : gmap string string :=
    <[ "workspace_id" := "{email}" ]> {[ "email" := email ]} in
  let opposite : api_params.ParamOrder := fun m => rev (range m) in
  let workspace_first := Ok ("workspaces/" +:+ email +:+ "/members/" +:+ email +:+ "/") in
  let email_first := Ok ("workspaces/{email}/members/" +:+ email +:+ "/") in
  api_params.valid_params opposite
  /\ workspace_first <> email_first
  /\ (fst <$> range params = ["workspace_id"; "email"] ->
      api_params.resolveEndpoint range "workspaces.remove_member" params
      = workspace_first)
  /\ (fst <$> range params = ["email"; "workspace_id"] ->
      api_params.resolveEndpoint range "workspaces.remove_member" params = email_first)
  /\ api_params.resolveEndpoint range "workspaces.remove_member" params
     <> api_params.resolveEndpoint opposite "workspaces.remove_member" params.
Proof.
  intros range email.
  apply (resolveEndpoint_order_matters range email).
  - apply valid_params_map_to_list.
  - unfold no_brace. vm_compute. repeat constructor; discriminate.
Defined.

(** The two paths of the removal above, and a value that is put into the
    path with its slash. *)
Example resolveEndpoint_examples :
  let params : gmap string string :=
    <[ "workspace_id" := "{email}" ]> {[ "email" := "bob@example.com" ]} in
  api_params.resolveEndpoint map_to_list "workspaces.remove_member" params
  <> api_params.resolveEndpoint (fun m => rev (map_to_list m))
       "workspaces.remove_member" params
  /\ api_params.resolveEndpoint map_to_list "workspaces.members"
       {[ "workspace_id" := "ws-1/../ws-2" ]}
     = Ok "workspaces/ws-1/../ws-2/members/".
Proof. vm_compute. split; [discriminate|reflexivity]. Qed.

End ApiExamples.

(** ** Package workspaces: creating a workspace and inviting to it *)

Section WorkspacesProperties.
Context {L : CryptoLib}.
Import auth.

Lemma Call_create (s : workspaces.Service) (name : string) (blob : list byte)
    (d : config.Disk) :
  api.Call (workspaces.API s) "workspaces.create" "POST"
    (Some [("name", http.Str name);
           ("encrypted_workspace_key", http.Str (workspaces.b64Enc blob))]) d
  = (answer (api.HTTPClient_Do (workspaces.API s) (createRequest s name blob d)), d).
Proof. reflexivity. Qed.

Lemma on_rand_inv {A : Type} (m : M io.Reader A) (w w' : World) (r : result A) :
  on_rand m w = (r, w') ->
  exists g', m (rand w) = (r, g')
             /\ w' = {| disk := disk w; keychain := keychain w; rand := g' |}.
Proof.
  unfold on_rand. destruct (m (rand w)) as [r0 g']. intros [= <- <-]. eauto.
Qed.

Lemma LoadGlobalConfig_disk (d : config.Disk) :
  snd (config.LoadGlobalConfig d) = d.
Proof.
  unfold config.LoadGlobalConfig, bindM.
  destruct (config.HomeDirHook d) as [home|e] eqn:Hh.
  - now rewrite (GetPaths_home d home Hh).
  - now rewrite (GetPaths_error d e Hh).
Qed.


(** X23.  Create, when everything answers: with a name of valid UTF-8
    (encoding/json writes any other byte as U+FFFD), a session of a
    non-empty email, 64 bytes of entropy, a public key of 32 bytes for the email in
    the keychain, a server that answers the creation with status 201 and a
    body that parses, and files that load and can be written, Create
    returns no error; the new workspace is in the cache under the
    identifier the server gave, with the name and the key that was drawn,
    and it is the selected one; the other entries and the email are kept;
    GetWorkspaceKey returns the key; and what was sent to the server is the
    key sealed for the public key: it opens under the key pair to the key. *)
Theorem Create_caches_and_selects (s : workspaces.Service) (name : string) (w : World)
    (wsKey esk r' pk : list byte) (resp : http.Response workspaces.body)
    (res : workspaces.created) (cfg : config.GlobalConfig) :
  utf8.ValidString name = true ->
  config.GetEmail (disk w) <> "" ->
  rand w = wsKey ++ esk ++ r' -> length wsKey = 32 -> length esk = 32 ->
  keyring.GetPublicKey (config.GetEmail (disk w)) (keychain w) = (Ok pk, keychain w) ->
  length pk = 32 ->
  api.HTTPClient_Do (workspaces.API s)
    (createRequest s name (sealed_box wsKey pk esk) (disk w)) = inl resp ->
  http.StatusCode resp = http.StatusCreated ->
  workspaces.json_created (http.Body resp) = inl res ->
  config.LoadGlobalConfig (disk w) = (Ok cfg, disk w) ->
  writable (disk w) ->
  exists w',
    workspaces.Create s name w = (Ok tt, w')
    /\ rand w' = r' /\ keychain w' = keychain w
    /\ stored_config (disk w')
       = {| config.Email := config.Email cfg;
            config.SelectedWorkspaceID := workspaces.created_ID res;
            config.Workspaces :=
              <[workspaces.created_ID res := createdEntry name wsKey res]>
                (config.Workspaces cfg) |}
    /\ config.GetWorkspaceKey (workspaces.created_ID res) (disk w') = (Ok wsKey, disk w')
    /\ forall sk, length sk = 32 -> pk = scalar_base_mult sk ->
         crypto.DecryptFromUser sk pk (sealed_box wsKey pk esk) = Ok wsKey.
Proof.
  intros Hname Hemail Hrand Hws Hesk Hpub Hpk Hdo Hstatus Hjson Hload Hw.
  pose proof Hw as [Hh _].
  destruct w as [d k g]. cbn [disk keychain rand] in *. subst g.
  set (c' := {| config.Email := config.Email cfg;
                config.SelectedWorkspaceID := workspaces.created_ID res;
                config.Workspaces :=
                  <[workspaces.created_ID res := createdEntry name wsKey res]>
                    (config.Workspaces cfg) |}).
  exists {| disk := write_config d c'; keychain := k; rand := r' |}.
  split.
  - unfold workspaces.Create. cbn [disk]. rewrite decide_False by exact Hemail.
    unfold bindM at 1, wrappingM at 1, on_rand at 1. cbn [disk keychain rand].
    rewrite GenerateWorkspaceKey_returns by exact Hws. cbn [wrapping].
    unfold bindM at 1, wrappingM at 1, on_keychain at 1. cbn [disk keychain rand].
    rewrite Hpub. cbn [wrapping].
    unfold bindM at 1, wrappingM at 1, on_rand at 1. cbn [disk keychain rand].
    rewrite EncryptForUser_returns by assumption. cbn [wrapping].
    unfold bindM at 1, wrappingM at 1, on_disk at 1. cbn [disk keychain rand].
    rewrite Call_create, Hdo. cbn [answer wrapping].
    rewrite decide_False by (intros Hne; now apply Hne).
    unfold bindM at 1, lift. rewrite Hjson. cbn [answer wrapping].
    unfold bindM at 1, wrappingM at 1, on_disk at 1. cbn [disk keychain rand].
    rewrite Hload. cbn [wrapping].
    unfold on_disk. cbn [disk keychain rand].
    now rewrite SaveGlobalConfig_writable by exact Hw.
  - cbn [disk keychain rand]. split; [reflexivity|]. split; [reflexivity|].
    split; [now apply stored_config_write_config|]. split.
    + rewrite (GetWorkspaceKey_loaded _ c') by now apply LoadGlobalConfig_writable.
      unfold c'. cbn [config.Workspaces]. rewrite lookup_insert_eq.
      unfold createdEntry. cbn [config.Key].
      rewrite decide_False.
      * now rewrite base64_DecodeString_EncodeToString.
      * rewrite base64_EncodeToString_empty_iff. intros ->. discriminate Hws.
    + intros sk Hsk ->. now apply DecryptFromUser_sealed.
Qed.


(** The call for the public key: the request NewRequest makes is handed to
    the transport; when NewRequest refuses the URL nothing is sent. *)
Lemma Call_public_key (range : api_params.ParamOrder)
    (NewRequest : string -> string -> option error) (s : workspaces.Service)
    (email : string) (d : config.Disk) :
  api_params.valid_params range ->
  api_params.Call range NewRequest (workspaces.API s) "users.public_key" "GET" None
    {[ "email" := email ]} d
  = (match NewRequest "GET" (http.URL (publicKeyRequest s email d)) with
     | Some err => Err (Errorf_w "failed to create request" err)
     | None => answer (api.HTTPClient_Do (workspaces.API s) (publicKeyRequest s email d))
     end, d).
Proof.
  intros Hr. unfold api_params.Call, bindM, lift.
  rewrite (resolveEndpoint_one_parameter range "users.public_key" "users/"
             "/public-key/" "email" email Hr eq_refl) by no_braces.
  change (api.ToUpper "GET") with "GET". cbn [http.URL publicKeyRequest].
  now destruct (NewRequest "GET" _).
Qed.

Lemma Call_invite (range : api_params.ParamOrder)
    (NewRequest : string -> string -> option error) (s : workspaces.Service)
    (workspaceID email role : string) (blob : list byte) (d : config.Disk) :
  api_params.valid_params range ->
  api_params.Call range NewRequest (workspaces.API s) "workspaces.invite" "POST"
    (Some [("email", http.Str email); ("role", http.Str role);
           ("encrypted_workspace_key", http.Str (workspaces.b64Enc blob))])
    {[ "workspace_id" := workspaceID ]} d
  = (match NewRequest "POST"
             (http.URL (inviteRequest s workspaceID email role blob d)) with
     | Some err => Err (Errorf_w "failed to create request" err)
     | None => answer (api.HTTPClient_Do (workspaces.API s)
                         (inviteRequest s workspaceID email role blob d))
     end, d).
Proof.
  intros Hr. unfold api_params.Call, bindM, lift.
  rewrite (resolveEndpoint_one_parameter range "workspaces.invite" "workspaces/"
             "/members/" "workspace_id" workspaceID Hr eq_refl) by no_braces.
  change (api.ToUpper "POST") with "POST". cbn [http.URL inviteRequest].
  now destruct (NewRequest "POST" _).
Qed.

(** X25.  Invite seals the cached workspace key for the invitee.  When
    http.NewRequest accepts the two URLs (the email and the workspace
    identifier are put into them as they are), the server answers the
    request for the invitee's public key with status 200 and a key of 32
    bytes, the workspace is in the cache with a key that decodes, 32 bytes
    of entropy are there and the server answers the invitation with 201 or
    200, Invite returns no error, leaves the files and the keychain as they
    are, and what it sent in the invitation is the cached key sealed for
    the invitee: it opens under the invitee's key pair to the workspace
    key, whatever the length of that key and whatever the role. *)
Theorem Invite_seals_for_invitee (range : api_params.ParamOrder)
    (NewRequest : string -> string -> option error)
    (s : workspaces.Service) (workspaceID email role : string) (w : World)
    (pk wsKey esk r' : list byte) (cfg : config.GlobalConfig)
    (ws : config.WorkspaceCacheEntry)
    (pkResp invResp : http.Response workspaces.body) :
  api_params.valid_params range ->
  NewRequest "GET" (http.URL (publicKeyRequest s email (disk w))) = None ->
  api.HTTPClient_Do (workspaces.API s) (publicKeyRequest s email (disk w)) = inl pkResp ->
  http.StatusCode pkResp = http.StatusOK ->
  workspaces.json_publicKey (http.Body pkResp) = inl (base64.EncodeToString pk) ->
  length pk = 32 ->
  config.LoadGlobalConfig (disk w) = (Ok cfg, disk w) ->
  config.Workspaces cfg !! workspaceID = Some ws ->
  config.Key ws = base64.EncodeToString wsKey ->
  rand w = esk ++ r' -> length esk = 32 ->
  NewRequest "POST"
    (http.URL (inviteRequest s workspaceID email role (sealed_box wsKey pk esk) (disk w)))
  = None ->
  api.HTTPClient_Do (workspaces.API s)
    (inviteRequest s workspaceID email role (sealed_box wsKey pk esk) (disk w))
  = inl invResp ->
  http.StatusCode invResp = http.StatusCreated
  \/ http.StatusCode invResp = http.StatusOK ->
  workspaces.Invite range NewRequest s workspaceID email role w
  = (Ok tt, {| disk := disk w; keychain := keychain w; rand := r' |})
  /\ forall sk, length sk = 32 -> pk = scalar_base_mult sk ->
       crypto.DecryptFromUser sk pk (sealed_box wsKey pk esk) = Ok wsKey.
Proof.
  intros Hr Hnew1 Hdo1 Hs1 Hjson Hpk Hload Hws Hkey Hrand Hesk Hnew2 Hdo2 Hs2.
  destruct w as [d k g]. cbn [disk keychain rand] in *. subst g.
  split; [|intros sk Hsk ->; now apply DecryptFromUser_sealed].
  unfold workspaces.Invite.
  unfold bindM at 1, wrappingM at 1, on_disk at 1. cbn [disk keychain rand].
  rewrite Call_public_key, Hnew1, Hdo1 by exact Hr. cbn [answer wrapping].
  rewrite decide_False by (intros Hne; now apply Hne).
  unfold bindM at 1, lift at 1. rewrite Hjson. cbn [answer wrapping].
  unfold bindM at 1, lift at 1, workspaces.b64Dec at 1.
  rewrite base64_DecodeString_EncodeToString. cbn [wrapping].
  unfold bindM at 1, wrappingM at 1, on_disk at 1. cbn [disk keychain rand].
  rewrite Hload. cbn [wrapping]. rewrite Hws.
  unfold bindM at 1, lift at 1, workspaces.b64Dec at 1.
  rewrite Hkey, base64_DecodeString_EncodeToString. cbn [wrapping].
  unfold bindM at 1, wrappingM at 1, on_rand at 1. cbn [disk keychain rand].
  rewrite EncryptForUser_returns by assumption. cbn [wrapping].
  unfold bindM at 1, wrappingM at 1, on_disk at 1. cbn [disk keychain rand].
  rewrite Call_invite, Hnew2, Hdo2 by exact Hr. cbn [answer wrapping].
  rewrite decide_False by (intros [H1 H2]; destruct Hs2; contradiction).
  reflexivity.
Qed.

(** X26.  Invite writes nothing and asks for the public key first.
    Whatever happens, the files and the keychain are as before.  When
    http.NewRequest refuses the URL of the request for the public key (the
    email is put into it as it is), Invite fails with that error and
    nothing is sent.  When the workspace is not in the cache, Invite fails
    with an error that names it, but only after the request for the
    invitee's public key was made and the server has answered it with
    status 200 and a key that decodes; the entropy is then untouched. *)
Theorem Invite_unknown_workspace (range : api_params.ParamOrder)
    (NewRequest : string -> string -> option error)
    (s : workspaces.Service) (workspaceID email role : string) (w : World) :
  api_params.valid_params range ->
  (forall r w', workspaces.Invite range NewRequest s workspaceID email role w = (r, w') ->
                disk w' = disk w /\ keychain w' = keychain w)
  /\ (forall err,
        NewRequest "GET" (http.URL (publicKeyRequest s email (disk w))) = Some err ->
        workspaces.Invite range NewRequest s workspaceID email role w
        = (Err (Errorf_w "invite: failed to get public key"
                  (Errorf_w "failed to create request" err)), w))
  /\ forall (cfg : config.GlobalConfig) (pkResp : http.Response workspaces.body)
        (publicKey : string) (pk : list byte),
       NewRequest "GET" (http.URL (publicKeyRequest s email (disk w))) = None ->
       api.HTTPClient_Do (workspaces.API s) (publicKeyRequest s email (disk w))
       = inl pkResp ->
       http.StatusCode pkResp = http.StatusOK ->
       workspaces.json_publicKey (http.Body pkResp) = inl publicKey ->
       base64.DecodeString publicKey = Ok pk ->
       config.LoadGlobalConfig (disk w) = (Ok cfg, disk w) ->
       config.Workspaces cfg !! workspaceID = None ->
       workspaces.Invite range NewRequest s workspaceID email role w
       = (Err (Errorf ("invite: workspace " +:+ workspaceID +:+ " not found in cache")),
          w).
Proof.
  intros Hr. destruct w as [d k g]. cbn [disk keychain rand]. split; [|split].
  - intros r w' E. unfold workspaces.Invite in E.
    unfold bindM at 1, wrappingM at 1, on_disk at 1 in E. cbn [disk keychain rand] in E.
    rewrite Call_public_key in E by exact Hr.
    destruct (NewRequest "GET" _) as [err|]; cbn [wrapping] in E.
    { now injection E as <- <-. }
    destruct (api.HTTPClient_Do (workspaces.API s) (publicKeyRequest s email d))
      as [pkResp|e]; cbn [answer wrapping] in E.
    2:{ now injection E as <- <-. }
    destruct (decide (http.StatusCode pkResp <> http.StatusOK)).
    { now injection E as <- <-. }
    unfold bindM at 1, lift at 1 in E.
    destruct (workspaces.json_publicKey (http.Body pkResp)) as [publicKey|e];
      cbn [answer wrapping] in E.
    2:{ now injection E as <- <-. }
    unfold bindM at 1, lift at 1, workspaces.b64Dec at 1 in E.
    destruct (base64.DecodeString publicKey) as [pk|e|msg]; cbn [wrapping] in E.
    2,3: now injection E as <- <-.
    unfold bindM at 1, wrappingM at 1, on_disk at 1 in E. cbn [disk keychain rand] in E.
    pose proof (LoadGlobalConfig_disk d) as Hd.
    destruct (config.LoadGlobalConfig d) as [[cfg|e|msg] d1];
      cbn [snd] in Hd; subst d1; cbn [wrapping] in E.
    2,3: now injection E as <- <-.
    destruct (config.Workspaces cfg !! workspaceID) as [ws|].
    2:{ now injection E as <- <-. }
    unfold bindM at 1, lift at 1, workspaces.b64Dec at 1 in E.
    destruct (base64.DecodeString (config.Key ws)) as [wsKey|e|msg]; cbn [wrapping] in E.
    2,3: now injection E as <- <-.
    unfold bindM at 1, wrappingM at 1, on_rand at 1 in E. cbn [disk keychain rand] in E.
    destruct (crypto.EncryptForUser pk wsKey g) as [[blob|e|msg] g1];
      cbn [wrapping] in E.
    2,3: now injection E as <- <-.
    unfold bindM at 1, wrappingM at 1, on_disk at 1 in E. cbn [disk keychain rand] in E.
    rewrite Call_invite in E by exact Hr.
    destruct (NewRequest "POST" _) as [err|]; cbn [wrapping] in E.
    { now injection E as <- <-. }
    destruct (api.HTTPClient_Do (workspaces.API s)
                (inviteRequest s workspaceID email role blob d))
      as [invResp|e]; cbn [answer wrapping] in E.
    2:{ now injection E as <- <-. }
    destruct (decide _); now injection E as <- <-.
  - intros err Hnew. unfold workspaces.Invite.
    unfold bindM at 1, wrappingM at 1, on_disk at 1. cbn [disk keychain rand].
    rewrite Call_public_key, Hnew by exact Hr. reflexivity.
  - intros cfg pkResp publicKey pk Hnew Hdo Hs Hjson Hdec Hload Hws.
    unfold workspaces.Invite.
    unfold bindM at 1, wrappingM at 1, on_disk at 1. cbn [disk keychain rand].
    rewrite Call_public_key, Hnew, Hdo by exact Hr. cbn [answer wrapping].
    rewrite decide_False by (intros Hne; now apply Hne).
    unfold bindM at 1, lift at 1. rewrite Hjson. cbn [answer wrapping].
    unfold bindM at 1, lift at 1, workspaces.b64Dec at 1. rewrite Hdec. cbn [wrapping].
    unfold bindM at 1, wrappingM at 1, on_disk at 1. cbn [disk keychain rand].
    rewrite Hload. cbn [wrapping]. now rewrite Hws.
Qed.

End WorkspacesProperties.

Section WorkspacesExamples.
#[local] Existing Instance Reference.lib.
Import auth.

Lemma writable_session_disk : writable Fixtures.session_disk.
Proof. split; [now exists "/home/dev" | reflexivity]. Qed.

Lemma Create_caches_and_selects_witness :
  let s := Fixtures.workspace_server in
  let name := "Team" in
  let w := Fixtures.world Fixtures.session_disk Fixtures.session_keychain in
  let wsKey := take 32 Fixtures.entropy in
  let esk := take 32 (drop 32 Fixtures.entropy) in
  let r' := drop 64 Fixtures.entropy in
  let pk := scalar_base_mult Examples.zeroKey in
  let res := {| workspaces.created_ID := "ws-new"; workspaces.created_Type := "shared";
                workspaces.created_Role := "owner" |} in
  let cfg := stored_config Fixtures.session_disk in
  exists w',
    workspaces.Create s name w = (Ok tt, w')
    /\ rand w' = r' /\ keychain w' = keychain w
    /\ stored_config (disk w')
       = {| config.Email := config.Email cfg;
            config.SelectedWorkspaceID := workspaces.created_ID res;
            config.Workspaces :=
              <[workspaces.created_ID res := createdEntry name wsKey res]>
                (config.Workspaces cfg) |}
    /\ config.GetWorkspaceKey (workspaces.created_ID res) (disk w') = (Ok wsKey, disk w')
    /\ forall sk, length sk = 32 -> pk = scalar_base_mult sk ->
         crypto.DecryptFromUser sk pk (sealed_box wsKey pk esk) = Ok wsKey.
Proof.
  intros s name w wsKey esk r' pk res cfg.
  eapply (Create_caches_and_selects s name w wsKey esk r' pk _ res cfg).
  - reflexivity.
  - discriminate.
  - reflexivity.
  - reflexivity.
  - reflexivity.
  - reflexivity.
  - reflexivity.
  - reflexivity.
  - reflexivity.
  - reflexivity.
  - reflexivity.
  - apply writable_session_disk.
Defined.

Lemma Invite_seals_for_invitee_witness :
  let s := Fixtures.workspace_server in
  let w := Fixtures.world Fixtures.session_disk Fixtures.session_keychain in
  let pk := scalar_base_mult Examples.zeroKey in
  let wsKey := Examples.zeroKey in
  let esk := take 32 Fixtures.entropy in
  let r' := drop 32 Fixtures.entropy in
  workspaces.Invite map_to_list Fixtures.NewRequest s "ws-a" "bob@example.com" "member" w
  = (Ok tt, {| disk := disk w; keychain := keychain w; rand := r' |})
  /\ forall sk, length sk = 32 -> pk = scalar_base_mult sk ->
       crypto.DecryptFromUser sk pk (sealed_box wsKey pk esk) = Ok wsKey.
Proof.
  intros s w pk wsKey esk r'.
  eapply (Invite_seals_for_invitee map_to_list Fixtures.NewRequest s "ws-a"
            "bob@example.com" "member" w
            pk wsKey esk r' (stored_config Fixtures.session_disk)
            (Scenario.sealed_entry "ws-a" "personal")).
  - apply valid_params_map_to_list.
  - reflexivity.
  - reflexivity.
  - reflexivity.
  - reflexivity.
  - reflexivity.
  - reflexivity.
  - reflexivity.
  - reflexivity.
  - reflexivity.
  - reflexivity.
  - reflexivity.
  - reflexivity.
  - now left.
Defined.

Lemma Invite_unknown_workspace_witness :
  let s := Fixtures.workspace_server in
  let w := Fixtures.world Fixtures.session_disk Fixtures.session_keychain in
  let NewRequest := Fixtures.NewRequest in
  let workspaceID := "ws-z" in
  let email := "bob@example.com" in
  let role := "member" in
  (forall r w', workspaces.Invite map_to_list NewRequest s workspaceID email role w
                = (r, w') ->
                disk w' = disk w /\ keychain w' = keychain w)
  /\ (forall err,
        NewRequest "GET" (http.URL (publicKeyRequest s email (disk w))) = Some err ->
        workspaces.Invite map_to_list NewRequest s workspaceID email role w
        = (Err (Errorf_w "invite: failed to get public key"
                  (Errorf_w "failed to create request" err)), w))
  /\ forall (cfg : config.GlobalConfig) (pkResp : http.Response workspaces.body)
        (publicKey : string) (pk : list byte),
       NewRequest "GET" (http.URL (publicKeyRequest s email (disk w))) = None ->
       api.HTTPClient_Do (workspaces.API s) (publicKeyRequest s email (disk w))
       = inl pkResp ->
       http.StatusCode pkResp = http.StatusOK ->
       workspaces.json_publicKey (http.Body pkResp) = inl publicKey ->
       base64.DecodeString publicKey = Ok pk ->
       config.LoadGlobalConfig (disk w) = (Ok cfg, disk w) ->
       config.Workspaces cfg !! workspaceID = None ->
       workspaces.Invite map_to_list NewRequest s workspaceID email role w
       = (Err (Errorf ("invite: workspace " +:+ workspaceID +:+ " not found in cache")),
          w).
Proof.
  intros s w NewRequest workspaceID email role.
  apply (Invite_unknown_workspace map_to_list NewRequest s workspaceID email role w).
  apply valid_params_map_to_list.
Defined.

(** The invitation to a workspace that is not cached fails after the
    request for the public key; the invitation of an email that makes a
    URL http.NewRequest refuses fails before it. *)
Example Invite_unknown_workspace_example :
  let w := Fixtures.world Fixtures.session_disk Fixtures.session_keychain in
  fst (workspaces.Invite map_to_list Fixtures.NewRequest Fixtures.workspace_server
         "ws-z" "bob@example.com" "member" w)
  = Err (Errorf "invite: workspace ws-z not found in cache")
  /\ workspaces.Invite map_to_list Fixtures.NewRequest Fixtures.workspace_server
       "ws-a" "bob%zz" "member" w
     = (Err (Errorf_w "invite: failed to get public key"
               (Errorf_w "failed to create request"
                  (SyscallError
                     ("parse "
                      +:+ api.Quote (api.DefaultBaseURL +:+ "/users/bob%zz/public-key/")
                      +:+ ": invalid URL escape " +:+ api.Quote "%zz")))), w).
Proof. vm_compute. split; reflexivity. Qed.

End WorkspacesExamples.

(** ** Package keyring with the file fallback *)

Section KeyringFileProperties.
Import keyring_file.

Lemma keyringFilePath_home (h : Home) (dir : string) :
  UserHomeDir h = inl dir -> keyringFilePath h = (Ok (keyring_path dir), h).
Proof. intros Hd. unfold keyringFilePath, bindM. now rewrite Hd. Qed.


Lemma loadKeyringFile_loadable (h : Home) (dir : string) :
  UserHomeDir h = inl dir -> loadable (keyring_json h) ->
  loadKeyringFile h = (Ok (Some (entries_of (keyring_json h))), h).
Proof.
  intros Hd Hl. unfold loadKeyringFile, bindM. rewrite (keyringFilePath_home h dir Hd).
  now destruct (keyring_json h).
Qed.

Lemma loadKeyringFile_with_file (h : Home) (dir : string)
    (m : gmap string keyEntry) :
  UserHomeDir h = inl dir ->
  loadKeyringFile (with_file h (Holds m)) = (Ok (Some m), with_file h (Holds m)).
Proof. intros Hd. now apply (loadKeyringFile_loadable (with_file h (Holds m)) dir). Qed.

Lemma saveKeyringFile_writes (h : Home) (dir : string) (m : gmap string keyEntry) :
  UserHomeDir h = inl dir -> WriteFile_error h (keyring_path dir) = None ->
  saveKeyringFile (Some m) h = (Ok tt, with_file h (Holds m)).
Proof.
  intros Hd Hw. unfold saveKeyringFile, bindM.
  rewrite (keyringFilePath_home h dir Hd). now rewrite Hw.
Qed.


Lemma fileGetKey_Holds (h : Home) (dir email keyType : string)
    (m : gmap string keyEntry) :
  UserHomeDir h = inl dir ->
  fileGetKey email keyType (with_file h (Holds m))
  = (match m !! email with
     | None => Err (Errorf ("no keys found for " +:+ email))
     | Some entry =>
         let encoded := if decide (keyType = "private") then Private entry
                        else Public entry in
         if decide (encoded = "") then
           Err (Errorf (keyType +:+ " key not found for " +:+ email))
         else base64.DecodeString encoded
     end, with_file h (Holds m)).
Proof.
  intros Hd. unfold fileGetKey, bindM.
  rewrite (loadKeyringFile_with_file h dir m Hd). cbn [mbind option_bind].
  destruct (m !! email) as [entry|]; [|reflexivity].
  cbv zeta. now destruct (decide _).
Qed.

Lemma fileGetKey_loadable (h : Home) (dir email keyType : string) :
  UserHomeDir h = inl dir -> loadable (keyring_json h) ->
  fst (fileGetKey email keyType h)
  = fst (fileGetKey email keyType (with_file h (Holds (entries_of (keyring_json h))))).
Proof.
  intros Hd Hl. unfold fileGetKey, bindM.
  rewrite (loadKeyringFile_loadable h dir Hd Hl).
  rewrite (loadKeyringFile_with_file h dir _ Hd). cbn [mbind option_bind].
  destruct (entries_of (keyring_json h) !! email) as [entry|]; [|reflexivity].
  cbv zeta. now destruct (decide _).
Qed.

Lemma StoreKeypair_file (s : Store) (dir email : string) (privateKey publicKey : list byte) :
  useFileBackend s = true ->
  UserHomeDir (home s) = inl dir ->
  WriteFile_error (home s) (keyring_path dir) = None ->
  loadable (keyring_json (home s)) ->
  StoreKeypair email privateKey publicKey s
  = (Ok tt,
     with_home s
       (with_file (home s)
          (Holds (<[email := {| Private := base64.EncodeToString privateKey;
                                Public := base64.EncodeToString publicKey |}]>
                    (entries_of (keyring_json (home s))))))).
Proof.
  intros Hf Hd Hw Hl. unfold StoreKeypair. cbv zeta. rewrite Hf.
  unfold on_home, fileSet, bindM at 1, wrappingM at 1.
  rewrite (loadKeyringFile_loadable _ dir Hd Hl). cbn [wrapping].
  unfold bindM, wrappingM. now rewrite (saveKeyringFile_writes _ dir _ Hd Hw).
Qed.

Lemma Get_file (s : Store) (dir email keyType : string) (m : gmap string keyEntry)
    (getter : string -> M Store (list byte)) :
  (getter = GetPrivateKey /\ keyType = "private")
  \/ (getter = GetPublicKey /\ keyType = "public") ->
  useFileBackend s = true ->
  UserHomeDir (home s) = inl dir ->
  getter email (with_home s (with_file (home s) (Holds m)))
  = (match m !! email with
     | None => Err (Errorf ("no keys found for " +:+ email))
     | Some entry =>
         let encoded := if decide (keyType = "private") then Private entry
                        else Public entry in
         if decide (encoded = "") then
           Err (Errorf (keyType +:+ " key not found for " +:+ email))
         else base64.DecodeString encoded
     end, with_home s (with_file (home s) (Holds m))).
Proof.
  intros Hg Hf Hd.
  assert (getter email (with_home s (with_file (home s) (Holds m)))
          = on_home (fileGetKey email keyType)
              (with_home s (with_file (home s) (Holds m)))) as ->.
  { destruct Hg as [[-> ->]|[-> ->]]; unfold GetPrivateKey, GetPublicKey;
      cbn [with_home useFileBackend]; now rewrite Hf. }
  unfold on_home. cbn [with_home home useFileBackend keychain].
  now rewrite (fileGetKey_Holds (home s) dir email keyType m Hd).
Qed.

(** X27.  The file backend, store then get.  With the file backend in use,
    an email of valid UTF-8 (encoding/json writes any other byte of a key
    of the map as U+FFFD), a home directory, a keyring file that can be written and that is
    neither unreadable nor the document null, StoreKeypair returns no
    error and does not touch the keychain; the file then holds the entries
    it held (none, when it was missing or could not be parsed: what it
    held is then lost) with the entry of the account replaced.  After it
    GetPrivateKey and GetPublicKey return the keys stored, except for an
    empty key, which is reported as not found; and the entries of the other
    accounts are as before. *)
Theorem file_backend_store_then_get (s : Store) (dir email : string)
    (privateKey publicKey : list byte) :
  utf8.ValidString email = true ->
  useFileBackend s = true ->
  UserHomeDir (home s) = inl dir ->
  WriteFile_error (home s) (keyring_path dir) = None ->
  loadable (keyring_json (home s)) ->
  exists s',
    StoreKeypair email privateKey publicKey s = (Ok tt, s')
    /\ keychain s' = keychain s
    /\ keyring_json (home s')
       = Holds (<[email := {| Private := base64.EncodeToString privateKey;
                              Public := base64.EncodeToString publicKey |}]>
                  (entries_of (keyring_json (home s))))
    /\ GetPrivateKey email s'
       = (if decide (privateKey = []) then
            Err (Errorf ("private key not found for " +:+ email))
          else Ok privateKey, s')
    /\ GetPublicKey email s'
       = (if decide (publicKey = []) then
            Err (Errorf ("public key not found for " +:+ email))
          else Ok publicKey, s')
    /\ forall email', email' <> email ->
         entries_of (keyring_json (home s')) !! email'
         = entries_of (keyring_json (home s)) !! email'.
Proof.
  intros Hvalid Hf Hd Hw Hl. eexists. split; [now apply (StoreKeypair_file s dir)|].
  split; [reflexivity|]. split; [reflexivity|]. split; [|split].
  - rewrite (Get_file s dir email "private" _ GetPrivateKey) by auto.
    rewrite lookup_insert_eq. cbv zeta.
    destruct (decide ("private" = "private")) as [_|Hx]; [|now destruct Hx].
    cbn [Private].
    destruct (decide (privateKey = [])) as [->|Hne].
    + now rewrite decide_True by reflexivity.
    + rewrite decide_False by now rewrite base64_EncodeToString_empty_iff.
      now rewrite base64_DecodeString_EncodeToString.
  - rewrite (Get_file s dir email "public" _ GetPublicKey) by auto.
    rewrite lookup_insert_eq. cbv zeta.
    destruct (decide ("public" = "private")) as [Hx|_]; [discriminate Hx|].
    cbn [Public].
    destruct (decide (publicKey = [])) as [->|Hne].
    + now rewrite decide_True by reflexivity.
    + rewrite decide_False by now rewrite base64_EncodeToString_empty_iff.
      now rewrite base64_DecodeString_EncodeToString.
  - intros email' Hne. cbn [with_home with_file home keyring_json entries_of].
    now rewrite lookup_insert_ne by congruence.
Qed.



(** X30.  The choice of the backend.  init neither fails nor panics.  It
    chooses the file backend exactly on Linux with a keychain that cannot
    be reached, and then leaves the keychain alone; on Linux with a
    keychain that works, the test entry is gone afterwards, also one that
    was there before, and the other secrets are kept; on another system
    the keychain is not touched.  So where the keychain cannot be reached
    on a system other than Linux there is no fallback: StoreKeypair fails
    with the keychain's error and writes no file. *)
Theorem init_chooses_backend (GOOS : string) (k : gokeyring.Keychain) :
  exists use k',
    init GOOS k = (Ok use, k')
    /\ (use = true <-> GOOS = "linux" /\ gokeyring.unavailable k <> None)
    /\ gokeyring.unavailable k' = gokeyring.unavailable k
    /\ (GOOS <> "linux" \/ gokeyring.unavailable k <> None -> k' = k)
    /\ (GOOS = "linux" -> gokeyring.unavailable k = None ->
        gokeyring.secrets k'
        = delete (serviceName, "__agentsecrets_keyring_test__") (gokeyring.secrets k))
    /\ forall h email privateKey publicKey e,
         GOOS <> "linux" -> gokeyring.unavailable k = Some e ->
         let s := {| useFileBackend := use; keychain := k'; home := h |} in
         StoreKeypair email privateKey publicKey s
         = (Err (Errorf_w "failed to store private key" e), s).
Proof.
  unfold init. destruct (decide (GOOS = "linux")) as [Hos|Hos].
  - unfold gokeyring.Set_. destruct (gokeyring.unavailable k) as [e|] eqn:Hu.
    + exists true, k. repeat split; auto; try congruence.
    + exists false,
        {| gokeyring.secrets :=
             delete (serviceName, "__agentsecrets_keyring_test__") (gokeyring.secrets k);
           gokeyring.unavailable := None |}.
      unfold bindM, discard, gokeyring.Delete, ret.
      cbn [gokeyring.unavailable gokeyring.secrets]. rewrite lookup_insert_eq.
      rewrite delete_insert_eq.
      split; [reflexivity|].
      split; [split; [discriminate|intros [_ H]; now destruct H]|].
      split; [reflexivity|]. split; [intros [H|H]; [contradiction|now destruct H]|].
      split; [reflexivity|].
      intros; contradiction.
  - exists false, k. split; [reflexivity|].
    split; [split; [discriminate|intros [H _]; contradiction]|].
    split; [reflexivity|]. split; [reflexivity|]. split; [intros; contradiction|].
    intros h email privateKey publicKey e _ Hu.
    unfold StoreKeypair. cbv zeta. cbn [useFileBackend].
    unfold bindM at 1, wrappingM at 1, on_keychain at 1, gokeyring.Set_ at 1.
    cbn [keychain useFileBackend home]. rewrite Hu.
    cbn [wrapping]. now destruct k.
Qed.

End KeyringFileProperties.

Section KeyringFileExamples.
Import keyring_file.

Lemma file_backend_store_then_get_witness :
  let s := Fixtures.file_store Unparsable in
  let email := "dev@example.com" in
  let privateKey := Examples.zeroKey in
  let publicKey : list byte := [] in
  exists s',
    StoreKeypair email privateKey publicKey s = (Ok tt, s')
    /\ keychain s' = keychain s
    /\ keyring_json (home s')
       = Holds (<[email := {| Private := base64.EncodeToString privateKey;
                              Public := base64.EncodeToString publicKey |}]>
                  (entries_of (keyring_json (home s))))
    /\ GetPrivateKey email s'
       = (if decide (privateKey = []) then
            Err (Errorf ("private key not found for " +:+ email))
          else Ok privateKey, s')
    /\ GetPublicKey email s'
       = (if decide (publicKey = []) then
            Err (Errorf ("public key not found for " +:+ email))
          else Ok publicKey, s')
    /\ forall email', email' <> email ->
         entries_of (keyring_json (home s')) !! email'
         = entries_of (keyring_json (home s)) !! email'.
Proof.
  intros s email privateKey publicKey.
  apply (file_backend_store_then_get s "/home/dev" email privateKey publicKey).
  - reflexivity.
  - reflexivity.
  - reflexivity.
  - reflexivity.
  - exact I.
Defined.



(** On Linux with no keychain the keys go to the file, and come back from
    it; a file that could not be parsed is replaced. *)
Example file_backend_example :
  match init "linux" Fixtures.no_keychain with
  | (Ok use, k) =>
      let s := {| useFileBackend := use; keychain := k;
                  home := home (Fixtures.file_store Unparsable) |} in
      let s' := snd (StoreKeypair "dev@example.com" (bytes_of_string "sk")
                       (bytes_of_string "pk") s) in
      use = true
      /\ fst (GetPrivateKey "dev@example.com" s') = Ok (bytes_of_string "sk")
      /\ fst (GetPublicKey "dev@example.com" s') = Ok (bytes_of_string "pk")
      /\ keyring_json (home s')
         = Holds {[ "dev@example.com" := {| Private := "c2s="; Public := "cGs=" |} ]}
  | _ => False
  end.
Proof. vm_compute. repeat split. Qed.

End KeyringFileExamples.
